(** * Federated-learning experiment drivers and data pipelines

    A shallow embedding of the control logic of the [mlmi] package:

    - [mlmi/reptile/omniglot.py]: the few-shot task sampler
      ([augment_dataset], [_sample_mini_dataset], [_split_train_test],
      [_make_omniglot_dataset]);
    - [mlmi/fedavg/femnist.py]: the MNIST shard partitioner
      ([load_mnist_dataset]) and the FEMNIST client selection
      ([load_femnist_dataset]);
    - [mlmi/experiments/fedavg.py] and
      [mlmi/experiments/hierarchical_clustering_fedavg.py]: the two
      experiment drivers, modelled as producers of an event trace.

    Python [int]s that are compared with [-1] or subtracted are [Z];
    parameters that count things ([num_clients], [num_shots], ...) are
    [nat].  Dictionaries are [gmap]s.  Exceptions are the left summand
    of [result].  Random number generators are threaded explicitly. *)

From stdpp Require Import gmap strings list fin_maps sorting pretty.

Set Default Proof Using "Type".
Open Scope Z_scope.

(** ** Python runtime: exceptions, sets, random numbers *)

Inductive exception :=
  | IndexError (msg : string)
  | KeyError (msg : string)
  | ValueError (msg : string).

Definition result (A : Type) : Type := exception + A.

Definition is_IndexError {A} (x : result A) : Prop :=
  match x with inl (IndexError _) => True | _ => False end.

Definition is_ValueError {A} (x : result A) : Prop :=
  match x with inl (ValueError _) => True | _ => False end.

(** The iteration order of a Python [set] is fixed for a given set but
    otherwise unspecified: [set_iter l] is the order in which the set
    built from the elements of [l] is traversed.  It lists every member
    once. *)
Class SetOrder (A : Type) := {
  set_iter : list A → list A;
  set_iter_NoDup : ∀ l, NoDup (set_iter l);
  set_iter_elem : ∀ l x, x ∈ set_iter l ↔ x ∈ l
}.

(** A random number generator ([random], [np.random] or a
    [np.random.RandomState]).  The one primitive is a random
    permutation; [r] is the generator state before the call and the
    second component the state after it. *)
Class RandomGen (R : Type) := {
  rand_seed : Z → R;
  rand_permutation : ∀ {A : Type}, list A → R → list A * R;
  rand_permutation_Permutation :
    ∀ (A : Type) (l : list A) (r : R), (rand_permutation l r).1 ≡ₚ l
}.

(** Two concrete runtimes, used to run the model on examples: a set
    that is traversed in the order of [remove_dups] (each member at its
    last occurrence), and a generator whose permutations are
    reversals. *)
Definition remove_dups_order {A} `{EqDecision A} : SetOrder A :=
  {| set_iter := remove_dups;
     set_iter_NoDup := NoDup_remove_dups;
     set_iter_elem := elem_of_remove_dups |}.

Definition reversing_gen : RandomGen nat :=
  {| rand_seed := Z.to_nat;
     rand_permutation := λ A l r, (reverse l, S r);
     rand_permutation_Permutation := λ A l r, reverse_Permutation l |}.

(** [numpy.argsort]: a permutation of the positions of [keys] along
    which the keys ascend.  How ties are broken is left to the sorting
    algorithm. *)
Class ArgSort := {
  argsort : list Z → list nat;
  argsort_Permutation : ∀ keys, argsort keys ≡ₚ seq 0 (length keys);
  argsort_Sorted :
    ∀ keys, StronglySorted Z.le ((λ j, keys !!! j) <$> argsort keys)
}.

(** An argsort by merge sort, to run the model with. *)
Definition merge_argsort (keys : list Z) : list nat :=
  merge_sort (λ i j, keys !!! i ≤ keys !!! j)
             (H := λ i j, decide (keys !!! i ≤ keys !!! j))
             (seq 0 (length keys)).

(** A [for] loop whose body may raise: the first exception ends it. *)
Fixpoint for_each {A S : Type} (body : A → S → result S) (xs : list A) (st : S)
  : result S :=
  match xs with
  | [] => inr st
  | x :: xs =>
      match body x st with
      | inl e => inl e
      | inr st => for_each body xs st
      end
  end.

(** The slice [l[lo:hi]] for non-negative bounds. *)
Definition slice {A} (lo hi : nat) (l : list A) : list A :=
  take (hi - lo) (drop lo l).

Module random.
(** [random.shuffle(x)]: [x] is permuted in place. *)
Definition shuffle {R} `{!RandomGen R} {A} (x : list A) (r : R)
  : list A * R := rand_permutation x r.
End random.

Module numpy.
(** [choice(a, size, replace=False)]: the first [size] entries of a
    random permutation of [a]; [ValueError] when the population is
    smaller than the sample. *)
Definition choice {R} `{!RandomGen R} {A} (a : list A) (size : nat) (r : R)
  : result (list A) * R :=
  if decide (length a < size)%nat
  then (inl (ValueError "Cannot take a larger sample than population when 'replace=False'"), r)
  else let '(p, r) := rand_permutation a r in (inr (take size p), r).
End numpy.

(** ** [torch.utils.data.DataLoader] and [mlmi.structs] *)

Module structs.

(** The arguments a [DataLoader] is constructed with. *)
Record DataLoader (D : Type) := mkDataLoader {
  dataset : D;
  batch_size : Z;
  shuffle : bool;
  drop_last : bool
}.
Global Arguments mkDataLoader {D}.
Global Arguments dataset {D}.
Global Arguments batch_size {D}.
Global Arguments shuffle {D}.
Global Arguments drop_last {D}.

(** The constructor [DataLoader(dataset, batch_size=..., shuffle=...)]
    for a dataset of [n] items.  A shuffling loader draws from a
    [RandomSampler], which rejects an empty dataset; the [BatchSampler]
    of every loader rejects a batch size that is not positive. *)
Definition DataLoader_init {D} (n : nat) (dataset : D) (batch_size : Z)
    (shuffle drop_last : bool) : result (DataLoader D) :=
  if decide (shuffle = true ∧ n = 0%nat) then
    inl (ValueError
           "num_samples should be a positive integer value, but got num_samples=0")
  else if decide (batch_size ≤ 0) then
    inl (ValueError
           ("batch_size should be a positive integer value, but got batch_size="
            +:+ pretty batch_size))
  else inr (mkDataLoader dataset batch_size shuffle drop_last).

(** [len(loader)]: the number of batches, for a dataset of [n] items. *)
Definition DataLoader_len {D} (n : nat) (loader : DataLoader D) : nat :=
  Z.to_nat (if drop_last loader
            then Z.of_nat n `div` batch_size loader
            else (Z.of_nat n + batch_size loader - 1) `div` batch_size loader).

(** [FederatedDatasetData], with the keyword arguments the loaders pass;
    an argument a loader leaves out, or passes as [None], is [None]. *)
Record FederatedDatasetData (K : Type) `{Countable K} (G L : Type) :=
  mkFederatedDatasetData {
    client_num : nat;
    train_data_num : option nat;
    test_data_num : option nat;
    train_data_global : option G;
    test_data_global : option G;
    data_local_num_dict : gmap K nat;
    data_local_train_num_dict : gmap K nat;
    data_local_test_num_dict : gmap K nat;
    train_data_local_dict : gmap K L;
    test_data_local_dict : gmap K L;
    class_num : option nat;
    name : option string;
    fd_batch_size : option Z
  }.
Global Arguments mkFederatedDatasetData {K _ _ G L}.
Global Arguments client_num {K _ _ G L}.
Global Arguments train_data_num {K _ _ G L}.
Global Arguments test_data_num {K _ _ G L}.
Global Arguments train_data_global {K _ _ G L}.
Global Arguments test_data_global {K _ _ G L}.
Global Arguments data_local_num_dict {K _ _ G L}.
Global Arguments data_local_train_num_dict {K _ _ G L}.
Global Arguments data_local_test_num_dict {K _ _ G L}.
Global Arguments train_data_local_dict {K _ _ G L}.
Global Arguments test_data_local_dict {K _ _ G L}.
Global Arguments class_num {K _ _ G L}.
Global Arguments name {K _ _ G L}.
Global Arguments fd_batch_size {K _ _ G L}.

End structs.

(** ** [mlmi/reptile/omniglot.py] *)

Module omniglot.
Import structs.

(** A single character class.  The [_cache] dictionary of the class
    memoises [_read_image], which reads a file that the pipeline never
    writes; it is left out. *)
Record Character := mkCharacter {
  dir_path : string;
  rotation : Z
}.

Definition rotations : list Z := [0; 90; 180; 270].

(** [augment_dataset]: the generator, with its two loops. *)
Fixpoint augment_dataset (dataset : list Character) : list Character :=
  match dataset with
  | [] => []
  | character :: dataset =>
      map (λ rotation, mkCharacter (dir_path character) rotation) rotations
      ++ augment_dataset dataset
  end.

Section split.
Context {I L : Type} `{EqDecision L} `{!SetOrder L}.

(** The body of the two inner loops of [_split_train_test]: the first
    item of [train_set] that carries [label] is deleted from it and
    appended to [test_set]; without such an item nothing happens. *)
Definition move_first (st : list (I * L) * list (I * L)) (label : L)
  : list (I * L) * list (I * L) :=
  let '(train_set, test_set) := st in
  match list_find (λ item, item.2 = label) train_set with
  | Some (i, item) => (delete i train_set, test_set ++ [item])
  | None => (train_set, test_set)
  end.

(** [for label in labels: ...] *)
Definition one_shot (labels : list L) (st : list (I * L) * list (I * L))
  : list (I * L) * list (I * L) :=
  foldl move_first st labels.

Definition _split_train_test (samples : list (I * L)) (test_shots : Z)
  : result (list (I * L) * list (I * L)) :=
  let train_set := samples in
  let test_set := [] in
  let labels := set_iter train_set.*2 in
  let '(train_set, test_set) :=
    Nat.iter (Z.to_nat test_shots) (one_shot labels) (train_set, test_set) in
  if decide (Z.of_nat (length test_set) < Z.of_nat (length labels) * test_shots)
  then inl (IndexError "not enough examples of each class for test set")
  else inr (train_set, test_set).

(** Number of items of [xs] that carry [label]. *)
Definition count_label (label : L) (xs : list (I * L)) : nat :=
  length (filter (λ item, item.2 = label) xs).

(** One item more of [label] is needed. *)
Definition one_more (label : L) (need : L → nat) : L → nat :=
  λ l, if decide (l = label) then S (need l) else need l.

(** One item of [label] has been found, [n] are still needed. *)
Definition still (label : L) (n : nat) (need : L → nat) : L → nat :=
  λ l, if decide (l = label) then n else need l.

(** [xs] without the first [need label] items of every [label], in the
    order of [xs]; and those first items. *)
Fixpoint drop_first (need : L → nat) (xs : list (I * L)) : list (I * L) :=
  match xs with
  | [] => []
  | x :: xs =>
      match need x.2 with
      | O => x :: drop_first need xs
      | S n => drop_first (still x.2 n need) xs
      end
  end.

Fixpoint take_first (need : L → nat) (xs : list (I * L)) : list (I * L) :=
  match xs with
  | [] => []
  | x :: xs =>
      match need x.2 with
      | O => take_first need xs
      | S n => x :: take_first (still x.2 n need) xs
      end
  end.

End split.

Definition endswith (s suffix : string) : bool :=
  let n := String.length s in
  let m := String.length suffix in
  bool_decide (m ≤ n)%nat && String.eqb (String.substring (n - m) m s) suffix.

Section dataset.
Context {R : Type} `{!RandomGen R} `{!SetOrder nat}.
Context {image : Type}.
(** The file system and the imaging library: the names in a
    directory, [os.path.join], and the 28x28 array read from a path
    and rotated. *)
Variable listdir : string → list string.
Variable path_join : string → string → string.
Variable open_image : string → Z → image.

Definition _read_image (self : Character) (path : string) : image :=
  open_image path (rotation self).

(** [[f for f in os.listdir(self.dir_path) if f.endswith('.png')]] *)
Definition png_names (self : Character) : list string :=
  filter (λ f, endswith f ".png") (listdir (dir_path self)).

(** [Character.sample] *)
Definition sample (self : Character) (num_images : nat) (r : R)
  : list image * R :=
  let names := png_names self in
  let '(names, r) := random.shuffle names r in
  (map (λ name, _read_image self (path_join (dir_path self) name))
       (take num_images names), r).

(** The loops of [_sample_mini_dataset] over
    [enumerate(shuffled[:num_classes])], from index [class_idx] on. *)
Fixpoint sample_classes (class_idx : nat) (classes : list Character)
    (num_shots : nat) (r : R) : list (image * nat) * R :=
  match classes with
  | [] => ([], r)
  | class_obj :: classes =>
      let '(samples, r) := sample class_obj num_shots r in
      let '(rest, r) := sample_classes (S class_idx) classes num_shots r in
      (map (λ sample, (sample, class_idx)) samples ++ rest, r)
  end.

Definition _sample_mini_dataset (dataset : list Character)
    (num_classes num_shots : nat) (r : R) : list (image * nat) * R :=
  let '(shuffled, r) := random.shuffle dataset r in
  sample_classes 0 (take num_classes shuffled) num_shots r.

(** The dictionary [federated_dataset_args] while it is filled. *)
Record dataset_args := mkArgs {
  a_train_data_num : nat;
  a_test_data_num : nat;
  a_data_local_num_dict : gmap nat nat;
  a_data_local_train_num_dict : gmap nat nat;
  a_data_local_test_num_dict : gmap nat nat;
  a_train_data_local_dict : gmap nat (DataLoader (list (image * nat)));
  a_test_data_local_dict : gmap nat (DataLoader (list (image * nat)))
}.

Definition initial_args : dataset_args :=
  mkArgs 0 0 ∅ ∅ ∅ ∅ ∅.

(** One iteration of the loop [for i in range(num_clients)]. *)
Definition add_client (dataset : list Character)
    (num_classes_per_client num_shots_per_class : nat) (inner_batch_size : Z)
    (i : nat) (st : dataset_args * R) : result (dataset_args * R) :=
  let '(args, r) := st in
  let '(client_data, r) :=
    _sample_mini_dataset dataset num_classes_per_client
                         (num_shots_per_class + 1) r in
  match _split_train_test client_data 1 with
  | inl e => inl e
  | inr (train_data, test_data) =>
      let train_batch_size :=
        if decide (inner_batch_size = -1) then Z.of_nat (length train_data)
        else inner_batch_size in
      let test_batch_size :=
        if decide (inner_batch_size = -1) then Z.of_nat (length test_data)
        else inner_batch_size in
      match DataLoader_init (length train_data) train_data train_batch_size
                            true false with
      | inl e => inl e
      | inr train_loader =>
          match DataLoader_init (length test_data) test_data test_batch_size
                                true false with
          | inl e => inl e
          | inr test_loader =>
              inr ({| a_train_data_local_dict :=
                        <[i := train_loader]> (a_train_data_local_dict args);
                      a_data_local_train_num_dict :=
                        <[i := length train_data]>
                          (a_data_local_train_num_dict args);
                      a_train_data_num :=
                        (a_train_data_num args + length train_data)%nat;
                      a_test_data_local_dict :=
                        <[i := test_loader]> (a_test_data_local_dict args);
                      a_data_local_test_num_dict :=
                        <[i := length test_data]>
                          (a_data_local_test_num_dict args);
                      a_test_data_num :=
                        (a_test_data_num args + length test_data)%nat;
                      a_data_local_num_dict :=
                        <[i := (length train_data + length test_data)%nat]>
                          (a_data_local_num_dict args) |},
                   r)
          end
      end
  end.

Definition _make_omniglot_dataset (dataset : list Character)
    (num_clients num_classes_per_client num_shots_per_class : nat)
    (inner_batch_size : Z) (r : R)
  : result (FederatedDatasetData nat unit (DataLoader (list (image * nat))) * R) :=
  match for_each (add_client dataset num_classes_per_client
                             num_shots_per_class inner_batch_size)
                 (seq 0 num_clients) (initial_args, r) with
  | inl e => inl e
  | inr (args, r) =>
      inr ({| client_num := num_clients;
              train_data_num := Some (a_train_data_num args);
              test_data_num := Some (a_test_data_num args);
              train_data_global := None;
              test_data_global := None;
              data_local_num_dict := a_data_local_num_dict args;
              data_local_train_num_dict := a_data_local_train_num_dict args;
              data_local_test_num_dict := a_data_local_test_num_dict args;
              train_data_local_dict := a_train_data_local_dict args;
              test_data_local_dict := a_test_data_local_dict args;
              class_num := None;
              name := None;
              fd_batch_size := None |},
           r)
  end.

End dataset.

(** Client [i] is entered in [args] with the data [train_data] and
    [test_data]: its loaders shuffle, have the batch size the code picks,
    and the three counts are the lengths of the data. *)
Definition recorded {image : Type} (inner_batch_size : Z)
    (args : @dataset_args image) (i : nat)
    (train_data test_data : list (image * nat)) : Prop :=
  a_train_data_local_dict args !! i
  = Some (mkDataLoader train_data
            (if decide (inner_batch_size = -1) then Z.of_nat (length train_data)
             else inner_batch_size) true false)
  ∧ a_test_data_local_dict args !! i
    = Some (mkDataLoader test_data
              (if decide (inner_batch_size = -1) then Z.of_nat (length test_data)
               else inner_batch_size) true false)
  ∧ a_data_local_train_num_dict args !! i = Some (length train_data)
  ∧ a_data_local_test_num_dict args !! i = Some (length test_data)
  ∧ a_data_local_num_dict args !! i
    = Some (length train_data + length test_data)%nat.

(** [args'] says about client [j] what [args] says. *)
Definition untouched {image : Type} (args args' : @dataset_args image) (j : nat)
  : Prop :=
  a_train_data_local_dict args' !! j = a_train_data_local_dict args !! j
  ∧ a_test_data_local_dict args' !! j = a_test_data_local_dict args !! j
  ∧ a_data_local_train_num_dict args' !! j = a_data_local_train_num_dict args !! j
  ∧ a_data_local_test_num_dict args' !! j = a_data_local_test_num_dict args !! j
  ∧ a_data_local_num_dict args' !! j = a_data_local_num_dict args !! j.

Definition startswith (s prefix : string) : bool := String.prefix prefix s.

(** [sorted(names)] on strings. *)
Definition sorted (names : list string) : list string :=
  merge_sort (λ a b, String.leb a b) names.

Section loading.
Context {R : Type} `{!RandomGen R} `{!SetOrder nat}.
Context {image : Type}.
Variable listdir : string → list string.
Variable isdir : string → bool.
Variable path_join : string → string → string.
Variable open_image : string → Z → image.

(** The inner loop of [read_dataset], over the sorted names of an
    alphabet directory. *)
Fixpoint read_characters (alphabet_dir : string) (char_names : list string)
  : list Character :=
  match char_names with
  | [] => []
  | char_name :: char_names =>
      if negb (startswith char_name "character")
      then read_characters alphabet_dir char_names
      else mkCharacter (path_join alphabet_dir char_name) 0
           :: read_characters alphabet_dir char_names
  end.

(** The outer loop, over the sorted names of the data directory. *)
Fixpoint read_alphabets (data_dir : string) (alphabet_names : list string)
  : list Character :=
  match alphabet_names with
  | [] => []
  | alphabet_name :: alphabet_names =>
      let alphabet_dir := path_join data_dir alphabet_name in
      if negb (isdir alphabet_dir)
      then read_alphabets data_dir alphabet_names
      else read_characters alphabet_dir (sorted (listdir alphabet_dir))
           ++ read_alphabets data_dir alphabet_names
  end.

Definition read_dataset (data_dir : string) : list Character :=
  read_alphabets data_dir (sorted (listdir data_dir)).

Definition split_dataset {A} (dataset : list A) (num_train : nat) (r : R)
  : list A * list A * R :=
  let all_data := dataset in
  let '(all_data, r) := random.shuffle all_data r in
  (take num_train all_data, drop num_train all_data, r).

Definition load_omniglot_datasets (data_dir : string)
    (num_clients_train num_clients_test num_classes_per_client
       num_shots_per_class : nat) (inner_batch_size : Z) (r : R)
  : result (FederatedDatasetData nat unit (DataLoader (list (image * nat)))
            * FederatedDatasetData nat unit (DataLoader (list (image * nat)))
            * R) :=
  let '(omniglot_train, omniglot_test, r) :=
    split_dataset (read_dataset data_dir) 1200 r in
  let omniglot_train := augment_dataset omniglot_train in
  match _make_omniglot_dataset listdir path_join open_image omniglot_train
          num_clients_train num_classes_per_client num_shots_per_class
          inner_batch_size r with
  | inl e => inl e
  | inr (train_clients, r) =>
      match _make_omniglot_dataset listdir path_join open_image omniglot_test
              num_clients_test num_classes_per_client num_shots_per_class
              inner_batch_size r with
      | inl e => inl e
      | inr (test_clients, r) => inr (train_clients, test_clients, r)
      end
  end.

End loading.

(** A task with three items of label [0] and two of label [1]. *)
Definition task : list (string * nat) :=
  [("a", 0); ("b", 1); ("c", 0); ("d", 1); ("e", 0)]%nat.

Definition two_characters : list Character :=
  [mkCharacter "Latin/character01" 0; mkCharacter "Greek/character07" 0].

(** An alphabet directory to run the pipeline on: every character
    directory holds two images and a text file. *)
Definition two_pngs (dir_path : string) : list string :=
  ["0101_01.png"; "notes.txt"; "0101_02.png"].

Definition one_character : list Character :=
  [mkCharacter "Latin/character01" 0].

Definition five_characters : list Character :=
  [mkCharacter "Latin/character01" 0; mkCharacter "Latin/character02" 0;
   mkCharacter "Greek/character01" 0; mkCharacter "Greek/character02" 0;
   mkCharacter "Greek/character03" 0].

Definition make_clients (dataset : list Character)
    (num_clients num_classes_per_client num_shots_per_class : nat) :=
  _make_omniglot_dataset (R := nat) (RandomGen0 := reversing_gen)
    (SetOrder0 := remove_dups_order)
    two_pngs (λ dir name, dir +:+ "/" +:+ name) (λ path rotation, (path, rotation))
    dataset num_clients num_classes_per_client num_shots_per_class 5 0%nat.

(** A small data directory: two alphabets and a file, the character
    directories as in [two_pngs]. *)
Definition small_tree (path : string) : list string :=
  if decide (path = "omniglot") then ["Latin"; "README"; "Greek"]
  else if decide (path = "omniglot/Latin")
       then ["character02"; "strokes"; "character01"]
  else if decide (path = "omniglot/Greek") then ["character01"]
  else two_pngs path.

Definition small_tree_isdir (path : string) : bool :=
  bool_decide (path ≠ "omniglot/README").

Definition load_small_tree (num_clients_train num_clients_test : nat) :=
  load_omniglot_datasets (R := nat) (RandomGen0 := reversing_gen)
    (SetOrder0 := remove_dups_order)
    small_tree small_tree_isdir (λ dir name, dir +:+ "/" +:+ name)
    (λ path rotation, (path, rotation))
    "omniglot" num_clients_train num_clients_test 5 1 5 0%nat.

End omniglot.

(** ** [mlmi/fedavg/femnist.py] *)

Module femnist.
Import structs.

Record DatasetSplit (D : Type) := mkDatasetSplit {
  split_dataset : D;
  idxs : list nat
}.
Global Arguments mkDatasetSplit {D}.
Global Arguments split_dataset {D}.
Global Arguments idxs {D}.

(** [torchvision.datasets.MNIST]: the directory, the split and the
    labels of the split. *)
Record MNIST := mkMNIST {
  mnist_root : string;
  mnist_train : bool;
  targets : list Z
}.

Definition num_shards : nat := 200.
Definition num_imgs : nat := 300.

Section mnist.
Context {R : Type} `{!RandomGen R} `{!SetOrder nat} `{!ArgSort}.
(** The labels stored in the MNIST files of a directory. *)
Variable mnist_targets : string → bool → list Z.

Definition datasets_MNIST (data_dir : string) (train : bool) : MNIST :=
  mkMNIST data_dir train (mnist_targets data_dir train).

(** [idxs[rand * num_imgs:(rand + 1) * num_imgs]] *)
Definition shard (idxs : list nat) (rand : nat) : list nat :=
  slice (rand * num_imgs) ((rand + 1) * num_imgs) idxs.

(** The label-sorted index array: [np.vstack] needs as many labels
    as there are indices. *)
Definition sorted_idxs (labels : list Z) : result (list nat) :=
  let idxs := seq 0 (num_shards * num_imgs) in
  if decide (length labels ≠ length idxs)
  then inl (ValueError "all the input array dimensions must match exactly")
  else inr ((λ j, idxs !!! j) <$> argsort labels).

(** One iteration of the loop [# divide and assign]. *)
Definition assign (idxs : list nat) (i : nat)
    (st : list nat * gmap nat (list nat) * R)
  : result (list nat * gmap nat (list nat) * R) :=
  let '(idx_shard, partitions, r) := st in
  match numpy.choice idx_shard 2 r with
  | (inl e, _) => inl e
  | (inr chosen, r) =>
      let rand_set := set_iter chosen in
      let idx_shard := set_iter (filter (λ s, s ∉ rand_set) idx_shard) in
      let partitions :=
        foldl (λ partitions rand,
                 <[i := default [] (partitions !! i) ++ shard idxs rand]>
                   partitions)
              partitions rand_set in
      inr (idx_shard, partitions, r)
  end.

(** Lines 38 to 55: the training partition of every client. *)
Definition mnist_partitions (labels : list Z) (num_clients : nat) (r : R)
  : result (gmap nat (list nat) * R) :=
  let idx_shard := seq 0 num_shards in
  let partitions : gmap nat (list nat) :=
    list_to_map ((λ i, (i, [])) <$> seq 0 num_clients) in
  match sorted_idxs labels with
  | inl e => inl e
  | inr idxs =>
      match for_each (assign idxs) (seq 0 num_clients)
                     (idx_shard, partitions, r) with
      | inl e => inl e
      | inr (_, partitions, r) => inr (partitions, r)
      end
  end.

(** [np.split(np.arange(n), sections)] *)
Definition split_arange (n sections : nat) : result (list (list nat)) :=
  if decide (n `mod` sections ≠ 0)%nat
  then inl (ValueError "array split does not result in an equal division")
  else inr ((λ k, seq (k * (n `div` sections)) (n `div` sections))
              <$> seq 0 sections).

(** The dictionaries filled by the loop over [enumerate(partitions)]. *)
Record local_dicts := mkLocal {
  l_data_local_num_dict : gmap nat nat;
  l_data_local_test_num_dict : gmap nat nat;
  l_data_local_train_num_dict : gmap nat nat;
  l_train_data_local_dict : gmap nat (DataLoader (DatasetSplit MNIST));
  l_test_data_local_dict : gmap nat (DataLoader (DatasetSplit MNIST))
}.

Definition add_loaders (dataset_train dataset_test : MNIST)
    (partitions : gmap nat (list nat)) (test_idxs : list (list nat))
    (batch_size : Z) (i : nat) (d : local_dicts) : result local_dicts :=
  match partitions !! i with
  | None => inl (KeyError (pretty i))
  | Some partition =>
      match DataLoader_init (length partition)
                            (mkDatasetSplit dataset_train partition)
                            batch_size true false with
      | inl e => inl e
      | inr train_loader =>
          match test_idxs !! i with
          | None => inl (IndexError "list index out of range")
          | Some test_idx =>
              match DataLoader_init (length test_idx)
                                    (mkDatasetSplit dataset_test test_idx)
                                    batch_size true false with
              | inl e => inl e
              | inr test_loader =>
                  let test_num := DataLoader_len (length test_idx) test_loader in
                  let train_num :=
                    DataLoader_len (length partition) train_loader in
                  inr {| l_train_data_local_dict :=
                           <[i := train_loader]> (l_train_data_local_dict d);
                         l_test_data_local_dict :=
                           <[i := test_loader]> (l_test_data_local_dict d);
                         l_data_local_test_num_dict :=
                           <[i := test_num]> (l_data_local_test_num_dict d);
                         l_data_local_train_num_dict :=
                           <[i := train_num]> (l_data_local_train_num_dict d);
                         l_data_local_num_dict :=
                           <[i := (test_num + train_num)%nat]>
                             (l_data_local_num_dict d) |}
              end
          end
      end
  end.

Definition load_mnist_dataset (data_dir : string) (num_clients : nat)
    (batch_size : Z) (r : R)
  : result (FederatedDatasetData nat (DataLoader MNIST)
                                 (DataLoader (DatasetSplit MNIST)) * R) :=
  let dataset_train := datasets_MNIST data_dir true in
  let dataset_test := datasets_MNIST data_dir false in
  match mnist_partitions (targets dataset_train) num_clients r with
  | inl e => inl e
  | inr (partitions, r) =>
      match split_arange (length (targets dataset_test)) num_shards with
      | inl e => inl e
      | inr test_idxs =>
          match for_each (add_loaders dataset_train dataset_test partitions
                                      test_idxs batch_size)
                         (seq 0 (size partitions))
                         (mkLocal ∅ ∅ ∅ ∅ ∅) with
          | inl e => inl e
          | inr d =>
              match DataLoader_init (length (targets dataset_test)) dataset_test
                                    batch_size true false with
              | inl e => inl e
              | inr train_data_global =>
                  match DataLoader_init (length (targets dataset_train))
                                        dataset_train batch_size true false with
                  | inl e => inl e
                  | inr test_data_global =>
                      inr ({| client_num := num_clients;
                              train_data_num := None;
                              test_data_num := None;
                              train_data_global := Some train_data_global;
                              test_data_global := Some test_data_global;
                              data_local_num_dict := l_data_local_num_dict d;
                              data_local_test_num_dict :=
                                l_data_local_test_num_dict d;
                              data_local_train_num_dict :=
                                l_data_local_train_num_dict d;
                              class_num := Some 10%nat;
                              train_data_local_dict := l_train_data_local_dict d;
                              test_data_local_dict := l_test_data_local_dict d;
                              name := Some "mnist";
                              fd_batch_size := Some batch_size |},
                           r)
                  end
              end
          end
      end
  end.

End mnist.

(** A training partition made of two different shards of the pool, each
    a run of [num_imgs] entries of the index array [idxs] along which
    the labels ascend. *)
Definition two_shards (labels : list Z) (idxs partition : list nat) : Prop :=
  ∃ a b,
    a ≠ b ∧ (a < num_shards)%nat ∧ (b < num_shards)%nat
    ∧ partition = shard idxs a ++ shard idxs b
    ∧ length (shard idxs a) = num_imgs
    ∧ length (shard idxs b) = num_imgs
    ∧ StronglySorted Z.le ((λ j, labels !!! j) <$> shard idxs a)
    ∧ StronglySorted Z.le ((λ j, labels !!! j) <$> shard idxs b).

(** The shards handed out so far, client by client. *)
Definition shards_of (used : list (nat * nat)) : list nat :=
  used ≫= λ pair, [pair.1; pair.2].

(** The state of the loop [# divide and assign] before client [i] of
    [num_clients]: [used] lists the two shards of every earlier client. *)
Definition assigned (idxs : list nat) (num_clients i : nat)
    (used : list (nat * nat)) (idx_shard : list nat)
    (partitions : gmap nat (list nat)) : Prop :=
  length used = i
  ∧ NoDup idx_shard
  ∧ shards_of used ++ idx_shard ≡ₚ seq 0 num_shards
  ∧ dom partitions = list_to_set (seq 0 num_clients)
  ∧ (∀ j a b, used !! j = Some (a, b) →
       partitions !! j = Some (shard idxs a ++ shard idxs b))
  ∧ (∀ j, (i ≤ j < num_clients)%nat → partitions !! j = Some []).

(** The loader [load_mnist_dataset] builds for a training partition. *)
Definition train_loader (dataset_train : MNIST) (batch_size : Z)
    (partition : list nat) : DataLoader (DatasetSplit MNIST) :=
  mkDataLoader (mkDatasetSplit dataset_train partition) batch_size true false.

(** [DatasetSplit.__len__] and [DatasetSplit.__getitem__] for an item of
    [range(len(self))]; [getitem] is the [__getitem__] of the wrapped
    dataset. *)
Definition DatasetSplit_len {D} (self : DatasetSplit D) : nat :=
  length (idxs self).

Definition DatasetSplit_getitem {D X} (getitem : D → nat → result X)
    (self : DatasetSplit D) (item : nat) : result X :=
  match idxs self !! item with
  | None => inl (IndexError "list index out of range")
  | Some idx =>
      match getitem (split_dataset self) idx with
      | inl e => inl e
      | inr (image_label) => inr image_label
      end
  end.

(** [MNIST.__getitem__]: the image and the label stored at [index]. *)
Definition MNIST_getitem {X} (data : MNIST → nat → X) (self : MNIST)
    (index : nat) : result (X * Z) :=
  match targets self !! index with
  | None => inl (IndexError "index out of bounds")
  | Some target => inr (data self index, target)
  end.

(** The EMNIST client data of [tensorflow_federated]: the client ids
    and, for every client, the [label] and [pixels] arrays of its HDF5
    group. *)
Record HDF5ClientData (P : Type) := mkHDF5ClientData {
  client_ids : list string;
  h5_label : string → list Z;
  h5_pixels : string → P
}.
Global Arguments client_ids {P}.
Global Arguments h5_label {P}.
Global Arguments h5_pixels {P}.

Record FEMNISTDataset (T : Type) := mkFEMNISTDataset {
  labels : list Z;
  pixels : T
}.
Global Arguments mkFEMNISTDataset {T}.
Global Arguments labels {T}.

Section femnist.
Context {R : Type} `{!RandomGen R} {P T : Type}.
(** [tff.simulation.datasets.emnist.load_data] and
    [torch.unsqueeze(torch.from_numpy(pixels), 1)]. *)
Variable load_data : bool → string → HDF5ClientData P * HDF5ClientData P.
Variable unsqueeze : P → T.

(** The loop that collects [clients_exceeding_threshold]. *)
Definition clients_exceeding_threshold (emnist_train : HDF5ClientData P)
    (sample_threshold : Z) : list string :=
  filter (λ client_id,
            sample_threshold < Z.of_nat (length (h5_label emnist_train client_id)))
         (client_ids emnist_train).

(** Lines 113 to 129: the ids of the clients that are loaded. *)
Definition select_clients (emnist_train : HDF5ClientData P)
    (num_clients : nat) (sample_threshold : Z) (r : R)
  : result (list string * R) :=
  match numpy.choice (client_ids emnist_train) num_clients r with
  | (inl e, _) => inl e
  | (inr selected_client_ids, r) =>
      if decide (sample_threshold ≠ -1) then
        let exceeding := clients_exceeding_threshold emnist_train sample_threshold in
        if decide (length exceeding < num_clients)%nat then
          inl (ValueError
                 ("Only " +:+ pretty (length exceeding)
                  +:+ " clients with more than " +:+ pretty sample_threshold
                  +:+ " samples available. But asked for "
                  +:+ pretty num_clients +:+ "."))
        else
          match numpy.choice exceeding num_clients r with
          | (inl e, _) => inl e
          | (inr selected_client_ids, r) => inr (selected_client_ids, r)
          end
      else inr (selected_client_ids, r)
  end.

Record femnist_dicts := mkFemnistDicts {
  f_train_data_local_dict : gmap string (DataLoader (FEMNISTDataset T));
  f_data_local_num_dict : gmap string nat;
  f_data_local_train_num_dict : gmap string nat;
  f_test_data_local_dict : gmap string (DataLoader (FEMNISTDataset T));
  f_data_local_test_num_dict : gmap string nat
}.

(** The body of the loop [for client_id in selected_client_ids]. *)
Definition add_femnist_client (emnist_train emnist_test : HDF5ClientData P)
    (batch_size : Z) (client_id : string) (d : femnist_dicts)
  : result femnist_dicts :=
  let femnist_train :=
    mkFEMNISTDataset (h5_label emnist_train client_id)
                     (unsqueeze (h5_pixels emnist_train client_id)) in
  let femnist_test :=
    mkFEMNISTDataset (h5_label emnist_test client_id)
                     (unsqueeze (h5_pixels emnist_test client_id)) in
  match DataLoader_init (length (labels femnist_train)) femnist_train batch_size
                        false false with
  | inl e => inl e
  | inr dl_train =>
      match DataLoader_init (length (labels femnist_test)) femnist_test batch_size
                            false false with
      | inl e => inl e
      | inr dl_test =>
          inr {| f_train_data_local_dict :=
                   <[client_id := dl_train]> (f_train_data_local_dict d);
                 f_data_local_train_num_dict :=
                   <[client_id := length (labels femnist_train)]>
                     (f_data_local_train_num_dict d);
                 f_test_data_local_dict :=
                   <[client_id := dl_test]> (f_test_data_local_dict d);
                 f_data_local_test_num_dict :=
                   <[client_id := length (labels femnist_test)]>
                     (f_data_local_test_num_dict d);
                 f_data_local_num_dict :=
                   <[client_id := length (labels femnist_train)]>
                     (f_data_local_num_dict d) |}
      end
  end.

(** [sum([num for num in d.values()])] *)
Definition sum_values (d : gmap string nat) : nat :=
  sum_list (snd <$> map_to_list d).

Definition load_femnist_dataset (data_dir : string) (num_clients : nat)
    (batch_size : Z) (only_digits : bool) (sample_threshold : Z)
    (random_seed : Z)
  : result (FederatedDatasetData string (gmap string unit)
                                 (DataLoader (FEMNISTDataset T))) :=
  let RANDOM : R := rand_seed random_seed in
  let '(emnist_train, emnist_test) := load_data only_digits data_dir in
  match select_clients emnist_train num_clients sample_threshold RANDOM with
  | inl e => inl e
  | inr (selected_client_ids, _) =>
      match for_each (add_femnist_client emnist_train emnist_test batch_size)
                     selected_client_ids (mkFemnistDicts ∅ ∅ ∅ ∅ ∅) with
      | inl e => inl e
      | inr d =>
          let train_data_num := sum_values (f_data_local_train_num_dict d) in
          let test_data_num := sum_values (f_data_local_test_num_dict d) in
          inr {| client_num := num_clients;
                 train_data_num := Some train_data_num;
                 test_data_num := Some test_data_num;
                 train_data_global := Some ∅;
                 test_data_global := Some ∅;
                 data_local_num_dict := f_data_local_num_dict d;
                 data_local_test_num_dict := f_data_local_test_num_dict d;
                 data_local_train_num_dict := f_data_local_train_num_dict d;
                 class_num := Some (if only_digits then 10 else 62)%nat;
                 train_data_local_dict := f_train_data_local_dict d;
                 test_data_local_dict := f_test_data_local_dict d;
                 name := Some ("femnist" +:+ pretty num_clients);
                 fd_batch_size := Some batch_size |}
      end
  end.

End femnist.

(** Label files of the size of MNIST, 60000 training and 10000 test
    labels, in which the digits 0 to 9 take turns. *)
Definition cyclic_targets (data_dir : string) (train : bool) : list Z :=
  (λ j, Z.of_nat (j `mod` 10)) <$>
    seq 0 (if train then num_shards * num_imgs else 50 * num_shards).

(** Three EMNIST writers with 300, 100 and 260 training samples, to run
    the loader on. *)
Definition three_writers : HDF5ClientData unit * HDF5ClientData unit :=
  (mkHDF5ClientData unit ["f0000_14"; "f0001_41"; "f0002_07"]
     (λ client_id,
        if decide (client_id = "f0000_14") then replicate 300 7
        else if decide (client_id = "f0001_41") then replicate 100 3
        else replicate 260 1)
     (λ _, ()),
   mkHDF5ClientData unit ["f0000_14"; "f0001_41"; "f0002_07"]
     (λ _, replicate 30 0) (λ _, ())).

Definition load_writers (num_clients : nat) (sample_threshold : Z) :=
  load_femnist_dataset (R := nat) (RandomGen0 := reversing_gen)
    (λ _ _, three_writers) (λ pixels : unit, pixels)
    "data" num_clients 10 false sample_threshold 0.

(** The same with a batch size of choice. *)
Definition load_writers_in_batches (batch_size : Z) (num_clients : nat)
    (sample_threshold : Z) :=
  load_femnist_dataset (R := nat) (RandomGen0 := reversing_gen)
    (λ _ _, three_writers) (λ pixels : unit, pixels)
    "data" num_clients batch_size false sample_threshold 0.

End femnist.

(** ** The experiment drivers

    The drivers call into the training framework.  Each such call is
    recorded as an [event] of a trace, with its arguments; what a call
    returns is given by the [Framework] the driver runs in.  Calls other
    than the dataset loaders are taken to return normally. *)

Module experiments.

(** The values the framework hands around; the drivers only pass them
    on.  [float] is the type of client fractions, learning rates and
    clustering thresholds. *)
Class FrameworkTypes := {
  float : Type;
  Dataset : Type;
  Loader : Type;
  Logger : Type;
  Server : Type;
  Clients : Type;
  ModelState : Type;
  Image : Type;
  TrainArgs : Type;
  ModelArgs : Type;
  OptimizerArgs : Type;
  ClientInit : Type;
  Partitioner : Type;
  Normalisation : Type
}.

Section framework.
Context `{FrameworkTypes}.

Record FedAvgExperimentContext := mkContext {
  ctx_name : string;
  ctx_client_fraction : float;
  ctx_local_epochs : Z;
  ctx_lr : float;
  ctx_batch_size : Z;
  ctx_optimizer_args : OptimizerArgs;
  ctx_model_args : ModelArgs;
  ctx_train_args : TrainArgs;
  ctx_dataset_name : string;
  experiment_logger : option Logger
}.

Record ClusterArgs := mkClusterArgs {
  partitioner_class : Partitioner;
  linkage_mech : string;
  criterion : string;
  dis_metric : string;
  max_value_criterion : float;
  plot_dendrogram : bool;
  num_rounds_init : Z;
  num_rounds_cluster : Z
}.

(** The functions built with [functools.partial], with the arguments
    they are bound to. *)
Inductive callback :=
  | log_after_round_evaluation_fn (experiment_logger : Logger) (tag : option string)
  | log_cluster_distribution_fn (experiment_logger : Logger) (num_classes : Z)
  | run_fedavg_train_round_fn (round_model_state : ModelState) (training_args : TrainArgs)
  | FedAvgServer_fn (model_args : ModelArgs) (context : FedAvgExperimentContext)
  | run_fedavg_round_fn (training_args : TrainArgs) (client_fraction : float).

Inductive event :=
  | fix_random_seeds (seed : Z)
  | new_FedAvgExperimentContext (context : FedAvgExperimentContext)
  | create_tensorboard_logger (name specification : string)
  | add_image (experiment_logger : Logger) (tag : string) (image : Image)
  | run_fedavg (context : FedAvgExperimentContext) (num_rounds : Z)
      (dataset : Dataset) (save_states restore_state : bool)
      (after_round_evaluation : list callback)
      (initialize_clients_fn : option ClientInit)
  | load_fedavg_state (context : FedAvgExperimentContext) (round : Z)
  | overwrite_participants_models (model_state : ModelState) (clients : Clients)
  | run_fedavg_hierarchical (server : Server) (clients : Clients)
      (cluster_args : ClusterArgs)
      (initial_train_fn federated_round_fn create_aggregator_fn : callback)
      (after_post_clustering_evaluation after_clustering_round_evaluation
         after_federated_round_evaluation after_clustering_fn : list callback).

(** What the calls return. *)
Class Framework := {
  data_dir : string;
  load_femnist_dataset : string → nat → Z → Z → result Dataset;
  load_mnist_dataset : string → nat → Z → result Dataset;
  load_ham10k_federated : nat → Z → Normalisation → Normalisation → result Dataset;
  scratch_labels : Dataset → Z → Dataset;
  train_data_local_values : Dataset → list Loader;
  dataset_class_num : Dataset → Z;
  generate_data_label_heatmap : string → list Loader → Z → Image;
  context_str : FedAvgExperimentContext → string;
  cluster_args_str : ClusterArgs → string;
  tensorboard_logger : string → string → Logger;
  fedavg_result : FedAvgExperimentContext → Z → Dataset → Server * Clients;
  fedavg_state : FedAvgExperimentContext → Z → ModelState;
  OptimizerArgs_SGD : float → OptimizerArgs;
  ModelArgs_CNNLightning : OptimizerArgs → ModelArgs;
  DEFAULT_CLIENT_INIT_FN : ClientInit;
  initialize_ham10k_clients : ClientInit
}.

Definition is_dataset_distribution (e : event) : bool :=
  match e with
  | add_image _ tag _ => bool_decide (tag = "label distribution")
  | _ => false
  end.

Definition creates_context_or_logger (e : event) : bool :=
  match e with
  | new_FedAvgExperimentContext _ | create_tensorboard_logger _ _ => true
  | _ => false
  end.

Definition no_dataset_distribution (trace : list event) : Prop :=
  Forall (λ e, is_dataset_distribution e = false) trace.

Definition no_context_or_logger (trace : list event) : Prop :=
  Forall (λ e, creates_context_or_logger e = false) trace.

(** Two contexts that differ at most in their [experiment_logger]. *)
Definition same_experiment (c1 c2 : FedAvgExperimentContext) : Prop :=
  ctx_name c1 = ctx_name c2
  ∧ ctx_client_fraction c1 = ctx_client_fraction c2
  ∧ ctx_local_epochs c1 = ctx_local_epochs c2
  ∧ ctx_lr c1 = ctx_lr c2
  ∧ ctx_batch_size c1 = ctx_batch_size c2
  ∧ ctx_optimizer_args c1 = ctx_optimizer_args c2
  ∧ ctx_model_args c1 = ctx_model_args c2
  ∧ ctx_train_args c1 = ctx_train_args c2
  ∧ ctx_dataset_name c1 = ctx_dataset_name c2.

Definition count_dataset_distribution (trace : list event) : nat :=
  length (filter (λ e, is_dataset_distribution e = true) trace).

(** The trace of a run that logs the label distribution of
    [fed_dataset] once, in its first iteration: after the seeds are
    fixed, the context [fedavg_context] and its logger are created and
    the image is logged with that logger; nothing that follows logs it
    again. *)
Definition logged_once_in_first_iteration `{!Framework} (seed : Z)
    (fedavg_context : FedAvgExperimentContext) (fed_dataset : Dataset)
    (trace : list event) : Prop :=
  count_dataset_distribution trace = 1%nat
  ∧ ∃ rest,
      trace
      = [fix_random_seeds seed;
         new_FedAvgExperimentContext fedavg_context;
         create_tensorboard_logger (ctx_name fedavg_context)
           (context_str fedavg_context);
         add_image
           (tensorboard_logger (ctx_name fedavg_context) (context_str fedavg_context))
           "label distribution"
           (generate_data_label_heatmap "full dataset"
              (train_data_local_values fed_dataset) (dataset_class_num fed_dataset))]
        ++ rest
      ∧ no_dataset_distribution rest.

(** The message of [raise ValueError(f'dataset "{dataset}" unknown')]. *)
Definition unknown_dataset (dataset : string) : exception :=
  ValueError ("dataset " +:+ String (Ascii.ascii_of_nat 34) dataset
              +:+ String (Ascii.ascii_of_nat 34) " unknown").

(** The calls that train, and the one that creates a logger. *)
Definition is_run_fedavg (e : event) : bool :=
  match e with
  | run_fedavg _ _ _ _ _ _ _ => true
  | _ => false
  end.

Definition is_run_fedavg_hierarchical (e : event) : bool :=
  match e with
  | run_fedavg_hierarchical _ _ _ _ _ _ _ _ _ _ => true
  | _ => false
  end.

Definition is_create_tensorboard_logger (e : event) : bool :=
  match e with
  | create_tensorboard_logger _ _ => true
  | _ => false
  end.

Definition count_events (kind : event → bool) (trace : list event) : nat :=
  length (filter (λ e, kind e = true) trace).

End framework.

(** *** [mlmi/experiments/fedavg.py] *)

Module fedavg.
Section driver.
Context `{FrameworkTypes} `{!Framework}.

Definition log_dataset_distribution (experiment_logger : Logger)
    (tag : string) (dataset : Dataset) : list event :=
  let dataloaders := train_data_local_values dataset in
  let image := generate_data_label_heatmap tag dataloaders (dataset_class_num dataset) in
  [add_image experiment_logger "label distribution" image].

(** The [if]/[elif] chain that loads the dataset. *)
Definition load_dataset (dataset : string) (num_clients : nat) (batch_size : Z)
    (mean std : Normalisation) : result (Dataset * ClientInit) :=
  let initialize_clients_fn := DEFAULT_CLIENT_INIT_FN in
  if decide (dataset = "femnist") then
    match load_femnist_dataset data_dir num_clients batch_size (-1) with
    | inl e => inl e
    | inr fed_dataset => inr (fed_dataset, initialize_clients_fn)
    end
  else if decide (dataset = "mnist") then
    match load_mnist_dataset data_dir num_clients batch_size with
    | inl e => inl e
    | inr fed_dataset => inr (fed_dataset, initialize_clients_fn)
    end
  else if decide (dataset = "ham10k") then
    match load_ham10k_federated num_clients batch_size mean std with
    | inl e => inl e
    | inr fed_dataset => inr (fed_dataset, initialize_ham10k_clients)
    end
  else inl (unknown_dataset dataset).

Section loop.
Variables (lr : float) (name : string) (total_fedavg_rounds local_epochs : Z)
          (batch_size : Z) (optimizer_args : OptimizerArgs)
          (train_args : TrainArgs) (model_args : ModelArgs) (dataset : string)
          (fed_dataset : Dataset) (initialize_clients_fn : ClientInit).

(** The loop [for cf in client_fraction], entered with the given
    value of [data_distribution_logged]. *)
Fixpoint client_fraction_loop (client_fraction : list float)
    (data_distribution_logged : bool) : list event :=
  match client_fraction with
  | [] => []
  | cf :: client_fraction =>
      let fedavg_context :=
        mkContext name cf local_epochs lr batch_size optimizer_args
                  model_args train_args dataset None in
      let experiment_specification := context_str fedavg_context in
      let experiment_logger :=
        tensorboard_logger (ctx_name fedavg_context) experiment_specification in
      let log_after_round_evaluation_fns :=
        [log_after_round_evaluation_fn experiment_logger (Some "fedavg")] in
      [new_FedAvgExperimentContext fedavg_context;
       create_tensorboard_logger (ctx_name fedavg_context) experiment_specification]
      ++ (if data_distribution_logged then []
          else log_dataset_distribution experiment_logger "full dataset" fed_dataset)
      ++ [run_fedavg fedavg_context total_fedavg_rounds fed_dataset true true
                     log_after_round_evaluation_fns (Some initialize_clients_fn)]
      ++ client_fraction_loop client_fraction true
  end.
(** The call of [run_fedavg] in the iteration for the client fraction
    [cf]. *)
Definition fedavg_call (cf : float) : event :=
  let fedavg_context :=
    mkContext name cf local_epochs lr batch_size optimizer_args
              model_args train_args dataset None in
  run_fedavg fedavg_context total_fedavg_rounds fed_dataset true true
    [log_after_round_evaluation_fn
       (tensorboard_logger name (context_str fedavg_context)) (Some "fedavg")]
    (Some initialize_clients_fn).
End loop.

Definition run_fedavg_experiment (seed : Z) (lr : float) (name : string)
    (total_fedavg_rounds : Z) (client_fraction : list float)
    (local_epochs batch_size : Z) (num_clients : nat)
    (optimizer_args : OptimizerArgs) (train_args : TrainArgs)
    (model_args : ModelArgs) (dataset : string) (mean std : Normalisation)
  : list event * result unit :=
  match load_dataset dataset num_clients batch_size mean std with
  | inl e => ([fix_random_seeds seed], inl e)
  | inr (fed_dataset, initialize_clients_fn) =>
      (fix_random_seeds seed
       :: client_fraction_loop lr name total_fedavg_rounds local_epochs batch_size
            optimizer_args train_args model_args dataset fed_dataset
            initialize_clients_fn client_fraction false,
       inr ())
  end.

End driver.
End fedavg.

(** *** [mlmi/experiments/hierarchical_clustering_fedavg.py] *)

Module hierarchical_clustering_fedavg.

(** The inner loop of [generate_configuration]: what is yielded for
    one [ri]. *)
Fixpoint yield_row {A B} (ri : A) (max_value_criterion_list : list B)
  : list (A * B) :=
  match max_value_criterion_list with
  | [] => []
  | mv :: max_value_criterion_list =>
      (ri, mv) :: yield_row ri max_value_criterion_list
  end.

(** [generate_configuration]: the sequence the generator yields. *)
Fixpoint generate_configuration {A B} (init_rounds_list : list A)
    (max_value_criterion_list : list B) : list (A * B) :=
  match init_rounds_list with
  | [] => []
  | ri :: init_rounds_list =>
      yield_row ri max_value_criterion_list
      ++ generate_configuration init_rounds_list max_value_criterion_list
  end.

(** A configuration value that is either one number or an iterable
    of numbers ([hasattr(max_value_criterion, '__iter__')]). *)
Inductive scalar_or_iterable (A : Type) :=
  | scalar (x : A)
  | iterable (xs : list A).
Global Arguments scalar {A}.
Global Arguments iterable {A}.

(** [if not hasattr(x, '__iter__'): x = [x]] *)
Definition as_list {A} (x : scalar_or_iterable A) : list A :=
  match x with
  | scalar x => [x]
  | iterable xs => xs
  end.

Section driver.
Context `{FrameworkTypes} `{!Framework}.

Definition global_tag : string := "global_performance".

Definition log_dataset_distribution (experiment_logger : Logger)
    (tag : string) (dataset : Dataset) : list event :=
  let dataloaders := train_data_local_values dataset in
  let image := generate_data_label_heatmap tag dataloaders (dataset_class_num dataset) in
  [add_image experiment_logger "label distribution" image].

Definition load_dataset (dataset : string) (num_clients : nat)
    (batch_size sample_threshold num_label_limit : Z) : result Dataset :=
  if decide (dataset = "femnist") then
    match load_femnist_dataset data_dir num_clients batch_size sample_threshold with
    | inl e => inl e
    | inr fed_dataset =>
        inr (if decide (num_label_limit ≠ -1)
             then scratch_labels fed_dataset num_label_limit
             else fed_dataset)
    end
  else inl (unknown_dataset dataset).

Section loop.
Variables (name : string) (total_fedavg_rounds : Z)
          (cluster_initialization_rounds : list Z)
          (local_epochs batch_size : Z) (train_args : TrainArgs)
          (dataset : string) (partitioner : Partitioner)
          (linkage criterion_name metric : string)
          (max_values : list float) (fed_dataset : Dataset).

(** One pass of the loop over [generate_configuration(...)]: the
    events, and [fedavg_context] with its new logger. *)
Definition cluster_round (server : Server) (clients : Clients) (cf : float)
    (model_args : ModelArgs) (fedavg_context : FedAvgExperimentContext)
    (configuration : Z * float) : list event * FedAvgExperimentContext :=
  let '(init_rounds, max_value) := configuration in
  let round_model_state := fedavg_state fedavg_context init_rounds in
  let cluster_args :=
    {| partitioner_class := partitioner;
       linkage_mech := linkage;
       criterion := criterion_name;
       dis_metric := metric;
       max_value_criterion := max_value;
       plot_dendrogram := false;
       num_rounds_init := init_rounds;
       num_rounds_cluster := total_fedavg_rounds - init_rounds |} in
  let experiment_specification :=
    context_str fedavg_context +:+ "_" +:+ cluster_args_str cluster_args in
  let experiment_logger :=
    tensorboard_logger (ctx_name fedavg_context) experiment_specification in
  let fedavg_context' :=
    {| ctx_name := ctx_name fedavg_context;
       ctx_client_fraction := ctx_client_fraction fedavg_context;
       ctx_local_epochs := ctx_local_epochs fedavg_context;
       ctx_lr := ctx_lr fedavg_context;
       ctx_batch_size := ctx_batch_size fedavg_context;
       ctx_optimizer_args := ctx_optimizer_args fedavg_context;
       ctx_model_args := ctx_model_args fedavg_context;
       ctx_train_args := ctx_train_args fedavg_context;
       ctx_dataset_name := ctx_dataset_name fedavg_context;
       experiment_logger := Some experiment_logger |} in
  let initial_train_fn := run_fedavg_train_round_fn round_model_state train_args in
  let create_aggregator_fn := FedAvgServer_fn model_args fedavg_context' in
  let federated_round_fn := run_fedavg_round_fn train_args cf in
  let after_post_clustering_evaluation :=
    [log_after_round_evaluation_fn experiment_logger (Some "post_clustering")] in
  let after_clustering_round_evaluation :=
    [log_after_round_evaluation_fn experiment_logger None] in
  let after_federated_round_evaluation :=
    [log_after_round_evaluation_fn experiment_logger (Some "final hierarchical");
     log_after_round_evaluation_fn experiment_logger (Some global_tag)] in
  let after_clustering_fn :=
    [log_cluster_distribution_fn experiment_logger (dataset_class_num fed_dataset)] in
  ([load_fedavg_state fedavg_context init_rounds;
    overwrite_participants_models round_model_state clients;
    create_tensorboard_logger (ctx_name fedavg_context) experiment_specification;
    run_fedavg_hierarchical server clients cluster_args
      initial_train_fn federated_round_fn create_aggregator_fn
      after_post_clustering_evaluation after_clustering_round_evaluation
      after_federated_round_evaluation after_clustering_fn],
   fedavg_context').

(** The events of one pass: the checkpoint of round [init_rounds] is
    loaded and written into the clients, a logger is created, and the
    hierarchical stage is started with the rounds split at
    [init_rounds]. *)
Definition restores_and_clusters (server : Server) (clients : Clients)
    (fedavg_context : FedAvgExperimentContext) (init_rounds : Z)
    (max_value : float) (events : list event) : Prop :=
  ∃ specification cluster_args initial_train_fn federated_round_fn
    create_aggregator_fn after_post_clustering_evaluation
    after_clustering_round_evaluation after_federated_round_evaluation
    after_clustering_fn,
    events
    = [load_fedavg_state fedavg_context init_rounds;
       overwrite_participants_models (fedavg_state fedavg_context init_rounds) clients;
       create_tensorboard_logger (ctx_name fedavg_context) specification;
       run_fedavg_hierarchical server clients cluster_args
         initial_train_fn federated_round_fn create_aggregator_fn
         after_post_clustering_evaluation after_clustering_round_evaluation
         after_federated_round_evaluation after_clustering_fn]
    ∧ num_rounds_init cluster_args = init_rounds
    ∧ num_rounds_cluster cluster_args = total_fedavg_rounds - init_rounds
    ∧ max_value_criterion cluster_args = max_value
    ∧ initial_train_fn
      = run_fedavg_train_round_fn (fedavg_state fedavg_context init_rounds) train_args.

(** The loop over the configurations. *)
Fixpoint cluster_loop (server : Server) (clients : Clients) (cf : float)
    (model_args : ModelArgs) (configurations : list (Z * float))
    (fedavg_context : FedAvgExperimentContext) : list event :=
  match configurations with
  | [] => []
  | configuration :: configurations =>
      let '(events, fedavg_context) :=
        cluster_round server clients cf model_args fedavg_context configuration in
      events ++ cluster_loop server clients cf model_args configurations fedavg_context
  end.

(** The body of the two nested loops, for one [cf] and one [lr_i]. *)
Definition experiment (cf lr_i : float) (data_distribution_logged : bool)
  : list event :=
  let optimizer_args := OptimizerArgs_SGD lr_i in
  let model_args := ModelArgs_CNNLightning optimizer_args in
  let fedavg_context :=
    mkContext name cf local_epochs lr_i batch_size optimizer_args
              model_args train_args dataset None in
  let experiment_specification := context_str fedavg_context in
  let experiment_logger :=
    tensorboard_logger (ctx_name fedavg_context) experiment_specification in
  let log_after_round_evaluation_fns :=
    [log_after_round_evaluation_fn experiment_logger (Some "fedavg");
     log_after_round_evaluation_fn experiment_logger (Some global_tag)] in
  let '(server, clients) :=
    fedavg_result fedavg_context total_fedavg_rounds fed_dataset in
  [new_FedAvgExperimentContext fedavg_context;
   create_tensorboard_logger (ctx_name fedavg_context) experiment_specification]
  ++ (if data_distribution_logged then []
      else log_dataset_distribution experiment_logger "full dataset" fed_dataset)
  ++ [run_fedavg fedavg_context total_fedavg_rounds fed_dataset true true
                 log_after_round_evaluation_fns None]
  ++ cluster_loop server clients cf model_args
       (generate_configuration cluster_initialization_rounds max_values)
       fedavg_context.

(** [for lr_i in lr], with the flag on entry; the events and the
    flag on exit. *)
Fixpoint lr_loop (cf : float) (lr : list float) (data_distribution_logged : bool)
  : list event * bool :=
  match lr with
  | [] => ([], data_distribution_logged)
  | lr_i :: lr =>
      let events := experiment cf lr_i data_distribution_logged in
      let '(rest, logged) := lr_loop cf lr true in
      (events ++ rest, logged)
  end.

(** [for cf in client_fraction] *)
Fixpoint client_fraction_loop (client_fraction lr : list float)
    (data_distribution_logged : bool) : list event :=
  match client_fraction with
  | [] => []
  | cf :: client_fraction =>
      let '(events, data_distribution_logged) :=
        lr_loop cf lr data_distribution_logged in
      events ++ client_fraction_loop client_fraction lr data_distribution_logged
  end.
End loop.

Definition run_hierarchical_clustering (seed : Z) (lr : list float)
    (name : string) (total_fedavg_rounds : Z)
    (cluster_initialization_rounds : list Z) (client_fraction : list float)
    (local_epochs batch_size : Z) (num_clients : nat)
    (sample_threshold num_label_limit : Z) (train_args : TrainArgs)
    (model_args : ModelArgs) (dataset : string) (partitioner_class : Partitioner)
    (linkage_mech criterion dis_metric : string)
    (max_value_criterion : scalar_or_iterable float)
  : list event * result unit :=
  match load_dataset dataset num_clients batch_size sample_threshold
                     num_label_limit with
  | inl e => ([fix_random_seeds seed], inl e)
  | inr fed_dataset =>
      let max_value_criterion := as_list max_value_criterion in
      (fix_random_seeds seed
       :: client_fraction_loop name total_fedavg_rounds
            cluster_initialization_rounds local_epochs batch_size train_args
            dataset partitioner_class linkage_mech criterion dis_metric
            max_value_criterion fed_dataset client_fraction lr false,
       inr ())
  end.

(** What the driver guarantees about a call of
    [run_fedavg_hierarchical] and about a call of [load_fedavg_state]:
    the rounds are split at a configured [init_rounds], the threshold
    is a configured one, no dendrogram is plotted, the federated rounds
    use a client fraction of the run, and the aggregator context
    carries the logger of the cluster experiment, the one the logging
    callbacks are bound to. *)
Definition cluster_stage_well_formed (total_fedavg_rounds : Z)
    (cluster_initialization_rounds : list Z) (max_values : list float)
    (client_fraction : list float) (train_args : TrainArgs)
    (fed_dataset : Dataset) (e : event) : Prop :=
  match e with
  | run_fedavg_hierarchical _ _ cluster_args initial_train_fn federated_round_fn
      create_aggregator_fn after_post_clustering_evaluation _ _
      after_clustering_fn =>
      num_rounds_init cluster_args ∈ cluster_initialization_rounds
      ∧ num_rounds_init cluster_args + num_rounds_cluster cluster_args
        = total_fedavg_rounds
      ∧ max_value_criterion cluster_args ∈ max_values
      ∧ plot_dendrogram cluster_args = false
      ∧ ∃ cf logger model_args context model_state,
          cf ∈ client_fraction
          ∧ federated_round_fn = run_fedavg_round_fn train_args cf
          ∧ initial_train_fn = run_fedavg_train_round_fn model_state train_args
          ∧ create_aggregator_fn = FedAvgServer_fn model_args context
          ∧ ctx_client_fraction context = cf
          ∧ experiment_logger context = Some logger
          ∧ after_post_clustering_evaluation
            = [log_after_round_evaluation_fn logger (Some "post_clustering")]
          ∧ after_clustering_fn
            = [log_cluster_distribution_fn logger (dataset_class_num fed_dataset)]
  | load_fedavg_state _ round => round ∈ cluster_initialization_rounds
  | _ => True
  end.

End driver.

Section cluster_distribution.
Context `{FrameworkTypes}.
(** [generate_client_label_heatmap] of the plotting utilities. *)
Variable generate_client_label_heatmap : string → Clients → Z → Image.

(** [log_cluster_distribution]: the dictionary is given by its items,
    in insertion order. *)
Fixpoint log_cluster_distribution (experiment_logger : Logger)
    (cluster_clients_dic : list (string * Clients)) (num_classes : Z)
  : list event :=
  match cluster_clients_dic with
  | [] => []
  | (cluster_id, clients) :: cluster_clients_dic =>
      let image :=
        generate_client_label_heatmap ("cluster " +:+ cluster_id) clients
          num_classes in
      add_image experiment_logger ("label distribution/cluster_" +:+ cluster_id)
        image
      :: log_cluster_distribution experiment_logger cluster_clients_dic num_classes
  end.

End cluster_distribution.
End hierarchical_clustering_fedavg.

(** *** A small framework to run the drivers in

    Every value is a string or a number that names the call it comes
    from; the FEMNIST loader knows 400 clients. *)

Module toy.

Definition types : FrameworkTypes :=
  {| float := string;
     Dataset := string;
     Loader := string;
     Logger := string;
     Server := string;
     Clients := list string;
     ModelState := string * Z;
     Image := string;
     TrainArgs := Z;
     ModelArgs := string;
     OptimizerArgs := string;
     ClientInit := string;
     Partitioner := string;
     Normalisation := unit |}.

Definition framework : @Framework types :=
  {| data_dir := "data";
     load_femnist_dataset := λ _ num_clients _ _,
       if decide (400 < num_clients)%nat
       then inl (ValueError "Cannot take a larger sample than population when 'replace=False'")
       else inr ("femnist" : @Dataset types);
     load_mnist_dataset := λ _ _ _, inr ("mnist" : @Dataset types);
     load_ham10k_federated := λ _ _ _ _, inr ("ham10k" : @Dataset types);
     scratch_labels := λ dataset _, dataset +:+ "_scratched";
     train_data_local_values := λ dataset, [dataset +:+ "_loader"];
     dataset_class_num := λ _, 62;
     generate_data_label_heatmap := λ tag _ _, "heatmap of " +:+ tag;
     context_str := λ context,
       @ctx_name types context +:+ "_cf" +:+ @ctx_client_fraction types context
       +:+ "_lr" +:+ @ctx_lr types context;
     cluster_args_str := λ cluster_args,
       "init" +:+ pretty (@num_rounds_init types cluster_args);
     tensorboard_logger := λ name specification, name +:+ "/" +:+ specification;
     fedavg_result := λ _ _ _, ("server", ["client 0"; "client 1"]);
     fedavg_state := λ context round, (@ctx_lr types context, round);
     OptimizerArgs_SGD := λ lr, "SGD " +:+ lr;
     ModelArgs_CNNLightning := λ optimizer_args, "CNN " +:+ optimizer_args;
     DEFAULT_CLIENT_INIT_FN := "default";
     initialize_ham10k_clients := "ham10k" |}.

(** A run of each driver on two client fractions. *)
Definition fedavg_run (dataset : string) : list (@event types) * result unit :=
  @fedavg.run_fedavg_experiment types framework
    123123123 "0.1" "femnist" 50 ["0.1"; "0.2"] 3 10 367%nat
    "SGD 0.1" 3 "CNN" dataset () ().

Definition hierarchical_run (dataset : string)
  : list (@event types) * result unit :=
  @hierarchical_clustering_fedavg.run_hierarchical_clustering types framework
    123123123 ["0.068"; "0.1"] "hpsearch" 75 [5; 10] ["0.1"; "0.2"] 3 10 367%nat
    250 15 3 "CNN" dataset "AlternativePartitioner" "ward" "distance" "euclidean"
    (hierarchical_clustering_fedavg.iterable ["3.5"; "4.0"]).

End toy.

End experiments.

(** * Properties *)

(** ** The [DataLoader] constructor *)

Section DataLoader_proofs.
Import structs.
Context {D : Type}.
Implicit Types (dataset : D) (n : nat).

Lemma DataLoader_init_inr n dataset batch_size shuffle drop_last loader :
  DataLoader_init n dataset batch_size shuffle drop_last = inr loader →
  loader = mkDataLoader dataset batch_size shuffle drop_last
  ∧ 0 < batch_size
  ∧ (shuffle = true → (0 < n)%nat).
Proof.
  unfold DataLoader_init.
  destruct (decide (shuffle = true ∧ n = 0%nat)) as [|Hempty]; [done|].
  destruct (decide (batch_size ≤ 0)) as [|Hbatch]; [done|].
  intros [= <-]. split; [done|]. split; [lia|].
  intros Hshuffle. destruct n; [|lia]. by destruct Hempty.
Qed.

Lemma DataLoader_init_ok n dataset batch_size shuffle drop_last :
  0 < batch_size → (shuffle = true → (0 < n)%nat) →
  DataLoader_init n dataset batch_size shuffle drop_last
  = inr (mkDataLoader dataset batch_size shuffle drop_last).
Proof.
  intros Hbatch Hn. unfold DataLoader_init.
  destruct (decide (shuffle = true ∧ n = 0%nat)) as [[Hs ->]|_].
  { specialize (Hn Hs). lia. }
  destruct (decide (batch_size ≤ 0)); [lia|done].
Qed.

Lemma DataLoader_init_inl n dataset batch_size shuffle drop_last e :
  DataLoader_init n dataset batch_size shuffle drop_last = inl e →
  (∃ msg, e = ValueError msg)
  ∧ (batch_size ≤ 0 ∨ shuffle = true ∧ n = 0%nat).
Proof.
  unfold DataLoader_init.
  destruct (decide (shuffle = true ∧ n = 0%nat)) as [Hempty|_].
  { intros [= <-]. split; [by eexists|by right]. }
  destruct (decide (batch_size ≤ 0)) as [Hbatch|]; [|done].
  intros [= <-]. split; [by eexists|by left].
Qed.

Lemma DataLoader_init_not_positive n dataset batch_size shuffle drop_last :
  batch_size ≤ 0 →
  ∃ msg, DataLoader_init n dataset batch_size shuffle drop_last
         = inl (ValueError msg).
Proof.
  intros Hbatch. unfold DataLoader_init.
  destruct (decide (shuffle = true ∧ n = 0%nat)); [by eexists|].
  destruct (decide (batch_size ≤ 0)); [by eexists|lia].
Qed.

Lemma DataLoader_init_empty dataset batch_size drop_last :
  ∃ msg, DataLoader_init 0 dataset batch_size true drop_last
         = inl (ValueError msg).
Proof.
  unfold DataLoader_init.
  destruct (decide (true = true ∧ 0%nat = 0%nat)) as [|Hno]; [by eexists|].
  by destruct Hno.
Qed.

End DataLoader_proofs.

(** ** [_split_train_test] *)

Section split_proofs.
Import omniglot.
Context {I L : Type} `{EqDecision L}.
Implicit Types (xs ys train test : list (I * L)) (label : L).

Lemma count_label_nil label : count_label label ([] : list (I * L)) = 0%nat.
Proof. done. Qed.

Lemma count_label_cons label x xs :
  count_label label (x :: xs)
  = ((if decide (x.2 = label) then 1 else 0) + count_label label xs)%nat.
Proof.
  unfold count_label. rewrite filter_cons. by destruct (decide (x.2 = label)).
Qed.

Lemma count_label_app label xs ys :
  count_label label (xs ++ ys)
  = (count_label label xs + count_label label ys)%nat.
Proof. unfold count_label. by rewrite filter_app, length_app. Qed.

Lemma count_label_Permutation label xs ys :
  xs ≡ₚ ys → count_label label xs = count_label label ys.
Proof. unfold count_label. by intros ->. Qed.

Lemma count_label_zero label xs :
  count_label label xs = 0%nat ↔ Forall (λ x, x.2 ≠ label) xs.
Proof.
  induction xs as [|x xs IH]; [by rewrite count_label_nil|].
  rewrite count_label_cons, Forall_cons. destruct (decide (x.2 = label)).
  - split; [lia | by intros [? _]].
  - rewrite <- IH. split; [intros; split; [done | lia] | intros [_ ?]; lia].
Qed.

Lemma count_label_elem label xs :
  (0 < count_label label xs)%nat ↔ label ∈ xs.*2.
Proof.
  induction xs as [|x xs IH]; csimpl.
  - rewrite count_label_nil, elem_of_nil. lia.
  - rewrite count_label_cons, elem_of_cons, <- IH.
    destruct (decide (x.2 = label)); [split; [by left | lia] | ].
    split; [right; lia | intros [?|?]; [congruence | lia]].
Qed.

Lemma count_label_delete label xs i x :
  xs !! i = Some x →
  count_label label xs
  = ((if decide (x.2 = label) then 1 else 0) + count_label label (delete i xs))%nat.
Proof.
  intros Hi. rewrite (count_label_Permutation _ _ _ (delete_Permutation _ _ _ Hi)).
  apply count_label_cons.
Qed.

(** Moving one item of a label keeps the items and shifts one
    occurrence of that label, when there is one, from the training to
    the test list. *)
Lemma move_first_spec train test label train' test' :
  move_first (train, test) label = (train', test') →
  train' ++ test' ≡ₚ train ++ test
  ∧ ∀ label',
      count_label label' test'
      = (count_label label' test
         + if decide (label' = label) then Nat.min 1 (count_label label train) else 0)%nat
      ∧ count_label label' train'
      = (count_label label' train
         - if decide (label' = label) then 1 else 0)%nat.
Proof.
  unfold move_first.
  destruct (list_find _ train) as [[i item]|] eqn:Hfind; intros [= <- <-].
  - apply list_find_Some in Hfind. destruct Hfind as (Hi & Hitem & _).
    simpl in Hitem. split.
    + pose proof (delete_Permutation _ _ _ Hi) as Hdel.
      rewrite (assoc_L (++)), <- Permutation_cons_append.
      change (item :: delete i train ++ test) with ((item :: delete i train) ++ test).
      by rewrite <- Hdel.
    + intros label'. rewrite count_label_app, (count_label_cons _ item []),
        count_label_nil, (count_label_delete label' train i item Hi),
        (count_label_delete label train i item Hi).
      subst label. destruct (decide (label' = item.2)) as [->|Hne].
      * destruct (decide (item.2 = item.2)); [lia|done].
      * destruct (decide (item.2 = label')); [done|].
        destruct (decide (item.2 = item.2)); [lia|done].
  - apply list_find_None in Hfind. split; [done|].
    apply count_label_zero in Hfind. intros label'.
    destruct (decide (label' = label)) as [->|]; lia.
Qed.

Lemma one_shot_spec labels : ∀ train test train' test',
  NoDup labels →
  one_shot labels (train, test) = (train', test') →
  train' ++ test' ≡ₚ train ++ test
  ∧ ∀ label,
      count_label label test'
      = (count_label label test
         + if decide (label ∈ labels) then Nat.min 1 (count_label label train) else 0)%nat
      ∧ count_label label train'
      = (count_label label train
         - if decide (label ∈ labels) then 1 else 0)%nat.
Proof.
  unfold one_shot.
  induction labels as [|l labels IH]; intros train test train' test' Hnd;
    cbn [foldl].
  - intros [= <- <-]. split; [done|]. intros label.
    destruct (decide (label ∈ [])) as [?%elem_of_nil|]; [done|lia].
  - apply NoDup_cons in Hnd as [Hl Hnd].
    destruct (move_first (train, test) l) as [train1 test1] eqn:Hmove.
    apply move_first_spec in Hmove as [Hperm1 Hcount1].
    intros Hrest. apply IH in Hrest as [Hperm Hcount]; [|done].
    split; [by rewrite Hperm|]. intros label.
    destruct (Hcount label) as [-> ->]. destruct (Hcount1 label) as [-> ->].
    destruct (decide (label = l)) as [Heq|Hne],
      (decide (label ∈ labels)) as [Hin|Hnin],
      (decide (label ∈ l :: labels)) as [Hin'|Hnin'];
      rewrite ?elem_of_cons in *; subst; try done; try lia; tauto.
Qed.

(** After [k] passes over the labels, each of them has given
    [min k c] of its [c] items to the test list. *)
Lemma shots_spec labels samples (k : nat) train test :
  NoDup labels →
  Nat.iter k (one_shot labels) (samples, []) = (train, test) →
  train ++ test ≡ₚ samples
  ∧ ∀ label,
      count_label label test
      = (if decide (label ∈ labels) then Nat.min k (count_label label samples) else 0)%nat
      ∧ count_label label train
      = (count_label label samples - count_label label test)%nat.
Proof.
  intros Hnd. revert train test.
  induction k as [|k IH]; intros train test.
  - intros [= <- <-]. split; [by rewrite app_nil_r|]. intros label.
    rewrite count_label_nil. destruct (decide _); lia.
  - rewrite Nat.iter_succ.
    destruct (Nat.iter k _ _) as [train0 test0] eqn:Hk.
    destruct (IH _ _ eq_refl) as [Hperm0 Hcount0].
    intros [Hperm Hcount]%one_shot_spec; [|done].
    split; [by rewrite Hperm|]. intros label.
    destruct (Hcount label) as [-> ->]. destruct (Hcount0 label) as [-> ->].
    destruct (decide (label ∈ labels)); lia.
Qed.

(** Counting a list label by label. *)
Lemma sum_indicator labels label :
  NoDup labels → label ∈ labels →
  sum_list ((λ l, if decide (label = l) then 1 else 0)%nat <$> labels) = 1%nat.
Proof.
  induction labels as [|l labels IH]; [by intros _ ?%elem_of_nil|].
  intros [Hl Hnd]%NoDup_cons Hin. csimpl.
  destruct (decide (label = l)) as [->|Hne].
  - assert (sum_list ((λ l0, if decide (l = l0) then 1 else 0)%nat <$> labels) = 0%nat)
      as ->; [|done].
    clear IH Hin Hnd. induction labels as [|l' labels IH]; [done|]. csimpl.
    apply not_elem_of_cons in Hl as [? ?]. rewrite decide_False by done. by rewrite IH.
  - apply elem_of_cons in Hin as [?|Hin]; [done|]. by rewrite IH.
Qed.

Lemma length_sum_count_label labels xs :
  NoDup labels → (∀ label, label ∈ xs.*2 → label ∈ labels) →
  length xs = sum_list ((λ label, count_label label xs) <$> labels).
Proof.
  intros Hnd. induction xs as [|x xs IH]; intros Hin.
  - clear. induction labels as [|l labels IH]; [done|].
    rewrite fmap_cons. cbn [sum_list]. by rewrite count_label_nil, <- IH.
  - simpl. rewrite IH by (intros; apply Hin; csimpl; by right).
    assert (x.2 ∈ labels) as Hx by (apply Hin; csimpl; by left).
    pose proof (sum_indicator labels x.2 Hnd Hx) as Hone.
    enough (sum_list ((λ label, count_label label (x :: xs)) <$> labels)
            = (sum_list ((λ l, if decide (x.2 = l) then 1 else 0) <$> labels)
               + sum_list ((λ label, count_label label xs) <$> labels))%nat) by lia.
    clear. induction labels as [|l labels IH]; [done|].
    rewrite !fmap_cons. cbn [sum_list]. rewrite count_label_cons, IH.
    unfold id. destruct (decide (x.2 = l)); lia.
Qed.

Lemma sum_min_le (c : L → nat) (k : nat) labels :
  (sum_list ((λ label, Nat.min k (c label)) <$> labels) ≤ length labels * k)%nat.
Proof. induction labels; csimpl; lia. Qed.

Lemma sum_min_lt (c : L → nat) (k : nat) labels :
  (sum_list ((λ label, Nat.min k (c label)) <$> labels) < length labels * k)%nat
  ↔ ∃ label, label ∈ labels ∧ (c label < k)%nat.
Proof.
  induction labels as [|l labels IH]; csimpl.
  - split; [lia | by intros (? & ?%elem_of_nil & _)].
  - pose proof (sum_min_le c k labels). split.
    + intros Hlt. destruct (decide (c l < k)%nat); [exists l; split; [left|done]|].
      destruct IH as [IH _]. destruct IH as (l' & ? & ?); [lia|].
      exists l'. split; [by right|done].
    + intros (l' & [->|Hin]%elem_of_cons & Hc); [lia|].
      destruct IH as [_ IH]. specialize (IH (ex_intro _ l' (conj Hin Hc))). lia.
Qed.

End split_proofs.

Section split_theorem.
Import omniglot.
Context {I L : Type} `{EqDecision L} `{!SetOrder L}.

(** What the loops of [_split_train_test] leave behind. *)
Lemma split_loops_counts (samples : list (I * L)) (k : nat) train test :
  Nat.iter k (one_shot (set_iter samples.*2)) (samples, []) = (train, test) →
  train ++ test ≡ₚ samples
  ∧ (∀ label, label ∈ samples.*2 →
       count_label label test = Nat.min k (count_label label samples))
  ∧ length test
    = sum_list ((λ label, Nat.min k (count_label label samples))
                  <$> set_iter samples.*2).
Proof.
  intros Hiter. pose proof (set_iter_NoDup samples.*2) as Hnd.
  apply shots_spec in Hiter as [Hperm Hcount]; [|done].
  assert (∀ label, label ∈ set_iter samples.*2 →
            count_label label test = Nat.min k (count_label label samples)) as Hmin.
  { intros label Hin. destruct (Hcount label) as [-> _].
    by destruct (decide (label ∈ set_iter samples.*2)). }
  split; [done|]. split.
  { intros label Hin. by apply Hmin, set_iter_elem. }
  rewrite (length_sum_count_label (set_iter samples.*2) test Hnd).
  - f_equal. apply Forall_fmap_ext, Forall_forall. intros. by apply Hmin.
  - intros label Hin%count_label_elem. destruct (Hcount label) as [Hl _].
    destruct (decide (label ∈ set_iter samples.*2)); [done|lia].
Qed.

(** When the final length test fires. *)
Lemma split_loops (samples : list (I * L)) (k : nat) train test :
  Nat.iter k (one_shot (set_iter samples.*2)) (samples, []) = (train, test) →
  train ++ test ≡ₚ samples
  ∧ (∀ label, label ∈ samples.*2 →
       count_label label test = Nat.min k (count_label label samples))
  ∧ ((length test < length (set_iter samples.*2) * k)%nat
     ↔ ∃ label, label ∈ samples.*2 ∧ (count_label label samples < k)%nat).
Proof.
  intros (Hperm & Hcount & ->)%split_loops_counts.
  split; [done|]. split; [done|].
  rewrite (sum_min_lt (λ label, count_label label samples)).
  by setoid_rewrite set_iter_elem.
Qed.

(** With the default of one test shot the split never fails: the test
    list holds one item of every label. *)
Lemma split_one_test_shot (samples : list (I * L)) :
  ∃ train test,
    _split_train_test samples 1 = inr (train, test)
    ∧ train ++ test ≡ₚ samples
    ∧ length test = length (set_iter samples.*2).
Proof.
  unfold _split_train_test. change (Z.to_nat 1) with 1%nat.
  destruct (Nat.iter _ _ _) as [train test] eqn:Hiter.
  apply split_loops_counts in Hiter as (Hperm & _ & Hlen).
  assert (length test = length (set_iter samples.*2)) as Hlen'.
  { rewrite Hlen. clear Hlen.
    assert (Forall (λ label, (0 < count_label label samples)%nat)
                   (set_iter samples.*2)) as Hpos.
    { apply Forall_forall. intros label Hin.
      by apply count_label_elem, set_iter_elem. }
    induction Hpos as [|label labels Hlabel _ IH]; [done|].
    rewrite fmap_cons. cbn [sum_list length]. rewrite <- IH. unfold id. lia. }
  rewrite decide_False by lia. by exists train, test.
Qed.

(** C2.  For a non-negative [test_shots], [_split_train_test] raises
    [IndexError] exactly when some label of the input has fewer than
    [test_shots] items; otherwise it returns a pair [(train, test)] in
    which [test] holds exactly [test_shots] items of every label of the
    input and [train ++ test] is a permutation of the input. *)
Theorem split_train_test_spec (samples : list (I * L)) (test_shots : Z) :
  0 ≤ test_shots →
  (is_IndexError (_split_train_test samples test_shots)
   ↔ ∃ label, label ∈ samples.*2
              ∧ Z.of_nat (count_label label samples) < test_shots)
  ∧ (¬ (∃ label, label ∈ samples.*2
                 ∧ Z.of_nat (count_label label samples) < test_shots) →
     ∃ train test,
       _split_train_test samples test_shots = inr (train, test)
       ∧ (∀ label, label ∈ samples.*2 →
            Z.of_nat (count_label label test) = test_shots)
       ∧ train ++ test ≡ₚ samples).
Proof.
  intros Hshots. unfold _split_train_test.
  destruct (Nat.iter _ _ _) as [train test] eqn:Hiter.
  apply split_loops in Hiter as (Hperm & Hcount & Hshort).
  assert ((∃ label, label ∈ samples.*2
                    ∧ Z.of_nat (count_label label samples) < test_shots)
          ↔ Z.of_nat (length test)
            < Z.of_nat (length (set_iter samples.*2)) * test_shots) as Hiff.
  { etrans; [|etrans; [symmetry; apply Hshort|]].
    - apply exist_proper; intros label. apply and_iff_compat_l. lia.
    - rewrite <- (Z2Nat.id test_shots) at 2 by done. lia. }
  rewrite Hiff. destruct (decide _) as [Hlt|Hge]; simpl.
  - split; [done|]. by intros [].
  - split; [done|]. intros _. exists train, test. split; [done|]. split; [|done].
    intros label Hin. rewrite (Hcount label Hin).
    assert (¬ Z.of_nat (count_label label samples) < test_shots); [|lia].
    intros Hc. apply Hge, Hiff. by exists label.
Qed.

End split_theorem.

Section split_examples.
Import omniglot.
Local Existing Instance remove_dups_order.

Example split_one_shot :
  _split_train_test task 1
  = inr ([("c", 0); ("d", 1); ("e", 0)], [("b", 1); ("a", 0)])%nat.
Proof. reflexivity. Qed.

Example split_two_shots :
  _split_train_test task 2
  = inr ([("e", 0)], [("b", 1); ("a", 0); ("d", 1); ("c", 0)])%nat.
Proof. reflexivity. Qed.

Example split_three_shots : is_IndexError (_split_train_test task 3).
Proof. exact I. Qed.

Example split_no_shots : _split_train_test task 0 = inr (task, []).
Proof. reflexivity. Qed.

Lemma split_train_test_spec_witness :
  0 ≤ 2
  ∧ (is_IndexError (_split_train_test task 2)
     ↔ ∃ label, label ∈ task.*2 ∧ Z.of_nat (count_label label task) < 2)
  ∧ (¬ (∃ label, label ∈ task.*2 ∧ Z.of_nat (count_label label task) < 2) →
     ∃ train test,
       _split_train_test task 2 = inr (train, test)
       ∧ (∀ label, label ∈ task.*2 → Z.of_nat (count_label label test) = 2)
       ∧ train ++ test ≡ₚ task).
Proof.
  split; [lia|]. apply (split_train_test_spec task 2). lia.
Defined.

End split_examples.

(** ** [generate_configuration] *)

Section generate_configuration_proofs.
Import experiments.hierarchical_clustering_fedavg.
Context {A B : Type}.
Implicit Types (init_rounds_list : list A) (max_value_criterion_list : list B).

Lemma length_yield_row (ri : A) max_value_criterion_list :
  length (yield_row ri max_value_criterion_list)
  = length max_value_criterion_list.
Proof. induction max_value_criterion_list; simpl; congruence. Qed.

Lemma yield_row_lookup (ri : A) max_value_criterion_list j mv :
  max_value_criterion_list !! j = Some mv →
  yield_row ri max_value_criterion_list !! j = Some (ri, mv).
Proof.
  revert j. induction max_value_criterion_list as [|mv' l IH]; intros [|j]; simpl;
    try done.
  - by intros [= ->].
  - apply IH.
Qed.

Lemma yield_row_map (ri : A) max_value_criterion_list :
  yield_row ri max_value_criterion_list
  = map (λ mv, (ri, mv)) max_value_criterion_list.
Proof. induction max_value_criterion_list; simpl; congruence. Qed.

Lemma generate_configuration_list_prod init_rounds_list max_value_criterion_list :
  generate_configuration init_rounds_list max_value_criterion_list
  = list_prod init_rounds_list max_value_criterion_list.
Proof.
  induction init_rounds_list as [|ri l IH]; [done|]. simpl.
  by rewrite yield_row_map, IH.
Qed.

(** C6.  [generate_configuration A B] yields the Cartesian product of
    its arguments in row-major order: it has [len(A) * len(B)] pairs,
    the pair at position [i * len(B) + j] is [(A[i], B[j])], and it is
    the list [list_prod A B] of the standard library. *)
Theorem generate_configuration_row_major init_rounds_list max_value_criterion_list :
  length (generate_configuration init_rounds_list max_value_criterion_list)
  = (length init_rounds_list * length max_value_criterion_list)%nat
  ∧ generate_configuration init_rounds_list max_value_criterion_list
    = list_prod init_rounds_list max_value_criterion_list
  ∧ ∀ i j ri mv,
      init_rounds_list !! i = Some ri →
      max_value_criterion_list !! j = Some mv →
      generate_configuration init_rounds_list max_value_criterion_list
        !! (i * length max_value_criterion_list + j)%nat
      = Some (ri, mv).
Proof.
  split; [|split].
  - induction init_rounds_list as [|ri l IH]; [done|]. simpl.
    by rewrite length_app, length_yield_row, IH.
  - apply generate_configuration_list_prod.
  - induction init_rounds_list as [|ri' l IH]; intros i j ri mv Hi Hj; [done|].
    pose proof (lookup_lt_Some _ _ _ Hj) as Hlt. simpl.
    destruct i as [|i]; simpl in *.
    + injection Hi as ->. rewrite lookup_app_l by by rewrite length_yield_row.
      by apply yield_row_lookup.
    + rewrite lookup_app_r by (rewrite length_yield_row; lia).
      rewrite length_yield_row.
      replace (length max_value_criterion_list
               + i * length max_value_criterion_list + j
               - length max_value_criterion_list)%nat
        with (i * length max_value_criterion_list + j)%nat by lia.
      by apply IH.
Qed.

End generate_configuration_proofs.

Section generate_configuration_examples.
Import experiments.hierarchical_clustering_fedavg.

Example generate_configuration_hpsearch :
  generate_configuration [5; 10; 15; 20] ["3.5"; "4.0"; "5.0"]
  = [(5, "3.5"); (5, "4.0"); (5, "5.0"); (10, "3.5"); (10, "4.0"); (10, "5.0");
     (15, "3.5"); (15, "4.0"); (15, "5.0"); (20, "3.5"); (20, "4.0"); (20, "5.0")].
Proof. reflexivity. Qed.

Example generate_configuration_empty :
  generate_configuration [5; 10] ([] : list string) = [].
Proof. reflexivity. Qed.

Lemma generate_configuration_row_major_witness :
  [5; 10; 15; 20] !! 2%nat = Some 15
  ∧ ["3.5"; "4.0"; "5.0"] !! 1%nat = Some "4.0"
  ∧ generate_configuration [5; 10; 15; 20] ["3.5"; "4.0"; "5.0"] !! (2 * 3 + 1)%nat
    = Some (15, "4.0").
Proof.
  split; [reflexivity|]. split; [reflexivity|].
  apply (proj2 (proj2 (generate_configuration_row_major
                         [5; 10; 15; 20] ["3.5"; "4.0"; "5.0"])) 2%nat 1%nat);
    reflexivity.
Defined.

End generate_configuration_examples.

(** ** [augment_dataset] *)

Section augment_dataset_proofs.
Import omniglot.

(** C8.  [augment_dataset] yields four characters for every input
    character, in input order: the output is four times as long as the
    input, and the character at position [4 * i + k] has the directory
    of the [i]-th input character and the [k]-th of the rotations
    [0, 90, 180, 270]. *)
Theorem augment_dataset_spec (dataset : list Character) :
  length (augment_dataset dataset) = (4 * length dataset)%nat
  ∧ rotations = [0; 90; 180; 270]
  ∧ ∀ i k character rot,
      dataset !! i = Some character →
      rotations !! k = Some rot →
      augment_dataset dataset !! (4 * i + k)%nat
      = Some (mkCharacter (dir_path character) rot).
Proof.
  split; [|split; [done|]].
  - induction dataset as [|c dataset IH]; [done|]. simpl. rewrite IH. lia.
  - induction dataset as [|c dataset IH]; intros i k character rot Hi Hk; [done|].
    destruct i as [|i]; simpl in Hi.
    + injection Hi as ->.
      by destruct k as [|[|[|[|k]]]]; simpl in *; simplify_eq.
    + pose proof (lookup_lt_Some _ _ _ Hk) as Hlt. simpl in Hlt.
      replace (4 * S i + k)%nat with (S (S (S (S (4 * i + k))))) by lia.
      simpl. by apply IH.
Qed.

End augment_dataset_proofs.

Section augment_dataset_examples.
Import omniglot.

Example augment_two_characters :
  augment_dataset two_characters
  = [mkCharacter "Latin/character01" 0; mkCharacter "Latin/character01" 90;
     mkCharacter "Latin/character01" 180; mkCharacter "Latin/character01" 270;
     mkCharacter "Greek/character07" 0; mkCharacter "Greek/character07" 90;
     mkCharacter "Greek/character07" 180; mkCharacter "Greek/character07" 270].
Proof. reflexivity. Qed.

Lemma augment_dataset_spec_witness :
  two_characters !! 1%nat = Some (mkCharacter "Greek/character07" 0)
  ∧ rotations !! 2%nat = Some 180
  ∧ augment_dataset two_characters !! (4 * 1 + 2)%nat
    = Some (mkCharacter "Greek/character07" 180).
Proof.
  split; [reflexivity|]. split; [reflexivity|].
  apply (proj2 (proj2 (augment_dataset_spec two_characters)) 1%nat 2%nat
               (mkCharacter "Greek/character07" 0) 180);
    reflexivity.
Defined.

End augment_dataset_examples.

(** ** The experiment drivers *)

Section driver_proofs.
Import experiments.
Context `{FrameworkTypes} `{!Framework}.

(** *** Unknown datasets *)

Lemma fedavg_load_dataset_unknown dataset num_clients batch_size mean std :
  dataset ∉ ["femnist"; "mnist"; "ham10k"] →
  fedavg.load_dataset dataset num_clients batch_size mean std
  = inl (unknown_dataset dataset).
Proof.
  intros Hnot. unfold fedavg.load_dataset.
  repeat (destruct (decide _) as [->|?]; [exfalso; apply Hnot; set_solver|]).
  done.
Qed.

Lemma hierarchical_load_dataset_unknown dataset num_clients batch_size
    sample_threshold num_label_limit :
  dataset ≠ "femnist" →
  hierarchical_clustering_fedavg.load_dataset dataset num_clients batch_size
    sample_threshold num_label_limit
  = inl (unknown_dataset dataset).
Proof.
  intros Hne. unfold hierarchical_clustering_fedavg.load_dataset.
  by destruct (decide _).
Qed.

(** C9.  For a dataset name outside ['femnist', 'mnist', 'ham10k'],
    [run_fedavg_experiment] raises [ValueError]; for a dataset name other
    than 'femnist', [run_hierarchical_clustering] raises [ValueError].
    In both drivers the seeds have been fixed by then and nothing else
    has happened: no experiment context and no logger has been
    created. *)
Theorem unknown_dataset_raises (dataset : string) :
  (dataset ∉ ["femnist"; "mnist"; "ham10k"] →
   ∀ seed lr name total_fedavg_rounds client_fraction local_epochs batch_size
     num_clients optimizer_args train_args model_args mean std,
     let run :=
       fedavg.run_fedavg_experiment seed lr name total_fedavg_rounds
         client_fraction local_epochs batch_size num_clients optimizer_args
         train_args model_args dataset mean std in
     run = ([fix_random_seeds seed], inl (unknown_dataset dataset))
     ∧ is_ValueError run.2
     ∧ no_context_or_logger run.1)
  ∧ (dataset ≠ "femnist" →
     ∀ seed lr name total_fedavg_rounds cluster_initialization_rounds
       client_fraction local_epochs batch_size num_clients sample_threshold
       num_label_limit train_args model_args partitioner_class linkage_mech
       criterion dis_metric max_value_criterion,
       let run :=
         hierarchical_clustering_fedavg.run_hierarchical_clustering seed lr name
           total_fedavg_rounds cluster_initialization_rounds client_fraction
           local_epochs batch_size num_clients sample_threshold num_label_limit
           train_args model_args dataset partitioner_class linkage_mech
           criterion dis_metric max_value_criterion in
       run = ([fix_random_seeds seed], inl (unknown_dataset dataset))
       ∧ is_ValueError run.2
       ∧ no_context_or_logger run.1).
Proof.
  split.
  - intros Hnot **. subst run. unfold fedavg.run_fedavg_experiment.
    rewrite fedavg_load_dataset_unknown by done.
    split; [done|]. split; [exact I|]. by repeat constructor.
  - intros Hne **. subst run.
    unfold hierarchical_clustering_fedavg.run_hierarchical_clustering.
    rewrite hierarchical_load_dataset_unknown by done.
    split; [done|]. split; [exact I|]. by repeat constructor.
Qed.

(** *** The label distribution of the full dataset *)

Section fedavg_loop.
Variables (lr : float) (name : string) (total_fedavg_rounds local_epochs : Z)
          (batch_size : Z) (optimizer_args : OptimizerArgs)
          (train_args : TrainArgs) (model_args : ModelArgs) (dataset : string)
          (fed_dataset : Dataset) (initialize_clients_fn : ClientInit).

Lemma fedavg_loop_logged client_fraction :
  no_dataset_distribution
    (fedavg.client_fraction_loop lr name total_fedavg_rounds local_epochs
       batch_size optimizer_args train_args model_args dataset fed_dataset
       initialize_clients_fn client_fraction true).
Proof.
  induction client_fraction as [|cf client_fraction IH]; [constructor|].
  cbn [fedavg.client_fraction_loop]. by repeat constructor.
Qed.

End fedavg_loop.

Section hierarchical_loop.
Variables (name : string) (total_fedavg_rounds : Z)
          (cluster_initialization_rounds : list Z)
          (local_epochs batch_size : Z) (train_args : TrainArgs)
          (dataset : string) (partitioner : Partitioner)
          (linkage criterion_name metric : string)
          (max_values : list float) (fed_dataset : Dataset).

Local Abbreviation cluster_round :=
  (hierarchical_clustering_fedavg.cluster_round total_fedavg_rounds train_args
     partitioner linkage criterion_name metric fed_dataset).
Local Abbreviation cluster_loop :=
  (hierarchical_clustering_fedavg.cluster_loop total_fedavg_rounds train_args
     partitioner linkage criterion_name metric fed_dataset).
Local Abbreviation experiment :=
  (hierarchical_clustering_fedavg.experiment name total_fedavg_rounds
     cluster_initialization_rounds local_epochs batch_size train_args dataset
     partitioner linkage criterion_name metric max_values fed_dataset).
Local Abbreviation lr_loop :=
  (hierarchical_clustering_fedavg.lr_loop name total_fedavg_rounds
     cluster_initialization_rounds local_epochs batch_size train_args dataset
     partitioner linkage criterion_name metric max_values fed_dataset).
Local Abbreviation client_fraction_loop :=
  (hierarchical_clustering_fedavg.client_fraction_loop name total_fedavg_rounds
     cluster_initialization_rounds local_epochs batch_size train_args dataset
     partitioner linkage criterion_name metric max_values fed_dataset).

Lemma cluster_loop_no_distribution server clients cf model_args configurations
    fedavg_context :
  no_dataset_distribution
    (cluster_loop server clients cf model_args configurations fedavg_context).
Proof.
  revert fedavg_context.
  induction configurations as [|[init_rounds max_value] configurations IH];
    intros fedavg_context; [constructor|].
  cbn [hierarchical_clustering_fedavg.cluster_loop
         hierarchical_clustering_fedavg.cluster_round].
  repeat (apply Forall_cons; split; [done|]). apply IH.
Qed.

Lemma experiment_logged cf lr_i :
  no_dataset_distribution (experiment cf lr_i true).
Proof.
  unfold hierarchical_clustering_fedavg.experiment.
  destruct (fedavg_result _ _ _) as [server clients].
  repeat (apply Forall_cons; split; [done|]).
  apply cluster_loop_no_distribution.
Qed.

Lemma lr_loop_logged cf lr :
  no_dataset_distribution (lr_loop cf lr true).1 ∧ (lr_loop cf lr true).2 = true.
Proof.
  induction lr as [|lr_i lr [IH1 IH2]]; [by split; [constructor|]|].
  cbn [hierarchical_clustering_fedavg.lr_loop].
  destruct (lr_loop cf lr true) as [rest logged]. simpl in *. split; [|done].
  apply Forall_app. split; [apply experiment_logged | done].
Qed.

Lemma client_fraction_loop_logged client_fraction lr :
  no_dataset_distribution (client_fraction_loop client_fraction lr true).
Proof.
  induction client_fraction as [|cf client_fraction IH]; [constructor|].
  cbn [hierarchical_clustering_fedavg.client_fraction_loop].
  destruct (lr_loop_logged cf lr) as [Hno Hflag].
  destruct (lr_loop cf lr true) as [events logged]. simpl in *. subst logged.
  by apply Forall_app.
Qed.

(** The first pass through the two loops logs the distribution right
    after its logger is created. *)
Lemma experiment_first cf lr_i :
  ∃ fedavg_context rest,
    fedavg_context
    = mkContext name cf local_epochs lr_i batch_size (OptimizerArgs_SGD lr_i)
        (ModelArgs_CNNLightning (OptimizerArgs_SGD lr_i)) train_args dataset None
    ∧ experiment cf lr_i false
      = [new_FedAvgExperimentContext fedavg_context;
         create_tensorboard_logger name (context_str fedavg_context);
         add_image (tensorboard_logger name (context_str fedavg_context))
           "label distribution"
           (generate_data_label_heatmap "full dataset"
              (train_data_local_values fed_dataset) (dataset_class_num fed_dataset))]
        ++ rest
    ∧ no_dataset_distribution rest.
Proof.
  unfold hierarchical_clustering_fedavg.experiment.
  destruct (fedavg_result _ _ _) as [server clients].
  eexists _, _. split; [done|]. split; [reflexivity|].
  apply Forall_cons. split; [done|]. apply cluster_loop_no_distribution.
Qed.

(** *** The cluster stage *)

Lemma app_head_assoc {A} (h1 h2 h3 pre block post : list A) :
  h1 ++ h2 ++ h3 ++ pre ++ block ++ post
  = (h1 ++ h2 ++ h3 ++ pre) ++ block ++ post.
Proof. by rewrite <- !(assoc_L (++)). Qed.

Lemma same_experiment_refl (c : FedAvgExperimentContext) : same_experiment c c.
Proof. by repeat split. Qed.

Lemma same_experiment_trans (c1 c2 c3 : FedAvgExperimentContext) :
  same_experiment c1 c2 → same_experiment c2 c3 → same_experiment c1 c3.
Proof. unfold same_experiment. intros ? ?. intuition congruence. Qed.

Lemma cluster_round_same server clients cf model_args fedavg_context configuration :
  same_experiment fedavg_context
    (cluster_round server clients cf model_args fedavg_context configuration).2.
Proof. destruct configuration. by repeat split. Qed.

Local Abbreviation restores_and_clusters :=
  (hierarchical_clustering_fedavg.restores_and_clusters total_fedavg_rounds
     train_args).

Lemma cluster_round_restores server clients cf model_args fedavg_context
    init_rounds max_value :
  restores_and_clusters server clients fedavg_context init_rounds max_value
    (cluster_round server clients cf model_args fedavg_context
       (init_rounds, max_value)).1.
Proof.
  unfold hierarchical_clustering_fedavg.restores_and_clusters.
  by eexists _, _, _, _, _, _, _, _, _.
Qed.

Lemma cluster_loop_elem server clients cf model_args configurations :
  ∀ fedavg_context init_rounds max_value,
    (init_rounds, max_value) ∈ configurations →
    ∃ pre block post fedavg_context',
      cluster_loop server clients cf model_args configurations fedavg_context
      = pre ++ block ++ post
      ∧ same_experiment fedavg_context fedavg_context'
      ∧ restores_and_clusters server clients fedavg_context' init_rounds
          max_value block.
Proof.
  induction configurations as [|configuration configurations IH];
    intros fedavg_context init_rounds max_value Hin; [by apply elem_of_nil in Hin|].
  cbn [hierarchical_clustering_fedavg.cluster_loop].
  pose proof (cluster_round_same server clients cf model_args fedavg_context
                configuration) as Hsame.
  pose proof (cluster_round_restores server clients cf model_args fedavg_context
                init_rounds max_value) as Hblock.
  destruct (cluster_round server clients cf model_args fedavg_context configuration)
    as [events fedavg_context1] eqn:Hround.
  apply elem_of_cons in Hin as [<-|Hin].
  - rewrite Hround in Hblock. eexists [], events, _, fedavg_context.
    split; [done|]. split; [apply same_experiment_refl | done].
  - destruct (IH fedavg_context1 _ _ Hin) as (pre & block & post & ctx' & -> & ? & ?).
    exists (events ++ pre), block, post, ctx'. rewrite <- (assoc_L (++)).
    split; [done|]. split; [|done]. by eapply same_experiment_trans.
Qed.

Lemma generate_configuration_elem (rounds : list Z) (values : list float)
    init_rounds max_value :
  init_rounds ∈ rounds → max_value ∈ values →
  (init_rounds, max_value)
    ∈ hierarchical_clustering_fedavg.generate_configuration rounds values.
Proof.
  intros Hi Hm.
  rewrite generate_configuration_list_prod.
  apply list_elem_of_In, in_prod; by apply list_elem_of_In.
Qed.

Lemma experiment_elem cf lr_i logged init_rounds max_value :
  init_rounds ∈ cluster_initialization_rounds → max_value ∈ max_values →
  ∃ pre block post fedavg_context,
    experiment cf lr_i logged = pre ++ block ++ post
    ∧ same_experiment
        (mkContext name cf local_epochs lr_i batch_size (OptimizerArgs_SGD lr_i)
           (ModelArgs_CNNLightning (OptimizerArgs_SGD lr_i)) train_args dataset None)
        fedavg_context
    ∧ restores_and_clusters
        (fedavg_result
           (mkContext name cf local_epochs lr_i batch_size (OptimizerArgs_SGD lr_i)
              (ModelArgs_CNNLightning (OptimizerArgs_SGD lr_i)) train_args dataset
              None)
           total_fedavg_rounds fed_dataset).1
        (fedavg_result
           (mkContext name cf local_epochs lr_i batch_size (OptimizerArgs_SGD lr_i)
              (ModelArgs_CNNLightning (OptimizerArgs_SGD lr_i)) train_args dataset
              None)
           total_fedavg_rounds fed_dataset).2
        fedavg_context init_rounds max_value block.
Proof.
  intros Hi Hm. unfold hierarchical_clustering_fedavg.experiment.
  destruct (fedavg_result _ _ _) as [server clients]. cbn [fst snd].
  match goal with
  | |- context [hierarchical_clustering_fedavg.cluster_loop _ _ _ _ _ _ _ _ _ _
                  ?m ?cs ?c] =>
      destruct (cluster_loop_elem server clients cf m cs c init_rounds max_value)
        as (pre & block & post & ctx' & -> & Hsame & Hblock);
      [by apply generate_configuration_elem|]
  end.
  eexists _, block, post, ctx'. split; [|done].
  apply app_head_assoc.
Qed.

Lemma lr_loop_elem cf lr lr_i logged :
  lr_i ∈ lr →
  ∃ pre post logged',
    (lr_loop cf lr logged).1 = pre ++ experiment cf lr_i logged' ++ post.
Proof.
  revert logged. induction lr as [|lr_j lr IH]; intros logged Hin;
    [by apply elem_of_nil in Hin|].
  cbn [hierarchical_clustering_fedavg.lr_loop].
  apply elem_of_cons in Hin as [<-|Hin].
  - destruct (lr_loop cf lr true) as [rest ?]. by exists [], rest, logged.
  - destruct (IH true Hin) as (pre & post & logged' & Heq).
    destruct (lr_loop cf lr true) as [rest ?]. simpl in Heq. subst rest.
    exists (experiment cf lr_j logged ++ pre), post, logged'.
    simpl. by rewrite <- (assoc_L (++)).
Qed.

Lemma client_fraction_loop_elem client_fraction lr cf logged :
  cf ∈ client_fraction →
  ∃ pre post logged',
    client_fraction_loop client_fraction lr logged
    = pre ++ (lr_loop cf lr logged').1 ++ post.
Proof.
  revert logged. induction client_fraction as [|cf' client_fraction IH];
    intros logged Hin; [by apply elem_of_nil in Hin|].
  cbn [hierarchical_clustering_fedavg.client_fraction_loop].
  apply elem_of_cons in Hin as [<-|Hin].
  - destruct (lr_loop cf lr logged) as [events logged1] eqn:Hlr.
    exists [], (client_fraction_loop client_fraction lr logged1), logged.
    by rewrite Hlr.
  - destruct (lr_loop cf' lr logged) as [events logged1].
    destruct (IH logged1 Hin) as (pre & post & logged' & ->).
    exists (events ++ pre), post, logged'. by rewrite <- (assoc_L (++)).
Qed.

End hierarchical_loop.

(** C1.  In a run of [run_hierarchical_clustering] on a dataset that
    loads, for every client fraction and learning rate of the run, every
    [init_rounds] of [cluster_initialization_rounds] and every
    [max_value] of [max_value_criterion], the trace holds a block of
    events in which the state saved at round [init_rounds] is loaded
    with [load_fedavg_state], written into the clients that [run_fedavg]
    returned with [overwrite_participants_models], and then
    [run_fedavg_hierarchical] is started on these clients with
    [num_rounds_init = init_rounds],
    [num_rounds_cluster = total_fedavg_rounds - init_rounds] and
    [max_value_criterion = max_value]. *)
Theorem cluster_stage_restores_checkpoint
    seed lr name total_fedavg_rounds cluster_initialization_rounds
    client_fraction local_epochs batch_size num_clients sample_threshold
    num_label_limit train_args model_args dataset partitioner_class
    linkage_mech criterion dis_metric max_value_criterion
    fed_dataset cf lr_i init_rounds max_value :
  hierarchical_clustering_fedavg.load_dataset dataset num_clients batch_size
    sample_threshold num_label_limit
  = inr fed_dataset →
  cf ∈ client_fraction →
  lr_i ∈ lr →
  init_rounds ∈ cluster_initialization_rounds →
  max_value ∈ hierarchical_clustering_fedavg.as_list max_value_criterion →
  let context :=
    mkContext name cf local_epochs lr_i batch_size (OptimizerArgs_SGD lr_i)
      (ModelArgs_CNNLightning (OptimizerArgs_SGD lr_i)) train_args dataset None in
  let trained := fedavg_result context total_fedavg_rounds fed_dataset in
  ∃ pre block post fedavg_context,
    (hierarchical_clustering_fedavg.run_hierarchical_clustering seed lr name
       total_fedavg_rounds cluster_initialization_rounds client_fraction
       local_epochs batch_size num_clients sample_threshold num_label_limit
       train_args model_args dataset partitioner_class linkage_mech criterion
       dis_metric max_value_criterion).1
    = pre ++ block ++ post
    ∧ same_experiment context fedavg_context
    ∧ hierarchical_clustering_fedavg.restores_and_clusters total_fedavg_rounds
        train_args trained.1 trained.2 fedavg_context init_rounds max_value block.
Proof.
  intros Hload Hcf Hlr Hinit Hmax context trained.
  unfold hierarchical_clustering_fedavg.run_hierarchical_clustering.
  rewrite Hload. cbn [fst].
  match goal with
  | |- context [hierarchical_clustering_fedavg.client_fraction_loop ?a ?b ?c ?d
                  ?e ?f ?g ?h ?i ?j ?k ?l ?m _ _ _] =>
      destruct (client_fraction_loop_elem a b c d e f g h i j k l m
                  client_fraction lr cf false Hcf) as (p1 & q1 & logged1 & ->);
      destruct (lr_loop_elem a b c d e f g h i j k l m cf lr lr_i logged1 Hlr)
        as (p2 & q2 & logged2 & ->);
      destruct (experiment_elem a b c d e f g h i j k l m cf lr_i logged2
                  init_rounds max_value Hinit Hmax)
        as (p3 & block & q3 & ctx & -> & Hsame & Hblock)
  end.
  exists (fix_random_seeds seed :: p1 ++ p2 ++ p3), block, (q3 ++ q2 ++ q1), ctx.
  split; [|done]. simpl. by rewrite <- !(assoc_L (++)).
Qed.

Lemma logged_once_intro seed fedavg_context fed_dataset trace rest :
  trace
  = [fix_random_seeds seed;
     new_FedAvgExperimentContext fedavg_context;
     create_tensorboard_logger (ctx_name fedavg_context) (context_str fedavg_context);
     add_image
       (tensorboard_logger (ctx_name fedavg_context) (context_str fedavg_context))
       "label distribution"
       (generate_data_label_heatmap "full dataset"
          (train_data_local_values fed_dataset) (dataset_class_num fed_dataset))]
    ++ rest →
  no_dataset_distribution rest →
  logged_once_in_first_iteration seed fedavg_context fed_dataset trace.
Proof.
  intros -> Hrest. split; [|by exists rest].
  unfold count_dataset_distribution. rewrite filter_app, length_app.
  replace (filter _ rest) with ([] : list event); [done|].
  symmetry. clear -Hrest. induction Hrest as [|e rest He _ IH]; [done|].
  rewrite filter_cons, decide_False by (by rewrite He). done.
Qed.

(** C5.  In a run of either driver that gets past the loading of the
    dataset, with non-empty hyperparameter lists, the label distribution
    of the full dataset is logged exactly once, in the first iteration:
    the trace begins with the fixing of the seeds, the creation of the
    first context and of its logger and the logging of the image, and
    no later event logs it again, however many iterations follow. *)
Theorem dataset_distribution_logged_once :
  (∀ seed lr name total_fedavg_rounds client_fraction local_epochs batch_size
     num_clients optimizer_args train_args model_args dataset mean std
     fed_dataset initialize_clients_fn cf client_fractions,
     fedavg.load_dataset dataset num_clients batch_size mean std
     = inr (fed_dataset, initialize_clients_fn) →
     client_fraction = cf :: client_fractions →
     logged_once_in_first_iteration seed
       (mkContext name cf local_epochs lr batch_size optimizer_args model_args
          train_args dataset None)
       fed_dataset
       (fedavg.run_fedavg_experiment seed lr name total_fedavg_rounds
          client_fraction local_epochs batch_size num_clients optimizer_args
          train_args model_args dataset mean std).1)
  ∧ (∀ seed lr name total_fedavg_rounds cluster_initialization_rounds
       client_fraction local_epochs batch_size num_clients sample_threshold
       num_label_limit train_args model_args dataset partitioner_class
       linkage_mech criterion dis_metric max_value_criterion
       fed_dataset cf client_fractions lr_i lrs,
       hierarchical_clustering_fedavg.load_dataset dataset num_clients batch_size
         sample_threshold num_label_limit
       = inr fed_dataset →
       client_fraction = cf :: client_fractions →
       lr = lr_i :: lrs →
       logged_once_in_first_iteration seed
         (mkContext name cf local_epochs lr_i batch_size (OptimizerArgs_SGD lr_i)
            (ModelArgs_CNNLightning (OptimizerArgs_SGD lr_i)) train_args
            dataset None)
         fed_dataset
         (hierarchical_clustering_fedavg.run_hierarchical_clustering seed lr
            name total_fedavg_rounds cluster_initialization_rounds
            client_fraction local_epochs batch_size num_clients
            sample_threshold num_label_limit train_args model_args dataset
            partitioner_class linkage_mech criterion dis_metric
            max_value_criterion).1).
Proof.
  split.
  - intros * Hload ->. unfold fedavg.run_fedavg_experiment. rewrite Hload.
    eapply logged_once_intro; [simpl; reflexivity|].
    apply Forall_cons. split; [done|]. apply fedavg_loop_logged.
  - intros * Hload -> ->.
    unfold hierarchical_clustering_fedavg.run_hierarchical_clustering.
    rewrite Hload.
    cbn [fst hierarchical_clustering_fedavg.client_fraction_loop
           hierarchical_clustering_fedavg.lr_loop].
    match goal with
    | |- context [hierarchical_clustering_fedavg.lr_loop ?a ?b ?c ?d ?e ?f ?g ?h
                    ?i ?j ?k ?l ?m cf lrs true] =>
        pose proof (lr_loop_logged a b c d e f g h i j k l m cf lrs) as [Hlrs Hflag];
        destruct (hierarchical_clustering_fedavg.lr_loop a b c d e f g h i j k l m
                    cf lrs true) as [events logged];
        pose proof (experiment_first a b c d e f g h i j k l m cf lr_i)
          as (ctx & rest & -> & -> & Hrest);
        pose proof (client_fraction_loop_logged a b c d e f g h i j k l m
                      client_fractions (lr_i :: lrs)) as Hcfs
    end.
    simpl in Hlrs, Hflag. subst logged.
    eapply logged_once_intro; [simpl; reflexivity|].
    by repeat (apply Forall_app; split).
Qed.

End driver_proofs.

Section driver_examples.
Import experiments.
Local Existing Instance toy.types.
Local Existing Instance toy.framework.

Example fedavg_run_unknown :
  toy.fedavg_run "cifar10"
  = ([fix_random_seeds 123123123], inl (unknown_dataset "cifar10")).
Proof. reflexivity. Qed.

Example hierarchical_run_mnist :
  toy.hierarchical_run "mnist"
  = ([fix_random_seeds 123123123], inl (unknown_dataset "mnist")).
Proof. reflexivity. Qed.

Example fedavg_run_logs_once :
  count_dataset_distribution (toy.fedavg_run "mnist").1 = 1%nat
  ∧ length (toy.fedavg_run "mnist").1 = 8%nat.
Proof. split; reflexivity. Qed.

Example hierarchical_run_logs_once :
  count_dataset_distribution (toy.hierarchical_run "femnist").1 = 1%nat
  ∧ length (toy.hierarchical_run "femnist").1 = 78%nat.
Proof. split; reflexivity. Qed.

Lemma unknown_dataset_raises_witness :
  ("cifar10" ∉ ["femnist"; "mnist"; "ham10k"])
  ∧ ("cifar10" ≠ "femnist")
  ∧ is_ValueError (toy.fedavg_run "cifar10").2
  ∧ no_context_or_logger (toy.fedavg_run "cifar10").1
  ∧ is_ValueError (toy.hierarchical_run "cifar10").2
  ∧ no_context_or_logger (toy.hierarchical_run "cifar10").1.
Proof.
  assert ("cifar10" ∉ ["femnist"; "mnist"; "ham10k"]) as Hnot
    by (apply (bool_decide_unpack _); reflexivity).
  assert ("cifar10" ≠ "femnist") as Hne by discriminate.
  split; [exact Hnot|]. split; [exact Hne|].
  destruct (proj1 (@unknown_dataset_raises toy.types toy.framework "cifar10") Hnot
              123123123 "0.1" "femnist" 50 ["0.1"; "0.2"] 3 10 367%nat
              "SGD 0.1" 3 "CNN" () ()) as (_ & Hraise1 & Htrace1).
  destruct (proj2 (@unknown_dataset_raises toy.types toy.framework "cifar10") Hne
              123123123 ["0.068"; "0.1"] "hpsearch" 75 [5; 10] ["0.1"; "0.2"]
              3 10 367%nat 250 15 3 "CNN" "AlternativePartitioner" "ward"
              "distance" "euclidean"
              (hierarchical_clustering_fedavg.iterable ["3.5"; "4.0"]))
    as (_ & Hraise2 & Htrace2).
  exact (conj Hraise1 (conj Htrace1 (conj Hraise2 Htrace2))).
Defined.

Lemma cluster_stage_restores_checkpoint_witness :
  ∃ pre block post fedavg_context,
    (toy.hierarchical_run "femnist").1 = pre ++ block ++ post
    ∧ ctx_client_fraction fedavg_context = "0.2"
    ∧ ctx_lr fedavg_context = "0.1"
    ∧ hierarchical_clustering_fedavg.restores_and_clusters 75 3
        "server" ["client 0"; "client 1"] fedavg_context 10 "3.5" block.
Proof.
  destruct (@cluster_stage_restores_checkpoint toy.types toy.framework
              123123123 ["0.068"; "0.1"] "hpsearch" 75 [5; 10] ["0.1"; "0.2"]
              3 10 367%nat 250 15 3 "CNN" "femnist" "AlternativePartitioner"
              "ward" "distance" "euclidean"
              (hierarchical_clustering_fedavg.iterable ["3.5"; "4.0"])
              "femnist_scratched" "0.2" "0.1" 10 "3.5")
    as (pre & block & post & fedavg_context & Htrace & Hsame & Hblock).
  - reflexivity.
  - apply (bool_decide_unpack _); reflexivity.
  - apply (bool_decide_unpack _); reflexivity.
  - apply (bool_decide_unpack _); reflexivity.
  - apply (bool_decide_unpack _); reflexivity.
  - exists pre, block, post, fedavg_context.
    destruct Hsame as (_ & Hcf & _ & Hlr & _).
    exact (conj Htrace (conj (eq_sym Hcf) (conj (eq_sym Hlr) Hblock))).
Defined.

Lemma dataset_distribution_logged_once_witness :
  logged_once_in_first_iteration 123123123
    (mkContext "femnist" "0.1" 3 "0.1" 10 "SGD 0.1" "CNN" 3 "mnist" None)
    "mnist" (toy.fedavg_run "mnist").1
  ∧ logged_once_in_first_iteration 123123123
      (mkContext "hpsearch" "0.1" 3 "0.068" 10 "SGD 0.068" "CNN SGD 0.068" 3
         "femnist" None)
      "femnist_scratched" (toy.hierarchical_run "femnist").1.
Proof.
  split.
  - apply (proj1 (@dataset_distribution_logged_once toy.types toy.framework)
             123123123 "0.1" "femnist" 50 ["0.1"; "0.2"] 3 10 367%nat
             "SGD 0.1" 3 "CNN" "mnist" () () "mnist" "default" "0.1" ["0.2"]);
      reflexivity.
  - apply (proj2 (@dataset_distribution_logged_once toy.types toy.framework)
             123123123 ["0.068"; "0.1"] "hpsearch" 75 [5; 10] ["0.1"; "0.2"]
             3 10 367%nat 250 15 3 "CNN" "femnist" "AlternativePartitioner"
             "ward" "distance" "euclidean"
             (hierarchical_clustering_fedavg.iterable ["3.5"; "4.0"])
             "femnist_scratched" "0.1" ["0.2"] "0.068" ["0.1"]);
      reflexivity.
Defined.

End driver_examples.

(** ** [numpy.random.choice] without replacement *)

Section choice_proofs.
Context {R : Type} `{!RandomGen R} {A : Type}.
Implicit Types (a : list A) (r : R).

Lemma choice_too_large a size r :
  (length a < size)%nat → is_ValueError (numpy.choice a size r).1.
Proof. intros Hlt. unfold numpy.choice. by rewrite decide_True. Qed.

(** A sample that fits is a prefix of a permutation of the population:
    no position is drawn twice. *)
Lemma choice_fits a size r :
  (size ≤ length a)%nat →
  ∃ sample rest r',
    numpy.choice a size r = (inr sample, r')
    ∧ length sample = size
    ∧ sample ++ rest ≡ₚ a.
Proof.
  intros Hle. unfold numpy.choice. rewrite decide_False by lia.
  pose proof (rand_permutation_Permutation A a r) as Hperm.
  destruct (rand_permutation a r) as [p r']. simpl in Hperm.
  exists (take size p), (drop size p), r'. split; [done|].
  rewrite length_take, take_drop, (Permutation_length Hperm). split; [lia|done].
Qed.

End choice_proofs.

(** ** [load_femnist_dataset] *)

Section femnist_proofs.
Import structs femnist.
Context {R : Type} `{!RandomGen R} {P T : Type}.
Variable load_data : bool → string → HDF5ClientData P * HDF5ClientData P.
Variable unsqueeze : P → T.

Lemma select_clients_spec (emnist_train : HDF5ClientData P) num_clients
    sample_threshold (r : R) :
  sample_threshold ≠ -1 →
  let eligible := clients_exceeding_threshold emnist_train sample_threshold in
  (length eligible < num_clients)%nat
  ∧ is_ValueError (select_clients emnist_train num_clients sample_threshold r)
  ∨ (num_clients ≤ length eligible)%nat
    ∧ ∃ selected rest r',
        select_clients emnist_train num_clients sample_threshold r
        = inr (selected, r')
        ∧ length selected = num_clients
        ∧ selected ++ rest ≡ₚ eligible.
Proof.
  intros Hthreshold eligible.
  assert (length eligible ≤ length (client_ids emnist_train))%nat as Hle
    by apply length_filter.
  unfold select_clients.
  destruct (decide (length (client_ids emnist_train) < num_clients)%nat) as [Hfew|Hmany].
  - left. split; [lia|].
    pose proof (choice_too_large (client_ids emnist_train) num_clients r Hfew) as Herr.
    destruct (numpy.choice _ _ r) as [[e|?] ?]; [|done]. by destruct e.
  - destruct (choice_fits (client_ids emnist_train) num_clients r)
      as (first & _ & r1 & -> & _); [lia|].
    rewrite decide_True by done. fold eligible.
    destruct (decide (length eligible < num_clients)%nat) as [Hlt|Hge].
    + left. by split.
    + right. split; [lia|].
      destruct (choice_fits eligible num_clients r1)
        as (selected & rest & r2 & -> & Hlen & Hperm); [lia|].
      by exists selected, rest, r2.
Qed.

(** One pass of the loop: both loaders are built exactly when the batch
    size is positive, and then the five dictionaries get their
    entries for [client_id]. *)
Lemma add_femnist_client_inr emnist_train emnist_test batch_size client_id
    (d d' : femnist_dicts) :
  add_femnist_client unsqueeze emnist_train emnist_test batch_size client_id d
  = inr d' →
  0 < batch_size
  ∧ d'
    = {| f_train_data_local_dict :=
           <[client_id :=
               mkDataLoader
                 (mkFEMNISTDataset (h5_label emnist_train client_id)
                    (unsqueeze (h5_pixels emnist_train client_id)))
                 batch_size false false]> (f_train_data_local_dict d);
         f_data_local_train_num_dict :=
           <[client_id := length (h5_label emnist_train client_id)]>
             (f_data_local_train_num_dict d);
         f_test_data_local_dict :=
           <[client_id :=
               mkDataLoader
                 (mkFEMNISTDataset (h5_label emnist_test client_id)
                    (unsqueeze (h5_pixels emnist_test client_id)))
                 batch_size false false]> (f_test_data_local_dict d);
         f_data_local_test_num_dict :=
           <[client_id := length (h5_label emnist_test client_id)]>
             (f_data_local_test_num_dict d);
         f_data_local_num_dict :=
           <[client_id := length (h5_label emnist_train client_id)]>
             (f_data_local_num_dict d) |}.
Proof.
  unfold add_femnist_client. cbn [labels].
  destruct (DataLoader_init _ _ batch_size false false) as [e|dl_train] eqn:Htrain;
    [done|].
  destruct (DataLoader_init _ _ batch_size false false) as [e|dl_test] eqn:Htest
    in |- *; [done|].
  apply DataLoader_init_inr in Htrain as (-> & Hbatch & _).
  apply DataLoader_init_inr in Htest as (-> & _ & _).
  by intros [= <-].
Qed.

Lemma add_femnist_client_ok emnist_train emnist_test batch_size client_id
    (d : femnist_dicts) :
  0 < batch_size →
  ∃ d',
    add_femnist_client unsqueeze emnist_train emnist_test batch_size client_id d
    = inr d'.
Proof.
  intros Hbatch. unfold add_femnist_client.
  rewrite !DataLoader_init_ok by done. by eexists.
Qed.

Lemma add_femnist_client_inl emnist_train emnist_test batch_size client_id
    (d : femnist_dicts) e :
  add_femnist_client unsqueeze emnist_train emnist_test batch_size client_id d
  = inl e →
  ∃ msg, e = ValueError msg.
Proof.
  unfold add_femnist_client.
  destruct (DataLoader_init _ _ batch_size false false) as [e1|dl_train] eqn:Htrain.
  { intros [= <-]. by apply DataLoader_init_inl in Htrain as [? _]. }
  destruct (DataLoader_init _ _ batch_size false false) as [e2|dl_test] eqn:Htest
    in |- *; [|done].
  intros [= <-]. by apply DataLoader_init_inl in Htest as [? _].
Qed.

(** The loop over [selected_client_ids] runs through for a positive
    batch size, and fails with [ValueError] only. *)
Lemma add_femnist_clients_ok emnist_train emnist_test batch_size selected :
  0 < batch_size →
  ∀ d : femnist_dicts,
    ∃ d',
      for_each (add_femnist_client unsqueeze emnist_train emnist_test batch_size)
               selected d
      = inr d'.
Proof.
  intros Hbatch. induction selected as [|client_id selected IH]; intros d.
  - by exists d.
  - cbn [for_each].
    destruct (add_femnist_client_ok emnist_train emnist_test batch_size client_id
                d Hbatch) as [d1 ->].
    apply IH.
Qed.

Lemma add_femnist_clients_inl emnist_train emnist_test batch_size selected e :
  ∀ d : femnist_dicts,
    for_each (add_femnist_client unsqueeze emnist_train emnist_test batch_size)
             selected d
    = inl e →
    ∃ msg, e = ValueError msg.
Proof.
  induction selected as [|client_id selected IH]; intros d; [done|].
  cbn [for_each].
  destruct (add_femnist_client _ _ _ _ client_id d) as [e1|d1] eqn:Hadd.
  - intros [= <-]. by eapply add_femnist_client_inl.
  - apply IH.
Qed.

Lemma add_femnist_clients_dom emnist_train emnist_test batch_size selected :
  ∀ d d' : femnist_dicts,
    for_each (add_femnist_client unsqueeze emnist_train emnist_test batch_size)
             selected d
    = inr d' →
    dom (f_train_data_local_dict d')
    = list_to_set selected ∪ dom (f_train_data_local_dict d).
Proof.
  induction selected as [|client_id selected IH]; intros d d'.
  - intros [= <-]. by rewrite list_to_set_nil, (left_id_L ∅ (∪)).
  - cbn [for_each].
    destruct (add_femnist_client _ _ _ _ client_id d) as [e1|d1] eqn:Hadd; [done|].
    intros Hloop. rewrite (IH _ _ Hloop).
    apply add_femnist_client_inr in Hadd as [_ ->].
    cbn [f_train_data_local_dict]. rewrite dom_insert_L.
    by rewrite (assoc_L (∪)), (comm_L (∪) (list_to_set selected)).
Qed.

(** C4, for a positive batch size.  With a threshold other than [-1],
    [load_femnist_dataset] takes a client to be eligible exactly when
    it has strictly more training samples than [sample_threshold]; for
    a positive batch size it raises [ValueError] exactly when fewer
    than [num_clients] clients are eligible; otherwise it loads
    [num_clients] clients, drawn from the eligible ones without drawing
    one twice, and these are pairwise distinct since client ids are. *)
Theorem femnist_client_selection data_dir num_clients batch_size only_digits
    sample_threshold random_seed :
  sample_threshold ≠ -1 →
  0 < batch_size →
  let emnist_train := (load_data only_digits data_dir).1 in
  let eligible := clients_exceeding_threshold emnist_train sample_threshold in
  let loaded :=
    load_femnist_dataset (R := R) load_data unsqueeze data_dir num_clients
      batch_size only_digits sample_threshold random_seed in
  (∀ client_id,
     client_id ∈ eligible
     ↔ client_id ∈ client_ids emnist_train
       ∧ sample_threshold < Z.of_nat (length (h5_label emnist_train client_id)))
  ∧ (is_ValueError loaded ↔ (length eligible < num_clients)%nat)
  ∧ (¬ (length eligible < num_clients)%nat →
     ∃ fed_dataset selected rest,
       loaded = inr fed_dataset
       ∧ dom (train_data_local_dict fed_dataset) = list_to_set selected
       ∧ length selected = num_clients
       ∧ selected ++ rest ≡ₚ eligible
       ∧ (∀ client_id, client_id ∈ selected → client_id ∈ eligible)
       ∧ (NoDup (client_ids emnist_train) →
          NoDup selected
          ∧ size (train_data_local_dict fed_dataset) = num_clients)).
Proof.
  intros Hthreshold Hbatch emnist_train eligible loaded.
  split.
  { intros client_id. unfold eligible, clients_exceeding_threshold.
    rewrite list_elem_of_filter. tauto. }
  subst loaded eligible emnist_train. unfold load_femnist_dataset.
  destruct (load_data only_digits data_dir) as [train test]. cbn [fst].
  pose proof (select_clients_spec train num_clients sample_threshold
                (rand_seed random_seed) Hthreshold) as Hselect.
  cbv zeta in Hselect.
  set (eligible := clients_exceeding_threshold train sample_threshold) in *.
  destruct Hselect
    as [[Hlt Herr]|[Hge (selected & rest & r' & Hsel & Hlen & Hperm)]].
  - destruct (select_clients _ _ _ _) as [[?|?|?]|[? ?]]; try done;
      (split; [done|intros; lia]).
  - rewrite Hsel.
    destruct (add_femnist_clients_ok train test batch_size selected Hbatch
                (mkFemnistDicts ∅ ∅ ∅ ∅ ∅)) as [d Hloop].
    rewrite Hloop. split; [split; [done|lia]|]. intros _.
    eexists _, selected, rest. split; [done|]. cbn [train_data_local_dict].
    rewrite (add_femnist_clients_dom _ _ _ _ _ _ Hloop).
    cbn [f_train_data_local_dict]. rewrite dom_empty_L.
    split; [by rewrite (right_id_L ∅ (∪))|]. split; [done|]. split; [done|]. split.
    + intros client_id Hin. rewrite <- Hperm. apply elem_of_app. by left.
    + intros Hnd.
      assert (NoDup selected) as Hsel_nd.
      { apply (NoDup_app selected rest). rewrite Hperm. by apply NoDup_filter. }
      split; [done|].
      rewrite <- size_dom, (add_femnist_clients_dom _ _ _ _ _ _ Hloop).
      cbn [f_train_data_local_dict]. rewrite dom_empty_L.
      rewrite (right_id_L ∅ (∪)), size_list_to_set by done. done.
Qed.

End femnist_proofs.

Section femnist_examples.
Import structs femnist.

Example writers_eligible :
  clients_exceeding_threshold three_writers.1 250 = ["f0000_14"; "f0002_07"].
Proof. reflexivity. Qed.

Example load_two_writers :
  match load_writers 2 250 with
  | inr fed_dataset =>
      dom (train_data_local_dict fed_dataset)
      = ({[ "f0000_14"; "f0002_07" ]} : gset string)
      ∧ train_data_num fed_dataset = Some 560%nat
  | inl _ => False
  end.
Proof. split; reflexivity. Qed.

Example load_three_writers : is_ValueError (load_writers 3 250).
Proof. exact I. Qed.

Example load_writers_at_bound :
  match load_writers 1 259 with
  | inr fed_dataset =>
      dom (train_data_local_dict fed_dataset) = ({[ "f0002_07" ]} : gset string)
  | inl _ => False
  end
  ∧ is_ValueError (load_writers 1 300).
Proof. split; [reflexivity | exact I]. Qed.

(** Two writers are eligible and two are asked for, and still the
    loader raises [ValueError]: with a batch size of 0 no [DataLoader]
    can be built. *)
Lemma femnist_client_selection_counterexample :
  250 ≠ -1
  ∧ ¬ (length (clients_exceeding_threshold three_writers.1 250) < 2)%nat
  ∧ is_ValueError (load_writers_in_batches 0 2 250).
Proof.
  split; [discriminate|]. split; [vm_compute; lia|]. exact I.
Qed.

Lemma femnist_client_selection_witness :
  250 ≠ -1
  ∧ 0 < 10
  ∧ (is_ValueError (load_writers 2 250)
     ↔ (length (clients_exceeding_threshold three_writers.1 250) < 2)%nat).
Proof.
  assert (250 ≠ -1) as Hthreshold by discriminate.
  assert (0 < 10) as Hbatch by lia.
  split; [exact Hthreshold|]. split; [exact Hbatch|].
  exact (proj1 (proj2 (femnist_client_selection (R := nat)
                         (RandomGen0 := reversing_gen)
                         (λ _ _, three_writers) (λ pixels : unit, pixels)
                         "data" 2%nat 10 false 250 0 Hthreshold Hbatch))).
Defined.

End femnist_examples.

(** ** [load_mnist_dataset] *)

Section slice_proofs.
Context {A : Type}.
Implicit Types (l : list A) (lo hi : nat).

Lemma elem_of_slice lo hi l x :
  x ∈ slice lo hi l ↔ ∃ k, (lo ≤ k < hi)%nat ∧ l !! k = Some x.
Proof.
  unfold slice. rewrite elem_of_take. split.
  - intros (i & Hi & Hlt). rewrite lookup_drop in Hi.
    exists (lo + i)%nat. split; [lia|done].
  - intros (k & Hk & Hx). exists (k - lo)%nat. rewrite lookup_drop.
    replace (lo + (k - lo))%nat with k by lia. split; [done|lia].
Qed.

Lemma length_slice lo hi l :
  (hi ≤ length l)%nat → length (slice lo hi l) = (hi - lo)%nat.
Proof. intros Hhi. unfold slice. rewrite length_take, length_drop. lia. Qed.

Lemma slice_sublist lo hi l : slice lo hi l `sublist_of` l.
Proof. unfold slice. etrans; [apply sublist_take | apply sublist_drop]. Qed.

Lemma slice_NoDup lo hi l : NoDup l → NoDup (slice lo hi l).
Proof. intros Hnd. eapply sublist_NoDup; [done | apply slice_sublist]. Qed.

(** Slices over disjoint ranges of a duplicate-free list share no
    element. *)
Lemma slice_disjoint lo1 hi1 lo2 hi2 l x :
  NoDup l → (hi1 ≤ lo2 ∨ hi2 ≤ lo1)%nat →
  x ∈ slice lo1 hi1 l → x ∉ slice lo2 hi2 l.
Proof.
  intros Hnd Hranges (k1 & Hk1 & Hx1)%elem_of_slice (k2 & Hk2 & Hx2)%elem_of_slice.
  pose proof (NoDup_lookup _ _ _ _ Hnd Hx1 Hx2). lia.
Qed.

Lemma slice_StronglySorted {B} (f : A → B) (R : relation B) lo hi l :
  StronglySorted R (f <$> l) → StronglySorted R (f <$> slice lo hi l).
Proof.
  intros Hsorted. unfold slice. rewrite fmap_take, fmap_drop.
  rewrite <- (take_drop lo (f <$> l)) in Hsorted.
  apply StronglySorted_app_1_r in Hsorted.
  rewrite <- (take_drop (hi - lo) (drop lo (f <$> l))) in Hsorted.
  by apply StronglySorted_app_1_l in Hsorted.
Qed.

End slice_proofs.

Section shard_proofs.
Import femnist.
Implicit Types (idxs : list nat) (a b : nat).

Lemma shard_sizes : num_shards = 200%nat ∧ num_imgs = 300%nat.
Proof. done. Qed.

Lemma length_shard idxs a :
  length idxs = (num_shards * num_imgs)%nat → (a < num_shards)%nat →
  length (shard idxs a) = num_imgs.
Proof.
  intros Hlen Ha. unfold shard. rewrite length_slice; [lia|]. rewrite Hlen. nia.
Qed.

Lemma shard_NoDup idxs a : NoDup idxs → NoDup (shard idxs a).
Proof. apply slice_NoDup. Qed.

Lemma shard_disjoint idxs a b x :
  NoDup idxs → a ≠ b → x ∈ shard idxs a → x ∉ shard idxs b.
Proof. intros Hnd Hne. apply slice_disjoint; [done|]. nia. Qed.

Lemma shard_subseteq idxs a x : x ∈ shard idxs a → x ∈ idxs.
Proof. apply sublist_subseteq, slice_sublist. Qed.

End shard_proofs.

Section mnist_proofs.
Import structs femnist.
Context {R : Type} `{!RandomGen R} `{!SetOrder nat} `{!ArgSort}.
Implicit Types (idxs idx_shard : list nat) (partitions : gmap nat (list nat)).

(** The label-sorted index array is a permutation of all indices along
    which the labels ascend. *)
Lemma sorted_idxs_spec (labels : list Z) :
  length labels = (num_shards * num_imgs)%nat →
  ∃ idxs,
    sorted_idxs labels = inr idxs
    ∧ idxs ≡ₚ seq 0 (num_shards * num_imgs)
    ∧ StronglySorted Z.le ((λ j, labels !!! j) <$> idxs).
Proof.
  intros Hlen. unfold sorted_idxs. rewrite length_seq, decide_False by lia.
  pose proof (argsort_Permutation labels) as Hperm. rewrite Hlen in Hperm.
  assert ((λ j, seq 0 (num_shards * num_imgs) !!! j) <$> argsort labels
          = argsort labels) as ->.
  { rewrite <- (list_fmap_id (argsort labels)) at 2.
    apply Forall_fmap_ext, Forall_forall. intros j Hj.
    rewrite Hperm in Hj. apply elem_of_seq in Hj.
    by rewrite lookup_total_seq_lt by lia. }
  eexists. split; [done|]. split; [done|]. apply argsort_Sorted.
Qed.

Lemma shards_of_snoc used a b :
  shards_of (used ++ [(a, b)]) = shards_of used ++ [a; b].
Proof. unfold shards_of. by rewrite bind_app. Qed.

Lemma length_shards_of used : length (shards_of used) = (2 * length used)%nat.
Proof.
  unfold shards_of. induction used as [|pair used IH]; [done|].
  rewrite bind_cons, length_app, IH. simpl. lia.
Qed.

(** Two shards drawn from a duplicate-free pool, as a set. *)
Lemma rand_set_spec idx_shard (r : R) :
  NoDup idx_shard → (2 ≤ length idx_shard)%nat →
  ∃ chosen r' a b rest,
    numpy.choice idx_shard 2 r = (inr chosen, r')
    ∧ set_iter chosen = [a; b]
    ∧ a ≠ b
    ∧ [a; b] ++ rest ≡ₚ idx_shard
    ∧ set_iter (filter (λ s, s ∉ set_iter chosen) idx_shard) ≡ₚ rest.
Proof.
  intros Hnd Hlen.
  destruct (choice_fits idx_shard 2 r Hlen)
    as (chosen & rest & r' & Hchoice & Hlen2 & Hperm).
  assert (NoDup (chosen ++ rest)) as Hnd' by by rewrite Hperm.
  apply NoDup_app in Hnd' as (Hchosen & Hdisj & Hrest).
  assert (set_iter chosen ≡ₚ chosen) as Hset.
  { apply NoDup_Permutation; [apply set_iter_NoDup | done | apply set_iter_elem]. }
  pose proof (Permutation_length Hset) as Hlen_set. rewrite Hlen2 in Hlen_set.
  destruct (set_iter chosen) as [|a [|b [|]]] eqn:Hiter; try done.
  exists chosen, r', a, b, rest. split; [done|]. split; [done|].
  assert (NoDup [a; b]) as Hab by (rewrite Hset; done).
  split. { apply NoDup_cons in Hab as [Ha _]. intros ->. apply Ha. by left. }
  split; [by rewrite Hset|].
  apply NoDup_Permutation; [apply set_iter_NoDup | done |].
  intros s. rewrite set_iter_elem, list_elem_of_filter, <- Hperm, elem_of_app.
  rewrite ?set_iter_elem, ?Hset.
  split; [tauto|]. intros Hs. split; [|by right]. intros Hc. by apply (Hdisj s).
Qed.

Lemma assigned_length idxs num_clients i used idx_shard partitions :
  assigned idxs num_clients i used idx_shard partitions →
  (length idx_shard + 2 * i = num_shards)%nat.
Proof.
  intros (Hlen & _ & Hperm & _). apply Permutation_length in Hperm.
  rewrite length_app, length_shards_of, length_seq, Hlen in Hperm. lia.
Qed.

(** One client more: two shards leave the pool and make up the
    partition of client [i]. *)
Lemma assign_step idxs num_clients i used idx_shard partitions (r : R) :
  assigned idxs num_clients i used idx_shard partitions →
  (i < num_clients)%nat → (2 * i + 2 ≤ num_shards)%nat →
  ∃ a b idx_shard' partitions' r',
    assign idxs i (idx_shard, partitions, r) = inr (idx_shard', partitions', r')
    ∧ assigned idxs num_clients (S i) (used ++ [(a, b)]) idx_shard' partitions'.
Proof.
  intros Hinv Hi Hpool. pose proof (assigned_length _ _ _ _ _ _ Hinv) as Hlen.
  destruct Hinv as (Hused & Hnd & Hperm & Hdom & Hdone & Htodo).
  destruct (rand_set_spec idx_shard r Hnd)
    as (chosen & r' & a & b & rest & Hchoice & Hiter & Hab & Hsplit & Hrest); [lia|].
  unfold assign. rewrite Hchoice, Hiter. cbn [foldl].
  rewrite (Htodo i) by lia. rewrite lookup_insert_eq. cbn [default app].
  eexists a, b, _, _, r'. split; [done|].
  split; [rewrite length_app; simpl; lia|].
  split; [apply set_iter_NoDup|].
  split.
  { rewrite shards_of_snoc, <- Hiter, Hrest, Hiter, <- (assoc_L (++)), Hsplit.
    done. }
  split.
  { rewrite !dom_insert_L, Hdom.
    assert (i ∈ (list_to_set (seq 0 num_clients) : gset nat)) as Hin
      by (apply elem_of_list_to_set, elem_of_seq; lia).
    apply singleton_subseteq_l, subseteq_union_1_L in Hin.
    by rewrite (assoc_L (∪)), (idemp_L (∪)), Hin. }
  split.
  - intros j a' b' Hj. destruct (decide (j = i)) as [->|Hne].
    + rewrite lookup_app_r, Hused, Nat.sub_diag in Hj by lia.
      injection Hj as <- <-. by rewrite lookup_insert_eq.
    + rewrite !lookup_insert_ne by done. apply Hdone.
      apply lookup_app_Some in Hj as [Hj|[Hge Hj]]; [done|].
      rewrite Hused in Hge, Hj. apply lookup_lt_Some in Hj. simpl in Hj. lia.
  - intros j Hj. rewrite !lookup_insert_ne by lia. apply Htodo. lia.
Qed.

(** The loop from client [i] on. *)
Lemma assign_loop idxs num_clients (k : nat) :
  ∀ i used idx_shard partitions (r : R),
    assigned idxs num_clients i used idx_shard partitions →
    (i + k ≤ num_clients)%nat → (2 * (i + k) ≤ num_shards)%nat →
    ∃ used' idx_shard' partitions' r',
      for_each (assign idxs) (seq i k) (idx_shard, partitions, r)
      = inr (idx_shard', partitions', r')
      ∧ assigned idxs num_clients (i + k) used' idx_shard' partitions'.
Proof.
  induction k as [|k IH]; intros i used idx_shard partitions r Hinv Hclients Hpool.
  - rewrite Nat.add_0_r. by exists used, idx_shard, partitions, r.
  - cbn [seq for_each].
    destruct (assign_step idxs num_clients i used idx_shard partitions r Hinv)
      as (a & b & idx_shard1 & partitions1 & r1 & -> & Hinv1); [lia..|].
    destruct (IH (S i) _ idx_shard1 partitions1 r1 Hinv1)
      as (used' & idx_shard' & partitions' & r' & -> & Hinv'); [lia..|].
    exists used', idx_shard', partitions', r'. split; [done|].
    by replace (i + S k)%nat with (S i + k)%nat by lia.
Qed.

Lemma initial_partitions_keys (clients : list nat) :
  ((λ i, (i, @nil nat)) <$> clients).*1 = clients.
Proof. induction clients; csimpl; congruence. Qed.

Lemma initial_partitions_lookup num_clients j :
  (list_to_map ((λ i, (i, [])) <$> seq 0 num_clients) : gmap nat (list nat)) !! j
  = if decide (j < num_clients)%nat then Some [] else None.
Proof.
  destruct (decide (j < num_clients)%nat) as [Hlt|Hge].
  - apply elem_of_list_to_map_1.
    + rewrite initial_partitions_keys. apply NoDup_seq.
    + apply list_elem_of_fmap. exists j. split; [done|]. apply elem_of_seq. lia.
  - apply not_elem_of_list_to_map_1. rewrite initial_partitions_keys.
    intros Hj%elem_of_seq. lia.
Qed.

Lemma initial_assigned idxs num_clients :
  assigned idxs num_clients 0 [] (seq 0 num_shards)
    (list_to_map ((λ i, (i, [])) <$> seq 0 num_clients)).
Proof.
  split; [done|]. split; [apply NoDup_seq|]. split; [done|]. split.
  { by rewrite dom_list_to_map_L, initial_partitions_keys. }
  split; [by intros j a b ?|].
  intros j Hj. rewrite initial_partitions_lookup. by rewrite decide_True by lia.
Qed.

(** Lines 38 to 55 for at most 100 clients: every client gets two
    shards of the label-sorted indices, and no shard is used twice. *)
Lemma mnist_partitions_spec (labels : list Z) num_clients (r : R) :
  length labels = (num_shards * num_imgs)%nat →
  (num_clients ≤ 100)%nat →
  ∃ idxs used partitions r',
    sorted_idxs labels = inr idxs
    ∧ idxs ≡ₚ seq 0 (num_shards * num_imgs)
    ∧ StronglySorted Z.le ((λ j, labels !!! j) <$> idxs)
    ∧ mnist_partitions labels num_clients r = inr (partitions, r')
    ∧ length used = num_clients
    ∧ NoDup (shards_of used)
    ∧ (∀ s, s ∈ shards_of used → (s < num_shards)%nat)
    ∧ dom partitions = list_to_set (seq 0 num_clients)
    ∧ (∀ j a b, used !! j = Some (a, b) →
         partitions !! j = Some (shard idxs a ++ shard idxs b)).
Proof.
  intros Hlabels Hclients.
  destruct (sorted_idxs_spec labels Hlabels) as (idxs & Hidxs & Hperm & Hsorted).
  destruct (assign_loop idxs num_clients num_clients 0 [] (seq 0 num_shards) _ r
              (initial_assigned idxs num_clients))
    as (used & idx_shard & partitions & r' & Hloop & Hinv);
    [lia | destruct shard_sizes as [-> _]; lia |].
  destruct Hinv as (Hused & _ & Hpool & Hdom & Hdone & _).
  exists idxs, used, partitions, r'.
  split; [done|]. split; [done|]. split; [done|]. split.
  { unfold mnist_partitions. by rewrite Hidxs, Hloop. }
  assert (NoDup (shards_of used ++ idx_shard)) as Hnd
    by (rewrite Hpool; apply NoDup_seq).
  split; [done|]. split; [by apply NoDup_app in Hnd as [? _]|]. split; [|done].
  intros s Hs.
  assert (s ∈ seq 0 num_shards) as Hin
    by (rewrite <- Hpool; apply elem_of_app; by left).
  apply elem_of_seq in Hin. lia.
Qed.

(** One pass of the loop over [enumerate(partitions)], when both
    loaders can be built. *)
Lemma add_loaders_ok dataset_train dataset_test partitions
    (test_idxs : list (list nat)) batch_size i (d : local_dicts)
    partition test_idx :
  partitions !! i = Some partition → test_idxs !! i = Some test_idx →
  0 < batch_size → (0 < length partition)%nat → (0 < length test_idx)%nat →
  add_loaders dataset_train dataset_test partitions test_idxs batch_size i d
  = inr {| l_train_data_local_dict :=
             <[i := mkDataLoader (mkDatasetSplit dataset_train partition)
                      batch_size true false]> (l_train_data_local_dict d);
           l_test_data_local_dict :=
             <[i := mkDataLoader (mkDatasetSplit dataset_test test_idx)
                      batch_size true false]> (l_test_data_local_dict d);
           l_data_local_test_num_dict :=
             <[i := Z.to_nat ((Z.of_nat (length test_idx) + batch_size - 1)
                              `div` batch_size)]>
               (l_data_local_test_num_dict d);
           l_data_local_train_num_dict :=
             <[i := Z.to_nat ((Z.of_nat (length partition) + batch_size - 1)
                              `div` batch_size)]>
               (l_data_local_train_num_dict d);
           l_data_local_num_dict :=
             <[i := (Z.to_nat ((Z.of_nat (length test_idx) + batch_size - 1)
                               `div` batch_size)
                     + Z.to_nat ((Z.of_nat (length partition) + batch_size - 1)
                                 `div` batch_size))%nat]>
               (l_data_local_num_dict d) |}.
Proof.
  intros Hp Ht Hbatch Hpartition Htest. unfold add_loaders.
  rewrite Hp, DataLoader_init_ok, Ht, DataLoader_init_ok by done. done.
Qed.

(** The loop over [enumerate(partitions)], for a positive batch size
    and non-empty partitions and test parts: it wraps every partition
    and every test part into a loader and records the numbers of
    batches. *)
Lemma add_loaders_loop dataset_train dataset_test partitions
    (test_idxs : list (list nat)) batch_size (k : nat) :
  0 < batch_size →
  ∀ i (d : local_dicts),
    (∀ j, (i ≤ j < i + k)%nat →
          ∃ partition test_idx,
            partitions !! j = Some partition ∧ test_idxs !! j = Some test_idx
            ∧ (0 < length partition)%nat ∧ (0 < length test_idx)%nat) →
    ∃ d',
      for_each (add_loaders dataset_train dataset_test partitions test_idxs batch_size)
               (seq i k) d
      = inr d'
      ∧ (∀ j,
           l_train_data_local_dict d' !! j
           = if decide (i ≤ j < i + k)%nat
             then (λ partition,
                     mkDataLoader (mkDatasetSplit dataset_train partition)
                                  batch_size true false) <$> partitions !! j
             else l_train_data_local_dict d !! j)
      ∧ (∀ j partition test_idx,
           (i ≤ j < i + k)%nat →
           partitions !! j = Some partition → test_idxs !! j = Some test_idx →
           l_test_data_local_dict d' !! j
           = Some (mkDataLoader (mkDatasetSplit dataset_test test_idx)
                     batch_size true false)
           ∧ l_data_local_test_num_dict d' !! j
             = Some (Z.to_nat ((Z.of_nat (length test_idx) + batch_size - 1)
                               `div` batch_size))
           ∧ l_data_local_train_num_dict d' !! j
             = Some (Z.to_nat ((Z.of_nat (length partition) + batch_size - 1)
                               `div` batch_size))
           ∧ l_data_local_num_dict d' !! j
             = Some (Z.to_nat ((Z.of_nat (length test_idx) + batch_size - 1)
                               `div` batch_size)
                     + Z.to_nat ((Z.of_nat (length partition) + batch_size - 1)
                                 `div` batch_size))%nat)
      ∧ (∀ j, ¬ (i ≤ j < i + k)%nat →
           l_test_data_local_dict d' !! j = l_test_data_local_dict d !! j
           ∧ l_data_local_test_num_dict d' !! j = l_data_local_test_num_dict d !! j
           ∧ l_data_local_train_num_dict d' !! j
             = l_data_local_train_num_dict d !! j
           ∧ l_data_local_num_dict d' !! j = l_data_local_num_dict d !! j).
Proof.
  intros Hbatch. induction k as [|k IH]; intros i d Hsome.
  - exists d. split; [done|]. split; [|split; [intros; lia|done]].
    intros j. by rewrite decide_False by lia.
  - cbn [seq for_each].
    destruct (Hsome i) as (partition & test_idx & Hp & Ht & Hlp & Hlt); [lia|].
    rewrite (add_loaders_ok dataset_train dataset_test partitions test_idxs
               batch_size i d partition test_idx Hp Ht Hbatch Hlp Hlt).
    match goal with
    | |- context [for_each _ _ ?d1] =>
        destruct (IH (S i) d1) as (d' & -> & Hd' & Hin & Hout);
          [intros; apply Hsome; lia|]
    end.
    exists d'. split; [done|]. split; [|split].
    + intros j. rewrite Hd'. cbn [l_train_data_local_dict].
      destruct (decide (S i ≤ j < S i + k)%nat), (decide (i ≤ j < i + S k)%nat);
        try lia; [done| |].
      * assert (j = i) as -> by lia. by rewrite lookup_insert_eq, Hp.
      * by rewrite lookup_insert_ne by lia.
    + intros j partition' test_idx' Hj Hp' Ht'.
      destruct (decide (j = i)) as [->|Hne].
      * destruct (Hout i) as (-> & -> & -> & ->); [lia|].
        cbn [l_test_data_local_dict l_data_local_test_num_dict
             l_data_local_train_num_dict l_data_local_num_dict].
        rewrite !lookup_insert_eq. by simplify_eq.
      * apply Hin; [lia|done..].
    + intros j Hj. destruct (Hout j) as (-> & -> & -> & ->); [lia|].
      cbn [l_test_data_local_dict l_data_local_test_num_dict
           l_data_local_train_num_dict l_data_local_num_dict].
      by rewrite !lookup_insert_ne by lia.
Qed.

Lemma used_shards_distinct (used : list (nat * nat)) i j a b c d :
  NoDup (shards_of used) →
  used !! i = Some (a, b) → used !! j = Some (c, d) →
  a ≠ b ∧ (i ≠ j → a ≠ c ∧ a ≠ d ∧ b ≠ c ∧ b ≠ d).
Proof.
  revert i j a b c d.
  induction used as [|[x y] used IH]; intros i j a b c d Hnd Hi Hj; [done|].
  unfold shards_of in Hnd. rewrite bind_cons in Hnd. fold (shards_of used) in Hnd.
  cbn [fst snd app] in Hnd.
  apply NoDup_cons in Hnd as [Hx Hnd]. apply NoDup_cons in Hnd as [Hy Hnd].
  assert (∀ k p q, used !! k = Some (p, q) →
            p ∈ shards_of used ∧ q ∈ shards_of used) as Hmem.
  { intros k p q Hk. apply list_elem_of_lookup_2 in Hk. unfold shards_of.
    split; apply list_elem_of_bind; exists (p, q); (split; [|done]); simpl.
    - by left.
    - right. by left. }
  apply not_elem_of_cons in Hx as [Hxy Hx].
  destruct i as [|i], j as [|j]; simpl in Hi, Hj; simplify_eq.
  - split; [done|]. by intros [].
  - destruct (Hmem _ _ _ Hj). split; [done|]. intros _.
    repeat split; intros ->; done.
  - destruct (Hmem _ _ _ Hi). split.
    + by destruct (IH i i _ _ _ _ Hnd Hi Hi).
    + intros _. repeat split; intros ->; done.
  - destruct (IH i j _ _ _ _ Hnd Hi Hj) as [? Hij]. split; [done|].
    intros Hne. apply Hij. congruence.
Qed.

End mnist_proofs.

Section mnist_theorems.
Import structs femnist.
Context {R : Type} `{!RandomGen R} `{!SetOrder nat} `{!ArgSort}.
Variable mnist_targets : string → bool → list Z.

(** The test set splits into 200 non-empty parts. *)
Lemma test_part_positive (n : nat) :
  (n `mod` num_shards = 0)%nat → (0 < n)%nat → (0 < n `div` num_shards)%nat.
Proof.
  intros Hmod Hn. pose proof (Nat.div_mod_eq n num_shards) as Hdiv.
  rewrite Hmod in Hdiv. destruct (n `div` num_shards)%nat; lia.
Qed.

(** What [load_mnist_dataset] returns on the MNIST files, for at most
    100 clients and a positive batch size: the shards behind every
    training loader, the test loader of every client, the counts, and
    the global loaders. *)
Lemma load_mnist_dataset_clients data_dir num_clients batch_size (r : R) :
  length (mnist_targets data_dir true) = (num_shards * num_imgs)%nat →
  (length (mnist_targets data_dir false) `mod` num_shards = 0)%nat →
  (0 < length (mnist_targets data_dir false))%nat →
  (num_clients ≤ 100)%nat →
  0 < batch_size →
  let dataset_train := datasets_MNIST mnist_targets data_dir true in
  let dataset_test := datasets_MNIST mnist_targets data_dir false in
  let per_client := (length (mnist_targets data_dir false) `div` num_shards)%nat in
  ∃ fed_dataset r' idxs used,
    load_mnist_dataset mnist_targets data_dir num_clients batch_size r
    = inr (fed_dataset, r')
    ∧ sorted_idxs (mnist_targets data_dir true) = inr idxs
    ∧ idxs ≡ₚ seq 0 (num_shards * num_imgs)
    ∧ StronglySorted Z.le ((λ j, mnist_targets data_dir true !!! j) <$> idxs)
    ∧ length used = num_clients
    ∧ NoDup (shards_of used)
    ∧ (∀ s, s ∈ shards_of used → (s < num_shards)%nat)
    ∧ (∀ i, train_data_local_dict fed_dataset !! i
            = (λ '(a, b),
                 train_loader dataset_train batch_size
                   (shard idxs a ++ shard idxs b)) <$> used !! i)
    ∧ train_data_global fed_dataset
      = Some (mkDataLoader dataset_test batch_size true false)
    ∧ test_data_global fed_dataset
      = Some (mkDataLoader dataset_train batch_size true false)
    ∧ (∀ i, (i < num_clients)%nat →
         test_data_local_dict fed_dataset !! i
         = Some (mkDataLoader
                   (mkDatasetSplit dataset_test (seq (i * per_client) per_client))
                   batch_size true false)
         ∧ data_local_test_num_dict fed_dataset !! i
           = Some (Z.to_nat ((Z.of_nat per_client + batch_size - 1)
                             `div` batch_size))
         ∧ data_local_train_num_dict fed_dataset !! i
           = Some (Z.to_nat ((Z.of_nat (2 * num_imgs) + batch_size - 1)
                             `div` batch_size))
         ∧ data_local_num_dict fed_dataset !! i
           = Some (Z.to_nat ((Z.of_nat per_client + batch_size - 1)
                             `div` batch_size)
                   + Z.to_nat ((Z.of_nat (2 * num_imgs) + batch_size - 1)
                               `div` batch_size))%nat)
    ∧ (∀ i, (num_clients ≤ i)%nat →
         test_data_local_dict fed_dataset !! i = None
         ∧ data_local_test_num_dict fed_dataset !! i = None
         ∧ data_local_train_num_dict fed_dataset !! i = None
         ∧ data_local_num_dict fed_dataset !! i = None).
Proof.
  intros Htrain Htest Hnonempty Hclients Hbatch dataset_train dataset_test
    per_client.
  destruct (mnist_partitions_spec (mnist_targets data_dir true) num_clients r
              Htrain Hclients)
    as (idxs & used & partitions & r' & Hidxs & Hperm & Hsorted & Hparts & Hused
        & Hnd & Hlt & Hdom & Hlookup).
  assert (length idxs = (num_shards * num_imgs)%nat) as Hlen
    by (by rewrite Hperm, length_seq).
  assert (0 < per_client)%nat as Hper by (by apply test_part_positive).
  assert (size partitions = num_clients) as Hsize.
  { by rewrite <- size_dom, Hdom, size_list_to_set, length_seq by apply NoDup_seq. }
  assert (∀ j, (j < num_shards)%nat →
            ((λ k, seq (k * per_client) per_client) <$> seq 0 num_shards) !! j
            = Some (seq (j * per_client) per_client)) as Htest_idxs.
  { intros j Hj. by rewrite list_lookup_fmap, lookup_seq_lt. }
  assert (∀ j a b, used !! j = Some (a, b) →
            a ∈ shards_of used ∧ b ∈ shards_of used) as Hshards.
  { intros j a b Hab. apply list_elem_of_lookup_2 in Hab.
    unfold shards_of. split; apply list_elem_of_bind; exists (a, b);
      (split; [|done]); cbn [fst snd].
    - apply list_elem_of_here.
    - apply list_elem_of_further, list_elem_of_here. }
  unfold load_mnist_dataset. cbn [targets datasets_MNIST]. rewrite Hparts.
  unfold split_arange. rewrite decide_False by (rewrite Htest; lia).
  rewrite Hsize. fold per_client. fold dataset_train. fold dataset_test.
  assert (∀ j, (0 ≤ j < 0 + num_clients)%nat →
            ∃ partition test_idx,
              partitions !! j = Some partition
              ∧ ((λ k, seq (k * per_client) per_client) <$> seq 0 num_shards) !! j
                = Some test_idx
              ∧ (0 < length partition)%nat ∧ (0 < length test_idx)%nat) as Hsome.
  { intros j Hj.
    destruct (lookup_lt_is_Some_2 used j) as [[a b] Hab]; [lia|].
    destruct (Hshards j a b Hab) as [Ha Hb].
    exists (shard idxs a ++ shard idxs b), (seq (j * per_client) per_client).
    split; [by apply Hlookup|]. split.
    { apply Htest_idxs. destruct shard_sizes as [-> _]. lia. }
    rewrite length_app, length_seq, !length_shard by auto.
    destruct shard_sizes as [_ ->]. lia. }
  destruct (add_loaders_loop dataset_train dataset_test partitions _ batch_size
              num_clients Hbatch 0 (mkLocal ∅ ∅ ∅ ∅ ∅) Hsome)
    as (d & -> & Htrain_dict & Hin & Hout).
  rewrite !DataLoader_init_ok;
    [|done|intros _; rewrite Htrain; destruct shard_sizes as [-> ->]; lia
     |done|by intros _].
  eexists _, r', idxs, used. split; [done|].
  cbn [train_data_local_dict test_data_local_dict data_local_test_num_dict
       data_local_train_num_dict data_local_num_dict train_data_global
       test_data_global].
  split; [exact Hidxs|]. split; [exact Hperm|]. split; [exact Hsorted|].
  split; [exact Hused|]. split; [exact Hnd|]. split; [exact Hlt|].
  split; [|split; [reflexivity|split; [reflexivity|split]]].
  - intros i. rewrite Htrain_dict. cbn [l_train_data_local_dict].
    destruct (decide (0 ≤ i < 0 + num_clients)%nat) as [Hi|Hi].
    + destruct (lookup_lt_is_Some_2 used i) as [[a b] Hab]; [lia|].
      by rewrite Hab, (Hlookup i a b Hab).
    + rewrite lookup_empty. by rewrite lookup_ge_None_2 by lia.
  - intros i Hi.
    destruct (lookup_lt_is_Some_2 used i) as [[a b] Hab]; [lia|].
    destruct (Hshards i a b Hab) as [Ha Hb].
    destruct (Hin i (shard idxs a ++ shard idxs b) (seq (i * per_client) per_client))
      as (H1 & H2 & H3 & H4); [lia|by apply Hlookup| |].
    { apply Htest_idxs. destruct shard_sizes as [-> _]. lia. }
    rewrite length_seq in H2, H4.
    rewrite length_app, !length_shard in H3, H4 by auto.
    replace (num_imgs + num_imgs)%nat with (2 * num_imgs)%nat in H3, H4 by lia.
    done.
  - intros i Hi. destruct (Hout i) as (-> & -> & -> & ->); [lia|].
    cbn [l_test_data_local_dict l_data_local_test_num_dict
         l_data_local_train_num_dict l_data_local_num_dict].
    by rewrite !lookup_empty.
Qed.

(** The same, for the training loaders and the global loaders only. *)
Lemma load_mnist_dataset_partitions data_dir num_clients batch_size (r : R) :
  length (mnist_targets data_dir true) = (num_shards * num_imgs)%nat →
  (length (mnist_targets data_dir false) `mod` num_shards = 0)%nat →
  (0 < length (mnist_targets data_dir false))%nat →
  (num_clients ≤ 100)%nat →
  0 < batch_size →
  ∃ fed_dataset r' idxs used,
    load_mnist_dataset mnist_targets data_dir num_clients batch_size r
    = inr (fed_dataset, r')
    ∧ sorted_idxs (mnist_targets data_dir true) = inr idxs
    ∧ idxs ≡ₚ seq 0 (num_shards * num_imgs)
    ∧ StronglySorted Z.le ((λ j, mnist_targets data_dir true !!! j) <$> idxs)
    ∧ length used = num_clients
    ∧ NoDup (shards_of used)
    ∧ (∀ s, s ∈ shards_of used → (s < num_shards)%nat)
    ∧ (∀ i, train_data_local_dict fed_dataset !! i
            = (λ '(a, b),
                 train_loader (datasets_MNIST mnist_targets data_dir true)
                   batch_size (shard idxs a ++ shard idxs b)) <$> used !! i)
    ∧ train_data_global fed_dataset
      = Some (mkDataLoader (datasets_MNIST mnist_targets data_dir false)
                batch_size true false)
    ∧ test_data_global fed_dataset
      = Some (mkDataLoader (datasets_MNIST mnist_targets data_dir true)
                batch_size true false).
Proof.
  intros Htrain Htest Hnonempty Hclients Hbatch.
  destruct (load_mnist_dataset_clients data_dir num_clients batch_size r Htrain
              Htest Hnonempty Hclients Hbatch)
    as (fed_dataset & r' & idxs & used & H1 & H2 & H3 & H4 & H5 & H6 & H7 & H8
        & H9 & H10 & _).
  by exists fed_dataset, r', idxs, used.
Qed.

(** A batch size that is not positive: the first [DataLoader] that the
    loader constructs raises [ValueError]. *)
Lemma load_mnist_dataset_not_positive data_dir num_clients batch_size (r : R) :
  length (mnist_targets data_dir true) = (num_shards * num_imgs)%nat →
  (length (mnist_targets data_dir false) `mod` num_shards = 0)%nat →
  (num_clients ≤ 100)%nat →
  batch_size ≤ 0 →
  is_ValueError
    (load_mnist_dataset mnist_targets data_dir num_clients batch_size r).
Proof.
  intros Htrain Htest Hclients Hbatch.
  destruct (mnist_partitions_spec (mnist_targets data_dir true) num_clients r
              Htrain Hclients)
    as (idxs & used & partitions & r' & Hidxs & Hperm & Hsorted & Hparts & Hused
        & Hnd & Hlt & Hdom & Hlookup).
  assert (size partitions = num_clients) as Hsize.
  { by rewrite <- size_dom, Hdom, size_list_to_set, length_seq by apply NoDup_seq. }
  unfold load_mnist_dataset. cbn [targets datasets_MNIST]. rewrite Hparts.
  unfold split_arange. rewrite decide_False by (rewrite Htest; lia).
  rewrite Hsize. destruct num_clients as [|n]; cbn [seq for_each].
  - match goal with
    | |- context [DataLoader_init ?n ?ds batch_size true false] =>
        destruct (DataLoader_init_not_positive n ds batch_size true false Hbatch)
          as [msg ->]
    end.
    exact I.
  - unfold add_loaders at 1.
    destruct (lookup_lt_is_Some_2 used 0) as [[a b] Hab]; [lia|].
    rewrite (Hlookup 0%nat a b Hab).
    match goal with
    | |- context [DataLoader_init ?n ?ds batch_size true false] =>
        destruct (DataLoader_init_not_positive n ds batch_size true false Hbatch)
          as [msg ->]
    end.
    exact I.
Qed.

End mnist_theorems.

Section mnist_claims.
Import structs femnist.
Context {R : Type} `{!RandomGen R} `{!SetOrder nat} `{!ArgSort}.
Variable mnist_targets : string → bool → list Z.

(** C3, for a positive batch size.  On the MNIST files (60000 training
    labels, and a non-empty list of test labels that splits into 200
    equal parts), for at most 100 clients and a positive batch size,
    [load_mnist_dataset] gives every client a training partition of
    exactly 600 different indices: two different shards out of the pool
    of 200, each a run of 300 entries of the label-sorted index array;
    the partitions of two different clients share no index.  For a
    batch size that is not positive the loader raises [ValueError]
    ([load_mnist_dataset_not_positive]). *)
Theorem mnist_training_partitions data_dir num_clients batch_size (r : R) :
  length (mnist_targets data_dir true) = (num_shards * num_imgs)%nat →
  (length (mnist_targets data_dir false) `mod` num_shards = 0)%nat →
  (0 < length (mnist_targets data_dir false))%nat →
  (num_clients ≤ 100)%nat →
  0 < batch_size →
  ∃ fed_dataset r' sorted,
    load_mnist_dataset mnist_targets data_dir num_clients batch_size r
    = inr (fed_dataset, r')
    ∧ sorted_idxs (mnist_targets data_dir true) = inr sorted
    ∧ num_shards = 200%nat ∧ num_imgs = 300%nat
    ∧ (∀ i, (i < num_clients)%nat →
         ∃ partition,
           train_data_local_dict fed_dataset !! i
           = Some (train_loader (datasets_MNIST mnist_targets data_dir true)
                     batch_size partition)
           ∧ length partition = 600%nat
           ∧ NoDup partition
           ∧ two_shards (mnist_targets data_dir true) sorted partition)
    ∧ (∀ i j p q x,
         i ≠ j →
         train_data_local_dict fed_dataset !! i = Some p →
         train_data_local_dict fed_dataset !! j = Some q →
         x ∈ idxs (dataset p) → x ∉ idxs (dataset q)).
Proof.
  intros Htrain Htest Hnonempty Hclients Hbatch.
  destruct (load_mnist_dataset_partitions mnist_targets data_dir num_clients
              batch_size r Htrain Htest Hnonempty Hclients Hbatch)
    as (fed_dataset & r' & sorted & used & Hload & Hsorted & Hperm & Hlabels
        & Hused & Hnd & Hlt & Hdict & _).
  assert (NoDup sorted) as Hnd_sorted by (rewrite Hperm; apply NoDup_seq).
  assert (length sorted = (num_shards * num_imgs)%nat) as Hlen
    by by rewrite (Permutation_length Hperm), length_seq.
  assert (∀ i a b, used !! i = Some (a, b) →
            (a < num_shards)%nat ∧ (b < num_shards)%nat) as Hbound.
  { intros i a b Hi. apply list_elem_of_lookup_2 in Hi.
    split; apply Hlt, list_elem_of_bind; exists (a, b); (split; [|done]); simpl.
    - by left.
    - right. by left. }
  exists fed_dataset, r', sorted. split; [done|]. split; [done|].
  split; [done|]. split; [done|]. split.
  - intros i Hi.
    destruct (lookup_lt_is_Some_2 used i) as [[a b] Hab]; [lia|].
    destruct (Hbound i a b Hab) as [Ha Hb].
    destruct (used_shards_distinct used i i a b a b Hnd Hab Hab) as [Hne _].
    exists (shard sorted a ++ shard sorted b).
    split; [by rewrite Hdict, Hab|].
    split; [rewrite length_app, !length_shard by done; done|].
    split.
    { apply NoDup_app. split; [by apply shard_NoDup|].
      split; [|by apply shard_NoDup]. intros x. by apply shard_disjoint. }
    exists a, b. rewrite !length_shard by done.
    repeat (split; [done|]). split; by apply slice_StronglySorted.
  - intros i j p q x Hij Hp Hq.
    rewrite Hdict in Hp, Hq.
    destruct (used !! i) as [[a b]|] eqn:Hi; [|done].
    destruct (used !! j) as [[c d]|] eqn:Hj; [|done].
    simpl in Hp, Hq. injection Hp as <-. injection Hq as <-.
    destruct (used_shards_distinct used i j a b c d Hnd Hi Hj)
      as [_ (Hac & Had & Hbc & Hbd)]; [done|].
    cbn [train_loader dataset idxs].
    intros [Hx|Hx]%elem_of_app [Hx'|Hx']%elem_of_app.
    + by apply (shard_disjoint sorted a c x).
    + by apply (shard_disjoint sorted a d x).
    + by apply (shard_disjoint sorted b c x).
    + by apply (shard_disjoint sorted b d x).
Qed.

(** C10.  In the data [load_mnist_dataset] returns, [train_data_global]
    is a loader over the MNIST test split and [test_data_global] a
    loader over the MNIST training split. *)
Theorem mnist_global_loaders_swapped data_dir num_clients batch_size (r : R)
    fed_dataset r' :
  load_mnist_dataset mnist_targets data_dir num_clients batch_size r
  = inr (fed_dataset, r') →
  ∃ train_data_global_loader test_data_global_loader,
    train_data_global fed_dataset = Some train_data_global_loader
    ∧ test_data_global fed_dataset = Some test_data_global_loader
    ∧ dataset train_data_global_loader = datasets_MNIST mnist_targets data_dir false
    ∧ mnist_train (dataset train_data_global_loader) = false
    ∧ dataset test_data_global_loader = datasets_MNIST mnist_targets data_dir true
    ∧ mnist_train (dataset test_data_global_loader) = true.
Proof.
  unfold load_mnist_dataset.
  destruct (mnist_partitions _ _ _) as [?|[partitions r1]]; [done|].
  destruct (split_arange _ _) as [?|test_idxs]; [done|].
  destruct (for_each _ _ _) as [?|d]; [done|].
  destruct (DataLoader_init _ (datasets_MNIST mnist_targets data_dir false) _ _ _)
    as [?|train_data_global_loader] eqn:Htrain; [done|].
  destruct (DataLoader_init _ (datasets_MNIST mnist_targets data_dir true) _ _ _)
    as [?|test_data_global_loader] eqn:Htest; [done|].
  apply DataLoader_init_inr in Htrain as [-> _].
  apply DataLoader_init_inr in Htest as [-> _].
  intros [= <- <-]. by eexists _, _.
Qed.

End mnist_claims.

(** *** A run of the model *)

Lemma merge_argsort_Permutation keys :
  merge_argsort keys ≡ₚ seq 0 (length keys).
Proof. apply merge_sort_Permutation. Qed.

Lemma merge_argsort_Sorted keys :
  StronglySorted Z.le ((λ j, keys !!! j) <$> merge_argsort keys).
Proof.
  apply (StronglySorted_fmap _ (λ i j, keys !!! i ≤ keys !!! j)); [done|].
  apply StronglySorted_merge_sort.
  - intros i j k. apply Z.le_trans.
  - intros i j. apply Z.le_ge_cases.
Qed.

Definition merge_ArgSort : ArgSort :=
  {| argsort := merge_argsort;
     argsort_Permutation := merge_argsort_Permutation;
     argsort_Sorted := merge_argsort_Sorted |}.

Section mnist_examples.
Import structs femnist.
Local Existing Instance remove_dups_order.
Local Existing Instance reversing_gen.
Local Existing Instance merge_ArgSort.

Example argsort_digits :
  argsort [5; 0; 4; 1; 9; 2; 1] = [1; 6; 3; 5; 2; 0; 4]%nat.
Proof. reflexivity. Qed.

(** Two clients drawing from a pool of four shards. *)
Example assign_two_clients :
  for_each (assign (seq 0 1200)) [0; 1]%nat
    ([0; 1; 2; 3]%nat, {[ 0%nat := []; 1%nat := [] ]}, 0%nat)
  = inr ([],
         {[ 0%nat := seq 900 300 ++ seq 600 300;
            1%nat := seq 300 300 ++ seq 0 300 ]},
         2%nat).
Proof. vm_compute. reflexivity. Qed.

Example assign_empty_pool :
  is_ValueError
    (assign (seq 0 1200) 2%nat ([], {[ 2%nat := [] ]}, 0%nat)).
Proof. exact I. Qed.

Lemma cyclic_targets_train :
  length (cyclic_targets "data" true) = (num_shards * num_imgs)%nat.
Proof. unfold cyclic_targets. by rewrite length_fmap, length_seq. Qed.

Lemma cyclic_targets_test :
  (length (cyclic_targets "data" false) `mod` num_shards = 0)%nat.
Proof.
  unfold cyclic_targets. rewrite length_fmap, length_seq. apply Nat.Div0.mod_mul.
Qed.

Lemma cyclic_targets_test_nonempty :
  (0 < length (cyclic_targets "data" false))%nat.
Proof.
  unfold cyclic_targets. rewrite length_fmap, length_seq.
  destruct shard_sizes as [-> _]. lia.
Qed.

Lemma positive_batch_size : 0 < 10.
Proof. lia. Qed.

(** On the MNIST-sized label files, with 100 clients, a batch size of
    0 leaves no client with a partition: the loader raises
    [ValueError]. *)
Lemma mnist_training_partitions_counterexample :
  length (cyclic_targets "data" true) = (num_shards * num_imgs)%nat
  ∧ (length (cyclic_targets "data" false) `mod` num_shards = 0)%nat
  ∧ (100 ≤ 100)%nat
  ∧ is_ValueError (load_mnist_dataset cyclic_targets "data" 100 0 0%nat)
  ∧ ¬ ∃ fed_dataset r',
        load_mnist_dataset cyclic_targets "data" 100 0 0%nat
        = inr (fed_dataset, r').
Proof.
  assert (0 ≤ 0) as Hbatch by lia.
  pose proof (load_mnist_dataset_not_positive cyclic_targets "data" 100 0 0%nat
                cyclic_targets_train cyclic_targets_test (le_n 100) Hbatch)
    as Herr.
  split; [exact cyclic_targets_train|]. split; [exact cyclic_targets_test|].
  split; [exact (le_n 100)|]. split; [exact Herr|].
  intros (fed_dataset & r' & Hload). by rewrite Hload in Herr.
Qed.

Lemma mnist_training_partitions_witness :
  ∃ fed_dataset r' sorted,
    load_mnist_dataset cyclic_targets "data" 100 10 0%nat = inr (fed_dataset, r')
    ∧ sorted_idxs (cyclic_targets "data" true) = inr sorted
    ∧ ∀ i, (i < 100)%nat →
        ∃ partition,
          train_data_local_dict fed_dataset !! i
          = Some (train_loader (datasets_MNIST cyclic_targets "data" true)
                    10 partition)
          ∧ length partition = 600%nat
          ∧ NoDup partition
          ∧ two_shards (cyclic_targets "data" true) sorted partition.
Proof.
  destruct (mnist_training_partitions cyclic_targets "data" 100 10 0%nat
              cyclic_targets_train cyclic_targets_test
              cyclic_targets_test_nonempty (le_n 100) positive_batch_size)
    as (fed_dataset & r' & sorted & Hload & Hsorted & _ & _ & Hparts & _).
  exact (ex_intro _ fed_dataset (ex_intro _ r' (ex_intro _ sorted
           (conj Hload (conj Hsorted Hparts))))).
Defined.

Lemma mnist_global_loaders_swapped_witness :
  ∃ fed_dataset r' train_data_global_loader test_data_global_loader,
    load_mnist_dataset cyclic_targets "data" 100 10 0%nat = inr (fed_dataset, r')
    ∧ train_data_global fed_dataset = Some train_data_global_loader
    ∧ test_data_global fed_dataset = Some test_data_global_loader
    ∧ mnist_train (dataset train_data_global_loader) = false
    ∧ mnist_train (dataset test_data_global_loader) = true.
Proof.
  destruct (load_mnist_dataset_partitions cyclic_targets "data" 100 10 0%nat
              cyclic_targets_train cyclic_targets_test
              cyclic_targets_test_nonempty (le_n 100) positive_batch_size)
    as (fed_dataset & r' & _ & _ & Hload & _).
  destruct (mnist_global_loaders_swapped cyclic_targets "data" 100 10 0%nat
              fed_dataset r' Hload)
    as (train_loader & test_loader & Htrain & Htest & _ & Hfalse & _ & Htrue).
  exact (ex_intro _ fed_dataset (ex_intro _ r' (ex_intro _ train_loader
           (ex_intro _ test_loader
              (conj Hload (conj Htrain (conj Htest (conj Hfalse Htrue)))))))).
Defined.

End mnist_examples.

(** ** [_make_omniglot_dataset] *)

Section omniglot_proofs.
Import structs omniglot.
Context {R : Type} `{!RandomGen R} `{!SetOrder nat} {image : Type}.
Variable listdir : string → list string.
Variable path_join : string → string → string.
Variable open_image : string → Z → image.

Local Abbreviation png_names := (omniglot.png_names listdir).
Local Abbreviation sample := (omniglot.sample listdir path_join open_image).
Local Abbreviation sample_classes :=
  (omniglot.sample_classes listdir path_join open_image).
Local Abbreviation _sample_mini_dataset :=
  (omniglot._sample_mini_dataset listdir path_join open_image).
Local Abbreviation add_client :=
  (omniglot.add_client listdir path_join open_image).
Local Abbreviation _make_omniglot_dataset :=
  (omniglot._make_omniglot_dataset listdir path_join open_image).

Lemma length_sample (self : Character) num_images (r : R) :
  length (sample self num_images r).1
  = Nat.min num_images (length (png_names self)).
Proof.
  unfold omniglot.sample, random.shuffle.
  pose proof (rand_permutation_Permutation _ (png_names self) r) as Hperm.
  destruct (rand_permutation _ r) as [names r']. simpl in *.
  by rewrite length_map, length_take, (Permutation_length Hperm).
Qed.

Lemma count_label_tagged (samples : list image) (class_idx label : nat) :
  count_label label (map (λ sample, (sample, class_idx)) samples)
  = if decide (class_idx = label) then length samples else 0%nat.
Proof.
  induction samples as [|s samples IH]; [by destruct (decide _)|].
  cbn [map]. rewrite count_label_cons, IH. cbn [snd length].
  destruct (decide (class_idx = label)); lia.
Qed.








End omniglot_proofs.

Section omniglot_examples.
Import structs omniglot.

Example png_names_two : png_names two_pngs (mkCharacter "Latin/character01" 0)
                        = ["0101_01.png"; "0101_02.png"].
Proof. reflexivity. Qed.

Example make_three_clients :
  match make_clients five_characters 3 5 1 with
  | inr (fed_dataset, _) =>
      train_data_num fed_dataset = Some 15%nat
      ∧ test_data_num fed_dataset = Some 15%nat
      ∧ data_local_num_dict fed_dataset !! 2%nat = Some 10%nat
  | inl _ => False
  end.
Proof. vm_compute. done. Qed.



End omniglot_examples.

(** * More of the code *)

(** ** [_split_train_test]: which items go where *)

Section split_order.
Import omniglot.
Context {I L : Type} `{EqDecision L}.
Implicit Types (xs train test : list (I * L)) (need : L → nat) (label : L).

Lemma drop_first_ext need1 need2 xs :
  (∀ x, x ∈ xs → need1 x.2 = need2 x.2) →
  drop_first need1 xs = drop_first need2 xs.
Proof.
  revert need1 need2. induction xs as [|x xs IH]; intros need1 need2 Hext; [done|].
  cbn [drop_first]. rewrite <- (Hext x) by left.
  destruct (need1 x.2) as [|n].
  - f_equal. apply IH. intros y Hy. apply Hext. by right.
  - apply IH. intros y Hy. unfold still.
    destruct (decide (y.2 = x.2)); [done|]. apply Hext. by right.
Qed.

Lemma drop_first_none xs : drop_first (λ _, 0%nat) xs = xs.
Proof. induction xs as [|x xs IH]; [done|]. cbn [drop_first]. by rewrite IH. Qed.

Lemma drop_take_first need xs : drop_first need xs ++ take_first need xs ≡ₚ xs.
Proof.
  revert need. induction xs as [|x xs IH]; intros need; [done|].
  cbn [drop_first take_first]. destruct (need x.2) as [|n].
  - cbn [app]. by rewrite IH.
  - by rewrite <- Permutation_middle, IH.
Qed.

Lemma drop_first_sublist need xs : drop_first need xs `sublist_of` xs.
Proof.
  revert need. induction xs as [|x xs IH]; intros need; [done|].
  cbn [drop_first]. destruct (need x.2).
  - by apply sublist_skip.
  - by apply sublist_cons.
Qed.

Lemma move_first_cons_ne x train test label :
  x.2 ≠ label →
  (move_first (x :: train, test) label).1 = x :: (move_first (train, test) label).1.
Proof.
  intros Hne. unfold move_first. cbn [list_find].
  rewrite decide_False by done.
  by destruct (list_find _ train) as [[i item]|].
Qed.

(** Moving the first item of [label] out of what is left asks for one
    item more of [label]. *)
Lemma move_first_drop label xs : ∀ need test,
  (move_first (drop_first need xs, test) label).1
  = drop_first (one_more label need) xs.
Proof.
  induction xs as [|x xs IH]; intros need test; [done|].
  cbn [drop_first]. unfold one_more at 1.
  destruct (need x.2) as [|n] eqn:Hneed.
  - destruct (decide (x.2 = label)) as [Heq|Hne].
    + unfold move_first. cbn [list_find]. rewrite decide_True by done.
      cbn [fst delete]. apply drop_first_ext. intros y _. unfold still, one_more.
      destruct (decide (y.2 = x.2)) as [->|]; [done|].
      by rewrite decide_False by congruence.
    + rewrite move_first_cons_ne by done. by rewrite IH.
  - rewrite IH. destruct (decide (x.2 = label)); apply drop_first_ext;
      intros y _; unfold still, one_more;
      destruct (decide (y.2 = x.2)) as [Hy|Hy], (decide (y.2 = label));
      congruence.
Qed.

Lemma one_shot_drop labels : ∀ need xs test,
  NoDup labels →
  (one_shot labels (drop_first need xs, test)).1
  = drop_first (λ l, if decide (l ∈ labels) then S (need l) else need l) xs.
Proof.
  unfold one_shot.
  induction labels as [|label labels IH]; intros need xs test Hnd; cbn [foldl].
  - apply drop_first_ext. intros y _.
    by destruct (decide (y.2 ∈ [])) as [?%elem_of_nil|].
  - apply NoDup_cons in Hnd as [Hlabel Hnd].
    pose proof (move_first_drop label xs need test) as Hmove.
    destruct (move_first (drop_first need xs, test) label) as [train1 test1].
    cbn [fst] in Hmove. subst train1. rewrite IH by done.
    apply drop_first_ext. intros y _. unfold one_more.
    destruct (decide (y.2 ∈ labels)) as [Hin|Hnin],
      (decide (y.2 = label)) as [Heq|Hne],
      (decide (y.2 ∈ label :: labels)) as [Hin'|Hnin'];
      rewrite ?elem_of_cons in *; subst; try done; tauto.
Qed.

Lemma shots_drop labels xs (k : nat) :
  NoDup labels →
  (Nat.iter k (one_shot labels) (xs, [])).1
  = drop_first (λ l, if decide (l ∈ labels) then k else 0%nat) xs.
Proof.
  intros Hnd. induction k as [|k IH].
  - cbn. rewrite <- (drop_first_none xs) at 1. apply drop_first_ext.
    intros y _. by destruct (decide _).
  - rewrite Nat.iter_succ. destruct (Nat.iter k _ _) as [train test].
    cbn [fst] in IH. subst train. rewrite one_shot_drop by done.
    apply drop_first_ext. intros y _. by destruct (decide _).
Qed.

End split_order.

Section split_order_theorems.
Import omniglot.
Context {I L : Type} `{EqDecision L} `{!SetOrder L}.

(** X1.  A [test_shots] of zero or less moves nothing: the split returns
    the input as the training list and an empty test list. *)
Theorem split_no_test_shots (samples : list (I * L)) (test_shots : Z) :
  test_shots ≤ 0 →
  _split_train_test samples test_shots = inr (samples, []).
Proof.
  intros Hle. unfold _split_train_test. rewrite Z2Nat.nonpos by done.
  cbn [Nat.iter nat_rect length]. rewrite decide_False by nia. done.
Qed.

(** X2.  When the split returns, the training list is the input without
    the first [test_shots] items of every label, in the order of the
    input, and the test list holds exactly those first items. *)
Theorem split_takes_first_items (samples : list (I * L)) (test_shots : Z)
    train test :
  _split_train_test samples test_shots = inr (train, test) →
  train = drop_first (λ _, Z.to_nat test_shots) samples
  ∧ test ≡ₚ take_first (λ _, Z.to_nat test_shots) samples
  ∧ train `sublist_of` samples.
Proof.
  unfold _split_train_test.
  pose proof (shots_drop (set_iter samples.*2) samples (Z.to_nat test_shots)
                (set_iter_NoDup _)) as Hdrop.
  destruct (Nat.iter _ _ _) as [train' test'] eqn:Hiter. cbn [fst] in Hdrop.
  apply shots_spec in Hiter as [Hperm _]; [|apply set_iter_NoDup].
  destruct (decide _); [done|]. intros [= <- <-].
  assert (train' = drop_first (λ _, Z.to_nat test_shots) samples) as ->.
  { rewrite Hdrop. apply drop_first_ext. intros y Hy.
    rewrite decide_True; [done|]. apply set_iter_elem, list_elem_of_fmap.
    by exists y. }
  split; [done|]. split; [|apply drop_first_sublist].
  apply (Permutation_app_inv_l (drop_first (λ _, Z.to_nat test_shots) samples)).
  by rewrite Hperm, drop_take_first.
Qed.

End split_order_theorems.

Section split_order_examples.
Import omniglot.
Local Existing Instance remove_dups_order.

Example drop_first_two :
  drop_first (λ _, 2%nat) task = [("e", 0%nat)]
  ∧ take_first (λ _, 2%nat) task
    = [("a", 0); ("b", 1); ("c", 0); ("d", 1)]%nat.
Proof. split; reflexivity. Qed.

Lemma split_no_test_shots_witness :
  -3 ≤ 0 ∧ _split_train_test task (-3) = inr (task, []).
Proof.
  assert (-3 ≤ 0) as Hle by lia.
  exact (conj Hle (split_no_test_shots task (-3) Hle)).
Defined.

Lemma split_takes_first_items_witness :
  _split_train_test task 1
  = inr ([("c", 0); ("d", 1); ("e", 0)], [("b", 1); ("a", 0)])%nat
  ∧ [("c", 0); ("d", 1); ("e", 0)]%nat = drop_first (λ _, Z.to_nat 1) task
  ∧ [("b", 1); ("a", 0)]%nat ≡ₚ take_first (λ _, Z.to_nat 1) task.
Proof.
  assert (_split_train_test task 1
          = inr ([("c", 0); ("d", 1); ("e", 0)], [("b", 1); ("a", 0)])%nat)
    as Hrun by reflexivity.
  destruct (split_takes_first_items task 1 _ _ Hrun) as (Htrain & Htest & _).
  exact (conj Hrun (conj Htrain Htest)).
Defined.

End split_order_examples.

(** ** The Omniglot pipeline without preconditions *)

Section omniglot_general.
Import structs omniglot.
Context {R : Type} `{!RandomGen R} `{!SetOrder nat} {image : Type}.
Variable listdir : string → list string.
Variable path_join : string → string → string.
Variable open_image : string → Z → image.

Local Abbreviation png_names := (omniglot.png_names listdir).
Local Abbreviation sample := (omniglot.sample listdir path_join open_image).
Local Abbreviation sample_classes :=
  (omniglot.sample_classes listdir path_join open_image).
Local Abbreviation _sample_mini_dataset :=
  (omniglot._sample_mini_dataset listdir path_join open_image).
Local Abbreviation add_client :=
  (omniglot.add_client listdir path_join open_image).
Local Abbreviation _make_omniglot_dataset :=
  (omniglot._make_omniglot_dataset listdir path_join open_image).

(** X3.  [Character.sample] returns [min(num_images, number of png
    files)] images; each is read, with the rotation of the character,
    from a file of its directory whose name ends in [.png]. *)
Theorem sample_images (self : Character) num_images (r : R) :
  length (sample self num_images r).1
  = Nat.min num_images (length (png_names self))
  ∧ ∀ img, img ∈ (sample self num_images r).1 →
      ∃ name,
        name ∈ listdir (dir_path self)
        ∧ endswith name ".png" = true
        ∧ img = open_image (path_join (dir_path self) name) (rotation self).
Proof.
  split; [apply length_sample|].
  unfold omniglot.sample, random.shuffle.
  pose proof (rand_permutation_Permutation _ (png_names self) r) as Hperm.
  destruct (rand_permutation _ r) as [names r']. cbn [fst] in *.
  intros img (name & -> & Hname)%list_elem_of_fmap.
  apply (sublist_subseteq _ _ (sublist_take _ _)) in Hname.
  rewrite Hperm in Hname. apply list_elem_of_filter in Hname as [Hpng Hin].
  exists name. split; [done|]. split; [|done]. by apply Is_true_true.
Qed.

(** The samples of a run of classes carry the indices of the classes
    as labels, at most [num_shots] times each. *)
Lemma sample_classes_bounds (classes : list Character) num_shots :
  ∀ class_idx (r : R) label,
    (count_label label (sample_classes class_idx classes num_shots r).1
     ≤ num_shots)%nat
    ∧ (¬ (class_idx ≤ label < class_idx + length classes)%nat →
       count_label label (sample_classes class_idx classes num_shots r).1 = 0%nat).
Proof.
  induction classes as [|class_obj classes IH]; intros class_idx r label.
  - cbn. split; [lia|done].
  - cbn [omniglot.sample_classes].
    pose proof (length_sample listdir path_join open_image class_obj num_shots r)
      as Hlen.
    destruct (sample class_obj num_shots r) as [samples r1]. cbn [fst] in Hlen.
    destruct (IH (S class_idx) r1 label) as [IHle IHzero].
    destruct (sample_classes (S class_idx) classes num_shots r1) as [rest r2].
    cbn [fst length] in *. rewrite count_label_app, count_label_tagged.
    destruct (decide (class_idx = label)) as [->|Hne].
    + rewrite IHzero by lia. split; lia.
    + split; [lia|]. intros Hout. rewrite IHzero; lia.
Qed.

Lemma sum_list_bound {A} (f : A → nat) (bound : nat) (l : list A) :
  (∀ x, x ∈ l → (f x ≤ bound)%nat) →
  (sum_list (f <$> l) ≤ length l * bound)%nat.
Proof.
  induction l as [|x l IH]; intros Hle; [done|].
  pose proof (Hle x (list_elem_of_here _ _)).
  pose proof (IH (λ y Hy, Hle y (list_elem_of_further _ _ _ Hy))) as Hsum.
  rewrite fmap_cons. unfold sum_list in *. cbn [sum_list_with length].
  unfold id at 1. lia.
Qed.

(** A client without preconditions: the split never fails, there is at
    most one test item per class, and at most [num_shots_per_class]
    training items for every test item. *)
Lemma add_client_general (dataset : list Character) num_classes_per_client
    num_shots_per_class inner_batch_size i (args : dataset_args) (r : R) :
  match add_client dataset num_classes_per_client num_shots_per_class
                   inner_batch_size i (args, r) with
  | inl e => ∃ msg, e = ValueError msg
  | inr (args', r') =>
      ∃ train_data test_data,
        recorded inner_batch_size args' i train_data test_data
        ∧ (∀ j, j ≠ i → untouched args args' j)
        ∧ a_train_data_num args' = (a_train_data_num args + length train_data)%nat
        ∧ a_test_data_num args' = (a_test_data_num args + length test_data)%nat
        ∧ (length test_data ≤ num_classes_per_client)%nat
        ∧ (length test_data ≤ length dataset)%nat
        ∧ (length train_data ≤ length test_data * num_shots_per_class)%nat
        ∧ (0 < length train_data)%nat
        ∧ (0 < length test_data)%nat
  end.
Proof.
  unfold omniglot.add_client, omniglot._sample_mini_dataset, random.shuffle.
  pose proof (rand_permutation_Permutation _ dataset r) as Hshuffle.
  destruct (rand_permutation dataset r) as [shuffled r0]. cbn [fst] in Hshuffle.
  pose proof (sample_classes_bounds (take num_classes_per_client shuffled)
                (num_shots_per_class + 1) 0%nat r0) as Hbounds.
  destruct (sample_classes 0 _ _ r0) as [client_data r1]. cbn [fst] in Hbounds.
  destruct (split_one_test_shot client_data)
    as (train_data & test_data & -> & Hperm & Htest).
  pose proof (set_iter_NoDup client_data.*2) as Hnd.
  assert (∀ label, label ∈ set_iter client_data.*2 →
            (label < length (take num_classes_per_client shuffled))%nat) as Hlabels.
  { intros label Hin%set_iter_elem%count_label_elem.
    destruct (Hbounds label) as [_ Hzero].
    destruct (decide (label < length (take num_classes_per_client shuffled))%nat);
      [done|]. rewrite Hzero in Hin; lia. }
  assert (length (set_iter client_data.*2)
          ≤ length (take num_classes_per_client shuffled))%nat as Hdistinct.
  { trans (length (seq 0 (length (take num_classes_per_client shuffled))));
      [|by rewrite length_seq].
    apply submseteq_length, NoDup_submseteq; [done|].
    intros label Hin. apply elem_of_seq. specialize (Hlabels label Hin). lia. }
  rewrite length_take, (Permutation_length Hshuffle) in Hdistinct.
  assert (length client_data
          ≤ length (set_iter client_data.*2) * (num_shots_per_class + 1))%nat
    as Hsize.
  { rewrite (length_sum_count_label (set_iter client_data.*2) client_data Hnd)
      by (intros label; apply set_iter_elem).
    apply sum_list_bound. intros label _. apply Hbounds. }
  apply Permutation_length in Hperm. rewrite length_app in Hperm.
  destruct (DataLoader_init (length train_data) train_data _ true false)
    as [e|train_loader] eqn:Htrain_loader;
    [by apply DataLoader_init_inl in Htrain_loader as [? _]|].
  destruct (DataLoader_init (length test_data) test_data _ true false)
    as [e|test_loader] eqn:Htest_loader;
    [by apply DataLoader_init_inl in Htest_loader as [? _]|].
  apply DataLoader_init_inr in Htrain_loader as (-> & _ & Htrain_data).
  apply DataLoader_init_inr in Htest_loader as (-> & _ & Htest_data).
  specialize (Htrain_data eq_refl). specialize (Htest_data eq_refl).
  exists train_data, test_data.
  split; [by repeat split; cbn; rewrite lookup_insert_eq|].
  split.
  { intros j Hj. by repeat split; cbn; rewrite lookup_insert_ne. }
  cbn. repeat split; lia.
Qed.

(** The loop over the clients [i], ..., [i + k - 1]. *)
Lemma add_clients_general (dataset : list Character) num_classes_per_client
    num_shots_per_class inner_batch_size (k : nat) :
  ∀ i (args : dataset_args) (r : R),
    match for_each (add_client dataset num_classes_per_client
                               num_shots_per_class inner_batch_size)
                   (seq i k) (args, r) with
    | inl e => ∃ msg, e = ValueError msg
    | inr (args', r') =>
        ∃ data : list (list (image * nat) * list (image * nat)),
          length data = k
          ∧ a_train_data_num args'
            = (a_train_data_num args + sum_list (length <$> data.*1))%nat
          ∧ a_test_data_num args'
            = (a_test_data_num args + sum_list (length <$> data.*2))%nat
          ∧ (∀ j, (j < i ∨ i + k ≤ j)%nat → untouched args args' j)
          ∧ ∀ n train_data test_data,
              data !! n = Some (train_data, test_data) →
              recorded inner_batch_size args' (i + n) train_data test_data
              ∧ (length test_data ≤ num_classes_per_client)%nat
              ∧ (length test_data ≤ length dataset)%nat
              ∧ (length train_data ≤ length test_data * num_shots_per_class)%nat
              ∧ (0 < length train_data)%nat
              ∧ (0 < length test_data)%nat
    end.
Proof.
  induction k as [|k IH]; intros i args r.
  - exists []. split; [done|]. cbn.
    split; [lia|]. split; [lia|]. split; [by intros; repeat split|]. done.
  - cbn [seq for_each].
    pose proof (add_client_general dataset num_classes_per_client
                  num_shots_per_class inner_batch_size i args r) as Hclient.
    destruct (add_client dataset _ _ _ i (args, r)) as [e|[args1 r1]]; [done|].
    destruct Hclient
      as (train_data & test_data & Hrec & Hrest & Htrain & Htest & Hbounds).
    specialize (IH (S i) args1 r1).
    destruct (for_each _ (seq (S i) k) (args1, r1)) as [e|[args' r']]; [done|].
    destruct IH as (data & Hlen & Htrain' & Htest' & Hkeep & Hdata).
    exists ((train_data, test_data) :: data).
    split; [cbn; lia|]. split; [cbn; lia|].
    split; [cbn; lia|]. split.
    { intros j Hj. destruct (Hkeep j) as (H1 & H2 & H3 & H4 & H5); [lia|].
      destruct (Hrest j) as (G1 & G2 & G3 & G4 & G5); [lia|].
      repeat split; congruence. }
    intros [|n] train_data' test_data' Hn; cbn in Hn.
    + injection Hn as <- <-. rewrite Nat.add_0_r. split; [|done].
      destruct (Hkeep i) as (H1 & H2 & H3 & H4 & H5); [lia|].
      unfold recorded. by rewrite H1, H2, H3, H4, H5.
    + replace (i + S n)%nat with (S i + n)%nat by lia. by apply Hdata.
Qed.

(** X4.  [_make_omniglot_dataset] never raises the [IndexError] of
    [_split_train_test], whatever the dataset holds: a label that is
    looked for in the training set has an item there.  In the dataset
    it returns, [data_local_num_dict] is for every client the sum of
    the training and the test count, there is at most one test item per
    requested class and per class of the dataset, and at most
    [num_shots_per_class] training items for every test item;
    [train_data_num] and [test_data_num] are the sums of the per-client
    counts. *)
Theorem make_omniglot_dataset_invariants (dataset : list Character) num_clients
    num_classes_per_client num_shots_per_class inner_batch_size (r : R) :
  match _make_omniglot_dataset dataset num_clients num_classes_per_client
          num_shots_per_class inner_batch_size r with
  | inl e => ∀ msg, e ≠ IndexError msg
  | inr (fed_dataset, _) =>
      ∃ counts : list (nat * nat),
        client_num fed_dataset = num_clients
        ∧ length counts = num_clients
        ∧ train_data_num fed_dataset = Some (sum_list counts.*1)
        ∧ test_data_num fed_dataset = Some (sum_list counts.*2)
        ∧ ∀ i train test,
            counts !! i = Some (train, test) →
            data_local_train_num_dict fed_dataset !! i = Some train
            ∧ data_local_test_num_dict fed_dataset !! i = Some test
            ∧ data_local_num_dict fed_dataset !! i = Some (train + test)%nat
            ∧ (test ≤ num_classes_per_client)%nat
            ∧ (test ≤ length dataset)%nat
            ∧ (train ≤ test * num_shots_per_class)%nat
  end.
Proof.
  unfold omniglot._make_omniglot_dataset.
  pose proof (add_clients_general dataset num_classes_per_client
                num_shots_per_class inner_batch_size num_clients 0%nat
                initial_args r) as Hloop.
  destruct (for_each _ (seq 0 num_clients) (initial_args, r)) as [e|[args r']].
  { destruct Hloop as [msg' ->]. by intros msg. }
  destruct Hloop as (data & Hlen & Htrain & Htest & _ & Hdata).
  exists ((λ d, (length d.1, length d.2)) <$> data).
  cbn. split; [done|]. split; [by rewrite length_fmap|].
  rewrite Htrain, Htest, <- !list_fmap_compose. split; [done|]. split; [done|].
  intros i train test Hi. rewrite list_lookup_fmap in Hi.
  destruct (data !! i) as [[train_data test_data]|] eqn:Hd; [|done].
  injection Hi as <- <-.
  destruct (Hdata i train_data test_data Hd)
    as ((_ & _ & H3 & H4 & H5) & Hb1 & Hb2 & Hb3 & _).
  change (0 + i)%nat with i in *. by rewrite H3, H4, H5.
Qed.

(** X5.  In the dataset [_make_omniglot_dataset] returns, every client
    has two shuffling loaders whose data have the recorded lengths;
    with [inner_batch_size = -1] the batch size of a loader is the
    length of its data (full batch), otherwise it is
    [inner_batch_size]. *)
Theorem make_omniglot_dataset_loaders (dataset : list Character) num_clients
    num_classes_per_client num_shots_per_class inner_batch_size (r : R)
    fed_dataset r' i :
  _make_omniglot_dataset dataset num_clients num_classes_per_client
    num_shots_per_class inner_batch_size r
  = inr (fed_dataset, r') →
  (i < num_clients)%nat →
  ∃ train_loader test_loader,
    train_data_local_dict fed_dataset !! i = Some train_loader
    ∧ test_data_local_dict fed_dataset !! i = Some test_loader
    ∧ data_local_train_num_dict fed_dataset !! i
      = Some (length (structs.dataset train_loader))
    ∧ data_local_test_num_dict fed_dataset !! i
      = Some (length (structs.dataset test_loader))
    ∧ shuffle train_loader = true ∧ shuffle test_loader = true
    ∧ batch_size train_loader
      = (if decide (inner_batch_size = -1)
         then Z.of_nat (length (structs.dataset train_loader)) else inner_batch_size)
    ∧ batch_size test_loader
      = (if decide (inner_batch_size = -1)
         then Z.of_nat (length (structs.dataset test_loader)) else inner_batch_size).
Proof.
  unfold omniglot._make_omniglot_dataset.
  pose proof (add_clients_general dataset num_classes_per_client
                num_shots_per_class inner_batch_size num_clients 0%nat
                initial_args r) as Hloop.
  destruct (for_each _ (seq 0 num_clients) (initial_args, r)) as [e|[args r'']];
    [done|].
  destruct Hloop as (data & Hlen & _ & _ & _ & Hdata).
  intros [= <- <-] Hi.
  destruct (lookup_lt_is_Some_2 data i) as [[train_data test_data] Hd]; [lia|].
  destruct (Hdata i train_data test_data Hd) as ((H1 & H2 & H3 & H4 & _) & _).
  change (0 + i)%nat with i in *.
  eexists _, _. cbn.
  split; [exact H1|]. split; [exact H2|]. by repeat split.
Qed.

End omniglot_general.

Section omniglot_general_examples.
Import structs omniglot.

Example make_clients_few_classes :
  match make_clients one_character 2 5 1 with
  | inr (fed_dataset, _) =>
      data_local_num_dict fed_dataset = {[0%nat := 2%nat; 1%nat := 2%nat]}
      ∧ data_local_test_num_dict fed_dataset = {[0%nat := 1%nat; 1%nat := 1%nat]}
      ∧ train_data_num fed_dataset = Some 2%nat
  | inl _ => False
  end.
Proof. by vm_compute. Qed.

Lemma make_omniglot_dataset_loaders_witness :
  (1 < 3)%nat
  ∧ ∃ fed_dataset r' train_loader test_loader,
      make_clients five_characters 3 5 1 = inr (fed_dataset, r')
      ∧ train_data_local_dict fed_dataset !! 1%nat = Some train_loader
      ∧ test_data_local_dict fed_dataset !! 1%nat = Some test_loader
      ∧ data_local_train_num_dict fed_dataset !! 1%nat
        = Some (length (dataset train_loader))
      ∧ data_local_test_num_dict fed_dataset !! 1%nat
        = Some (length (dataset test_loader))
      ∧ shuffle train_loader = true ∧ shuffle test_loader = true
      ∧ batch_size train_loader
        = (if decide (5 = -1)
           then Z.of_nat (length (dataset train_loader)) else 5)
      ∧ batch_size test_loader
        = (if decide (5 = -1)
           then Z.of_nat (length (dataset test_loader)) else 5).
Proof.
  assert (1 < 3)%nat as Hi by lia.
  split; [exact Hi|].
  destruct (make_clients five_characters 3 5 1) as [e|[fed_dataset r']] eqn:Hmake;
    [by vm_compute in Hmake|].
  exists fed_dataset, r'.
  destruct (make_omniglot_dataset_loaders (R := nat) (RandomGen0 := reversing_gen)
              (SetOrder0 := remove_dups_order)
              two_pngs (λ dir name, dir +:+ "/" +:+ name)
              (λ path rotation, (path, rotation))
              five_characters 3 5 1 5 0%nat fed_dataset r' 1%nat Hmake Hi)
    as (train_loader & test_loader & Hloaders).
  exists train_loader, test_loader. split; [reflexivity|exact Hloaders].
Defined.

End omniglot_general_examples.

(** ** Reading, splitting and loading Omniglot *)

Section omniglot_loading.
Import structs omniglot.
Context {R : Type} `{!RandomGen R} `{!SetOrder nat} {image : Type}.
Variable listdir : string → list string.
Variable isdir : string → bool.
Variable path_join : string → string → string.
Variable open_image : string → Z → image.

Local Abbreviation read_characters := (omniglot.read_characters path_join).
Local Abbreviation read_alphabets :=
  (omniglot.read_alphabets listdir isdir path_join).
Local Abbreviation read_dataset := (omniglot.read_dataset listdir isdir path_join).
Local Abbreviation _make_omniglot_dataset :=
  (omniglot._make_omniglot_dataset listdir path_join open_image).
Local Abbreviation load_omniglot_datasets :=
  (omniglot.load_omniglot_datasets listdir isdir path_join open_image).

Lemma sorted_elem name names : name ∈ sorted names ↔ name ∈ names.
Proof. unfold sorted. by rewrite merge_sort_Permutation. Qed.

Lemma read_characters_elem alphabet_dir char_names character :
  character ∈ read_characters alphabet_dir char_names
  ↔ ∃ char_name,
      char_name ∈ char_names
      ∧ startswith char_name "character" = true
      ∧ character = mkCharacter (path_join alphabet_dir char_name) 0.
Proof.
  induction char_names as [|name char_names IH]; cbn [omniglot.read_characters].
  - split; [by intros ?%elem_of_nil|]. by intros (? & ?%elem_of_nil & _).
  - destruct (startswith name "character") eqn:Hname; cbn [negb].
    + rewrite elem_of_cons, IH. split.
      * intros [->|(char_name & Hin & Hstart & ->)].
        -- exists name. split; [apply list_elem_of_here|done].
        -- exists char_name. split; [by apply list_elem_of_further|done].
      * intros (char_name & [->|Hin]%elem_of_cons & Hstart & ->); [by left|].
        right. by exists char_name.
    + rewrite IH. split.
      * intros (char_name & Hin & Hstart & ->).
        exists char_name. split; [by apply list_elem_of_further|done].
      * intros (char_name & [->|Hin]%elem_of_cons & Hstart & ->); [congruence|].
        by exists char_name.
Qed.

Lemma read_alphabets_elem data_dir alphabet_names character :
  character ∈ read_alphabets data_dir alphabet_names
  ↔ ∃ alphabet_name char_name,
      alphabet_name ∈ alphabet_names
      ∧ isdir (path_join data_dir alphabet_name) = true
      ∧ char_name ∈ listdir (path_join data_dir alphabet_name)
      ∧ startswith char_name "character" = true
      ∧ character
        = mkCharacter (path_join (path_join data_dir alphabet_name) char_name) 0.
Proof.
  induction alphabet_names as [|name alphabet_names IH];
    cbn [omniglot.read_alphabets].
  - split; [by intros ?%elem_of_nil|]. by intros (? & ? & ?%elem_of_nil & _).
  - destruct (isdir (path_join data_dir name)) eqn:Hdir; cbn [negb].
    + rewrite elem_of_app, IH, read_characters_elem. split.
      * intros [(char_name & Hin & Hstart & ->)
               |(alphabet_name & char_name & Hin & Halpha & Hchar & Hstart & ->)].
        -- rewrite sorted_elem in Hin.
           exists name, char_name. split; [apply list_elem_of_here|done].
        -- exists alphabet_name, char_name.
           split; [by apply list_elem_of_further|done].
      * intros (alphabet_name & char_name & [->|Hin]%elem_of_cons & Halpha & Hchar
                & Hstart & ->).
        -- left. exists char_name. by rewrite sorted_elem.
        -- right. by exists alphabet_name, char_name.
    + rewrite IH. split.
      * intros (alphabet_name & char_name & Hin & Hrest).
        exists alphabet_name, char_name.
        split; [by apply list_elem_of_further|done].
      * intros (alphabet_name & char_name & [->|Hin]%elem_of_cons & Halpha & Hrest);
          [congruence|].
        by exists alphabet_name, char_name.
Qed.

(** X6.  [read_dataset] yields exactly the characters
    [data_dir/alphabet/char] for the entries [alphabet] of [data_dir]
    that are directories and the entries [char] of such a directory
    whose name starts with [character]; every one of them is unrotated. *)
Theorem read_dataset_characters data_dir character :
  character ∈ read_dataset data_dir
  ↔ ∃ alphabet_name char_name,
      alphabet_name ∈ listdir data_dir
      ∧ isdir (path_join data_dir alphabet_name) = true
      ∧ char_name ∈ listdir (path_join data_dir alphabet_name)
      ∧ startswith char_name "character" = true
      ∧ dir_path character
        = path_join (path_join data_dir alphabet_name) char_name
      ∧ rotation character = 0.
Proof.
  unfold omniglot.read_dataset. rewrite read_alphabets_elem. split.
  - intros (alphabet_name & char_name & Hin & ? & ? & ? & ->).
    rewrite sorted_elem in Hin. by exists alphabet_name, char_name.
  - intros (alphabet_name & char_name & Hin & ? & ? & ? & Hdir & Hrot).
    exists alphabet_name, char_name. rewrite sorted_elem.
    repeat (split; [done|]). destruct character. cbn in *. by subst.
Qed.

Lemma split_dataset_lengths {A} (dataset : list A) (num_train : nat) (r : R) :
  length (split_dataset dataset num_train r).1.1
  = Nat.min num_train (length dataset)
  ∧ length (split_dataset dataset num_train r).1.2
    = (length dataset - num_train)%nat.
Proof.
  unfold split_dataset, random.shuffle.
  pose proof (rand_permutation_Permutation _ dataset r) as Hperm.
  destruct (rand_permutation dataset r) as [all_data r']. cbn [fst snd] in *.
  by rewrite length_take, length_drop, (Permutation_length Hperm).
Qed.

(** X7.  [split_dataset] cuts a shuffled copy of the dataset in two:
    training and test set together are a rearrangement of the dataset,
    the training set has [min(num_train, len(dataset))] items and the
    test set the rest, and no item of a duplicate-free dataset lands in
    both. *)
Theorem split_dataset_partition {A} (dataset : list A) (num_train : nat) (r : R) :
  let '(train, test, _) := split_dataset dataset num_train r in
  train ++ test ≡ₚ dataset
  ∧ length train = Nat.min num_train (length dataset)
  ∧ length test = (length dataset - num_train)%nat
  ∧ (NoDup dataset → ∀ x, x ∈ train → x ∉ test).
Proof.
  unfold split_dataset, random.shuffle.
  pose proof (rand_permutation_Permutation _ dataset r) as Hperm.
  destruct (rand_permutation dataset r) as [all_data r']. cbn [fst] in Hperm.
  rewrite take_drop, length_take, length_drop, (Permutation_length Hperm).
  split; [done|]. split; [done|]. split; [done|].
  intros Hnd. rewrite <- Hperm, <- (take_drop num_train all_data) in Hnd.
  apply NoDup_app in Hnd as (_ & Hdisjoint & _). exact Hdisjoint.
Qed.

Lemma augment_dataset_elem (dataset : list Character) c :
  c ∈ augment_dataset dataset
  ↔ ∃ character rot,
      character ∈ dataset ∧ rot ∈ rotations
      ∧ c = mkCharacter (dir_path character) rot.
Proof.
  induction dataset as [|character dataset IH]; cbn [augment_dataset].
  - split; [by intros ?%elem_of_nil|]. by intros (? & ? & ?%elem_of_nil & _).
  - rewrite elem_of_app, IH. change (map ?f ?l) with (f <$> l).
    rewrite list_elem_of_fmap. split.
    + intros [(rot & -> & Hrot)|(character' & rot & Hin & Hrot & ->)].
      * exists character, rot. split; [apply list_elem_of_here|done].
      * exists character', rot. split; [by apply list_elem_of_further|done].
    + intros (character' & rot & [->|Hin]%elem_of_cons & Hrot & ->).
      * left. by exists rot.
      * right. by exists character', rot.
Qed.

Lemma length_augment_dataset (dataset : list Character) :
  length (augment_dataset dataset) = (4 * length dataset)%nat.
Proof.
  induction dataset as [|c dataset IH]; [done|].
  cbn [augment_dataset]. rewrite length_app, IH. cbn. lia.
Qed.

(** X8.  [augment_dataset] yields pairwise different classes when the
    characters it is given have pairwise different directories; the
    rotations of the given characters play no role. *)
Theorem augment_dataset_NoDup (dataset : list Character) :
  NoDup (dir_path <$> dataset) →
  NoDup (augment_dataset dataset)
  ∧ augment_dataset dataset
    = augment_dataset ((λ c, mkCharacter (dir_path c) 0) <$> dataset).
Proof.
  intros Hnd. split.
  - induction dataset as [|character dataset IH]; [constructor|].
    rewrite fmap_cons in Hnd. apply NoDup_cons in Hnd as [Hnotin Hnd].
    cbn [augment_dataset]. apply NoDup_app. split; [|split; [|by apply IH]].
    + change (map ?f ?l) with (f <$> l). apply NoDup_fmap_2_strong; [|].
      * intros x y _ _ [= ->]. done.
      * by apply (bool_decide_unpack _).
    + intros c. change (map ?f ?l) with (f <$> l).
      intros (rot & -> & _)%list_elem_of_fmap
             (character' & rot' & Hin & _ & [= Hdir _])%augment_dataset_elem.
      apply Hnotin. rewrite Hdir. apply list_elem_of_fmap. by exists character'.
  - clear Hnd. induction dataset as [|character dataset IH]; [done|].
    rewrite fmap_cons. cbn [augment_dataset dir_path]. by rewrite <- IH.
Qed.

Lemma sum_list_zero (l : list nat) : Forall (λ n, n = 0%nat) l → sum_list l = 0%nat.
Proof. induction 1 as [|n l -> _ IH]; [done|]. cbn. exact IH. Qed.

(** What [_make_omniglot_dataset] returns, in terms of the data of the
    clients; it fails with [ValueError] only. *)
Lemma make_omniglot_dataset_data (dataset : list Character) num_clients
    num_classes_per_client num_shots_per_class inner_batch_size (r : R) :
  match _make_omniglot_dataset dataset num_clients num_classes_per_client
          num_shots_per_class inner_batch_size r with
  | inl e => ∃ msg, e = ValueError msg
  | inr (fed_dataset, _) =>
      ∃ data : list (list (image * nat) * list (image * nat)),
        client_num fed_dataset = num_clients
        ∧ length data = num_clients
        ∧ train_data_num fed_dataset = Some (sum_list (length <$> data.*1))
        ∧ test_data_num fed_dataset = Some (sum_list (length <$> data.*2))
        ∧ (∀ i, data_local_test_num_dict fed_dataset !! i
                = (λ d, length d.2) <$> data !! i)
        ∧ Forall (λ d, (length d.2 ≤ num_classes_per_client)%nat
                       ∧ (0 < length d.2 ≤ length dataset)%nat
                       ∧ (length d.1 ≤ length d.2 * num_shots_per_class)%nat)
                 data
  end.
Proof.
  unfold omniglot._make_omniglot_dataset.
  pose proof (add_clients_general listdir path_join open_image dataset
                num_classes_per_client num_shots_per_class
                inner_batch_size num_clients 0%nat initial_args r) as Hloop.
  destruct (for_each _ (seq 0 num_clients) (initial_args, r)) as [e|[args r']];
    [done|].
  destruct Hloop as (data & Hlen & Htrain & Htest & Hkeep & Hdata).
  exists data. cbn. rewrite Htrain, Htest.
  repeat (split; [done|]). split.
  - intros i. destruct (data !! i) as [[train_data test_data]|] eqn:Hd.
    + destruct (Hdata i _ _ Hd) as ((_ & _ & _ & H4 & _) & _).
      by change (0 + i)%nat with i in H4.
    + apply lookup_ge_None_1 in Hd.
      destruct (Hkeep i) as (_ & _ & _ & H4 & _); [lia|]. by rewrite H4.
  - apply Forall_lookup. intros i [train_data test_data] Hd.
    destruct (Hdata i _ _ Hd) as (_ & ? & ? & ? & _ & ?). cbn [fst snd].
    repeat split; lia.
Qed.

(** X9.  [load_omniglot_datasets] fails with [ValueError] only, never
    with the [IndexError] of [_split_train_test].  In what it returns,
    the training clients draw from the augmented first [min(1200, n)]
    characters of the shuffled directory listing and the test clients
    from the remaining, unaugmented ones, [n] being the number of
    characters read: a client has one test item per class, so at most
    [min(num_classes_per_client, 4 * min(1200, n))] for a training
    client and [min(num_classes_per_client, n - 1200)] for a test
    client.  With at most 1200 characters on disk no character is left
    for the test clients: if any is asked for, the loader raises
    [ValueError], since no [DataLoader] can be built over no data. *)
Theorem load_omniglot_datasets_split data_dir num_clients_train num_clients_test
    num_classes_per_client num_shots_per_class inner_batch_size (r : R) :
  let n := length (read_dataset data_dir) in
  let loaded :=
    load_omniglot_datasets data_dir num_clients_train num_clients_test
      num_classes_per_client num_shots_per_class inner_batch_size r in
  match loaded with
  | inl e => ∃ msg, e = ValueError msg
  | inr (train_clients, test_clients, _) =>
      client_num train_clients = num_clients_train
      ∧ client_num test_clients = num_clients_test
      ∧ (∀ i count, data_local_test_num_dict train_clients !! i = Some count →
           (count ≤ Nat.min num_classes_per_client (4 * Nat.min 1200 n))%nat)
      ∧ (∀ i count, data_local_test_num_dict test_clients !! i = Some count →
           (count ≤ Nat.min num_classes_per_client (n - 1200))%nat)
  end
  ∧ ((n ≤ 1200)%nat → (0 < num_clients_test)%nat → is_ValueError loaded).
Proof.
  intros n loaded. subst loaded. unfold omniglot.load_omniglot_datasets.
  pose proof (split_dataset_lengths (read_dataset data_dir) 1200 r) as Hsplit.
  destruct (split_dataset (read_dataset data_dir) 1200 r)
    as [[omniglot_train omniglot_test] r0].
  destruct Hsplit as (Hlen_train & Hlen_test). cbn [fst snd] in Hlen_train, Hlen_test.
  fold n in Hlen_train, Hlen_test.
  pose proof (make_omniglot_dataset_data (augment_dataset omniglot_train)
                num_clients_train num_classes_per_client num_shots_per_class
                inner_batch_size r0) as Htrain_clients.
  destruct (_make_omniglot_dataset (augment_dataset omniglot_train) _ _ _ _ r0)
    as [e|[train_clients r1]].
  { destruct Htrain_clients as [msg ->]. split; [by eexists|done]. }
  destruct Htrain_clients as (data & Hnum & _ & _ & _ & Hdict & Hbounds).
  pose proof (make_omniglot_dataset_data omniglot_test
                num_clients_test num_classes_per_client num_shots_per_class
                inner_batch_size r1) as Htest_clients.
  destruct (_make_omniglot_dataset omniglot_test _ _ _ _ r1)
    as [e|[test_clients r2]].
  { destruct Htest_clients as [msg ->]. split; [by eexists|done]. }
  destruct Htest_clients as (data' & Hnum' & Hlen' & _ & _ & Hdict' & Hbounds').
  rewrite length_augment_dataset, Hlen_train in Hbounds.
  rewrite Hlen_test in Hbounds'.
  rewrite Forall_lookup in Hbounds, Hbounds'. split.
  - split; [done|]. split; [done|]. split.
    + intros i count. rewrite Hdict. intros Hi.
      destruct (data !! i) as [d|] eqn:Hd; [|done]. injection Hi as <-.
      specialize (Hbounds i d Hd). cbn beta in Hbounds. lia.
    + intros i count. rewrite Hdict'. intros Hi.
      destruct (data' !! i) as [d|] eqn:Hd; [|done]. injection Hi as <-.
      specialize (Hbounds' i d Hd). cbn beta in Hbounds'. lia.
  - intros Hn Hclients.
    destruct (lookup_lt_is_Some_2 data' 0) as [d Hd]; [lia|].
    specialize (Hbounds' 0%nat d Hd). cbn beta in Hbounds'. lia.
Qed.

End omniglot_loading.

Section omniglot_loading_examples.
Import structs omniglot.

Example read_small_tree :
  read_dataset small_tree small_tree_isdir (λ dir name, dir +:+ "/" +:+ name)
    "omniglot"
  = [mkCharacter "omniglot/Greek/character01" 0;
     mkCharacter "omniglot/Latin/character01" 0;
     mkCharacter "omniglot/Latin/character02" 0].
Proof. by vm_compute. Qed.

(** Three characters on disk: all of them go to the training clients. *)
Example load_small_tree_counts :
  match load_small_tree 2 0 with
  | inr (train_clients, test_clients, _) =>
      data_local_test_num_dict train_clients = {[0%nat := 5%nat; 1%nat := 5%nat]}
      ∧ data_local_train_num_dict train_clients
        = {[0%nat := 5%nat; 1%nat := 5%nat]}
      ∧ data_local_num_dict test_clients = ∅
      ∧ test_data_num test_clients = Some 0%nat
  | inl _ => False
  end.
Proof. by vm_compute. Qed.

Example load_small_tree_test_clients : is_ValueError (load_small_tree 2 2).
Proof. exact I. Qed.

Lemma augment_dataset_NoDup_witness :
  NoDup (dir_path <$> two_characters)
  ∧ NoDup (augment_dataset two_characters)
  ∧ augment_dataset two_characters
    = augment_dataset ((λ c, mkCharacter (dir_path c) 0) <$> two_characters).
Proof.
  assert (NoDup (dir_path <$> two_characters)) as Hnd
    by (by apply (bool_decide_unpack _)).
  split; [exact Hnd|]. exact (augment_dataset_NoDup two_characters Hnd).
Defined.

End omniglot_loading_examples.

(** ** More of [load_mnist_dataset] *)

Section for_each_proofs.
Context {A S : Type}.

Lemma for_each_app (body : A → S → result S) xs ys st :
  for_each body (xs ++ ys) st
  = match for_each body xs st with
    | inl e => inl e
    | inr st => for_each body ys st
    end.
Proof.
  revert st. induction xs as [|x xs IH]; intros st; [done|].
  cbn [app for_each]. by destruct (body x st).
Qed.

End for_each_proofs.

Section mnist_more.
Import structs femnist.
Context {R : Type} `{!RandomGen R} `{!SetOrder nat} `{!ArgSort}.
Variable mnist_targets : string → bool → list Z.

(** The pool of shards is empty after 100 clients: the draw for the
    next client fails. *)
Lemma mnist_partitions_pool_exhausted (labels : list Z) num_clients (r : R) :
  (100 < num_clients)%nat →
  is_ValueError (mnist_partitions labels num_clients r).
Proof.
  intros Hclients. unfold mnist_partitions.
  destruct (sorted_idxs labels) as [e|idxs] eqn:Hidxs.
  { unfold sorted_idxs in Hidxs. by destruct (decide _); simplify_eq. }
  assert (seq 0 num_clients = seq 0 100 ++ seq 100 (S (num_clients - 101)))
    as Hseq by (rewrite <- seq_app; f_equal; lia).
  destruct (assign_loop idxs num_clients 100 0 [] (seq 0 num_shards) _ r
              (initial_assigned idxs num_clients))
    as (used & idx_shard & partitions & r' & Hloop & Hinv);
    [lia | destruct shard_sizes as [-> _]; lia |].
  set (empty_partitions := list_to_map _) in *.
  rewrite Hseq, for_each_app, Hloop. clear Hseq Hloop.
  apply assigned_length in Hinv. destruct shard_sizes as [Hshards _].
  rewrite Hshards in Hinv.
  assert (idx_shard = []) as -> by (apply length_zero_iff_nil; lia).
  cbn [seq for_each Nat.add]. unfold assign.
  pose proof (choice_too_large (@nil nat) 2 r') as Herr.
  destruct (numpy.choice [] 2 r') as [[e|chosen] r'']; cbn [fst] in Herr.
  - destruct e; try done; apply Herr; cbn; lia.
  - exfalso. apply Herr. cbn. lia.
Qed.

(** X10.  [load_mnist_dataset] raises [ValueError] for more than 100
    clients: every client takes two of the 200 shards, and the draw
    for client 100 finds the pool empty. *)
Theorem mnist_too_many_clients data_dir num_clients batch_size (r : R) :
  (100 < num_clients)%nat →
  is_ValueError (load_mnist_dataset mnist_targets data_dir num_clients batch_size r).
Proof.
  intros Hclients. unfold load_mnist_dataset.
  pose proof (mnist_partitions_pool_exhausted
                (targets (datasets_MNIST mnist_targets data_dir true))
                num_clients r Hclients) as Herr.
  by destruct (mnist_partitions _ _ _) as [[| |]|[? ?]].
Qed.

(** [load_mnist_dataset] returns only on non-empty label files of the
    MNIST sizes, for at most 100 clients and a positive batch size. *)
Lemma load_mnist_dataset_inr data_dir num_clients batch_size (r : R)
    fed_dataset r' :
  load_mnist_dataset mnist_targets data_dir num_clients batch_size r
  = inr (fed_dataset, r') →
  length (mnist_targets data_dir true) = (num_shards * num_imgs)%nat
  ∧ (length (mnist_targets data_dir false) `mod` num_shards = 0)%nat
  ∧ (0 < length (mnist_targets data_dir false))%nat
  ∧ (num_clients ≤ 100)%nat
  ∧ 0 < batch_size.
Proof.
  intros Hload. unfold load_mnist_dataset in Hload.
  cbn [targets datasets_MNIST] in Hload.
  destruct (mnist_partitions (mnist_targets data_dir true) num_clients r)
    as [e|[partitions r1]] eqn:Hparts; [done|].
  destruct (split_arange (length (mnist_targets data_dir false)) num_shards)
    as [e|test_idxs] eqn:Hsplit; [done|].
  destruct (for_each _ _ _) as [e|d]; [done|].
  destruct (DataLoader_init (length (mnist_targets data_dir false)) _ _ _ _)
    as [e|train_data_global_loader] eqn:Hglobal; [done|].
  apply DataLoader_init_inr in Hglobal as (_ & Hbatch & Hnonempty).
  clear Hload. split; [|split; [|split; [by apply Hnonempty|split; [|done]]]].
  - unfold mnist_partitions, sorted_idxs in Hparts.
    destruct (decide (length (mnist_targets data_dir true)
                      ≠ length (seq 0 (num_shards * num_imgs)))) as [|Heq];
      [done|].
    rewrite length_seq in Heq.
    by destruct (decide (length (mnist_targets data_dir true)
                         = (num_shards * num_imgs)%nat)).
  - unfold split_arange in Hsplit.
    destruct (decide (length (mnist_targets data_dir false) `mod` num_shards ≠ 0)%nat)
      as [|Heq]; [done|].
    by destruct (decide (length (mnist_targets data_dir false) `mod` num_shards
                         = 0)%nat).
  - destruct (decide (100 < num_clients)%nat) as [Hmany|]; [|lia].
    pose proof (mnist_partitions_pool_exhausted (mnist_targets data_dir true)
                  num_clients r Hmany) as Herr.
    by rewrite Hparts in Herr.
Qed.

(** After 100 clients every shard of the pool has been handed out. *)
Lemma all_shards_used (used : list (nat * nat)) s :
  length used = 100%nat → NoDup (shards_of used) →
  (∀ s, s ∈ shards_of used → (s < num_shards)%nat) →
  (s < num_shards)%nat → s ∈ shards_of used.
Proof.
  intros Hused Hnd Hlt Hs.
  assert (shards_of used ≡ₚ seq 0 num_shards) as Hperm.
  { apply submseteq_length_Permutation.
    - apply NoDup_submseteq; [done|]. intros x Hx%Hlt. apply elem_of_seq. lia.
    - rewrite length_seq, length_shards_of, Hused.
      destruct shard_sizes as [-> _]. lia. }
  rewrite Hperm. apply elem_of_seq. lia.
Qed.

(** The entry at position [p] of the index array lies in shard
    [p / num_imgs]. *)
Lemma elem_of_shard_div (idxs : list nat) p x :
  idxs !! p = Some x → x ∈ shard idxs (p `div` num_imgs).
Proof.
  intros Hp. unfold shard. apply elem_of_slice. exists p. split; [|done].
  pose proof shard_sizes as [_ Himgs].
  pose proof (Nat.div_mod_eq p num_imgs) as Hdiv.
  pose proof (Nat.mod_upper_bound p num_imgs) as Hmod. lia.
Qed.

(** X11.  With 100 clients, a dataset that [load_mnist_dataset]
    returns hands out the whole training set: every one of the 60000
    training indices lies in the partition of some client. *)
Theorem mnist_all_indices_assigned data_dir batch_size (r : R) fed_dataset r' :
  load_mnist_dataset mnist_targets data_dir 100 batch_size r
  = inr (fed_dataset, r') →
  ∀ x, (x < num_shards * num_imgs)%nat →
    ∃ i loader,
      train_data_local_dict fed_dataset !! i = Some loader
      ∧ x ∈ idxs (dataset loader).
Proof.
  intros Hload.
  destruct (load_mnist_dataset_inr _ _ _ _ _ _ Hload)
    as (Htrain & Htest & Hnonempty & _ & Hbatch).
  destruct (load_mnist_dataset_clients mnist_targets data_dir 100 batch_size r
              Htrain Htest Hnonempty (le_n 100) Hbatch)
    as (fed_dataset' & r'' & sorted & used & Hload' & _ & Hperm & _ & Hused & Hnd
        & Hlt & Hdict & _).
  rewrite Hload in Hload'. injection Hload' as <- <-. intros x Hx.
  assert (x ∈ sorted) as Hin by (rewrite Hperm; apply elem_of_seq; lia).
  apply list_elem_of_lookup in Hin as [p Hp].
  pose proof (lookup_lt_Some _ _ _ Hp) as Hlen.
  rewrite Hperm, length_seq in Hlen.
  assert (p `div` num_imgs < num_shards)%nat as Hshard
    by (apply Nat.Div0.div_lt_upper_bound; lia).
  pose proof (all_shards_used used _ Hused Hnd Hlt Hshard) as Hs.
  unfold shards_of in Hs. apply list_elem_of_bind in Hs as ([a b] & Hs & Hab).
  apply list_elem_of_lookup in Hab as [i Hi].
  exists i, (train_loader (datasets_MNIST mnist_targets data_dir true) batch_size
               (shard sorted a ++ shard sorted b)).
  split; [by rewrite Hdict, Hi|]. cbn [train_loader dataset idxs fst snd] in *.
  apply elem_of_app.
  apply elem_of_cons in Hs as [<-|Hs]; [left; by apply elem_of_shard_div|].
  apply elem_of_cons in Hs as [<-|Hs]; [right; by apply elem_of_shard_div|].
  by apply elem_of_nil in Hs.
Qed.

(** X12.  Every item of every client loader of a dataset that
    [load_mnist_dataset] returns can be read: [DatasetSplit.__getitem__]
    finds its index inside the MNIST split it wraps and returns the
    image and the label stored there. *)
Theorem mnist_split_items_in_range {X} (data : MNIST → nat → X)
    data_dir num_clients batch_size (r : R) fed_dataset r' :
  load_mnist_dataset mnist_targets data_dir num_clients batch_size r
  = inr (fed_dataset, r') →
  ∀ i loader item,
    train_data_local_dict fed_dataset !! i = Some loader
    ∨ test_data_local_dict fed_dataset !! i = Some loader →
    (item < DatasetSplit_len (dataset loader))%nat →
    ∃ idx target,
      idxs (dataset loader) !! item = Some idx
      ∧ targets (split_dataset (dataset loader)) !! idx = Some target
      ∧ DatasetSplit_getitem (MNIST_getitem data) (dataset loader) item
        = inr (data (split_dataset (dataset loader)) idx, target).
Proof.
  intros Hload.
  destruct (load_mnist_dataset_inr _ _ _ _ _ _ Hload)
    as (Htrain & Htest & Hnonempty & Hclients & Hbatch).
  destruct (load_mnist_dataset_clients mnist_targets data_dir num_clients
              batch_size r Htrain Htest Hnonempty Hclients Hbatch)
    as (fed_dataset' & r'' & sorted & used & Hload' & _ & Hperm & _ & Hused & Hnd
        & Hlt & Hdict & _ & _ & Hin & Hout).
  rewrite Hload in Hload'. injection Hload' as <- <-.
  assert (length (mnist_targets data_dir false)
          = num_shards * (length (mnist_targets data_dir false) `div` num_shards))%nat
    as Hdiv.
  { pose proof (Nat.div_mod_eq (length (mnist_targets data_dir false)) num_shards).
    lia. }
  set (per_client := (length (mnist_targets data_dir false) `div` num_shards)%nat)
    in *.
  intros i loader item Hloader Hitem.
  unfold DatasetSplit_len in Hitem.
  destruct (lookup_lt_is_Some_2 _ _ Hitem) as [idx Hidx].
  assert (idx < length (targets (split_dataset (dataset loader))))%nat as Hrange.
  { destruct Hloader as [Hloader|Hloader].
    - rewrite Hdict in Hloader.
      destruct (used !! i) as [[a b]|]; [|done]. injection Hloader as <-.
      cbn [train_loader dataset idxs split_dataset datasets_MNIST targets] in *.
      rewrite Htrain.
      assert (idx ∈ sorted) as Hsorted.
      { apply list_elem_of_lookup_2 in Hidx.
        apply elem_of_app in Hidx as [Hidx|Hidx]; by eapply shard_subseteq. }
      rewrite Hperm in Hsorted. apply elem_of_seq in Hsorted. lia.
    - destruct (decide (i < num_clients)%nat) as [Hi|Hi].
      + destruct (Hin i Hi) as (Htest_loader & _).
        rewrite Htest_loader in Hloader. injection Hloader as <-.
        cbn [dataset idxs split_dataset datasets_MNIST targets] in *.
        apply lookup_seq in Hidx as [-> Hlt_item].
        pose proof shard_sizes as [Hshards _]. nia.
      + destruct (Hout i) as (Hnone & _); [lia|]. by rewrite Hnone in Hloader. }
  destruct (lookup_lt_is_Some_2 _ _ Hrange) as [target Htarget].
  exists idx, target. split; [done|]. split; [done|].
  unfold DatasetSplit_getitem, MNIST_getitem. by rewrite Hidx, Htarget.
Qed.

(** X13.  In a dataset that [load_mnist_dataset] returns, client [i]
    has the [i]-th of the 200 equal parts of the test set, so the test
    images from index [num_clients * (len(test) / 200)] on are used by
    no client.  The three count dictionaries hold numbers of batches,
    not of samples: for a positive batch size,
    [ceil((len(test) / 200) / batch_size)] for the test loader,
    [ceil(600 / batch_size)] for the training loader, and their sum. *)
Theorem mnist_test_splits_and_counts data_dir num_clients batch_size (r : R)
    fed_dataset r' :
  load_mnist_dataset mnist_targets data_dir num_clients batch_size r
  = inr (fed_dataset, r') →
  0 < batch_size →
  let per_client := (length (mnist_targets data_dir false) `div` num_shards)%nat in
  let batches (n : nat) := Z.to_nat ((Z.of_nat n + batch_size - 1) `div` batch_size) in
  (∀ i, (i < num_clients)%nat →
     ∃ test_loader,
       test_data_local_dict fed_dataset !! i = Some test_loader
       ∧ split_dataset (dataset test_loader)
         = datasets_MNIST mnist_targets data_dir false
       ∧ idxs (dataset test_loader) = seq (i * per_client) per_client
       ∧ data_local_test_num_dict fed_dataset !! i = Some (batches per_client)
       ∧ data_local_train_num_dict fed_dataset !! i
         = Some (batches (2 * num_imgs)%nat)
       ∧ data_local_num_dict fed_dataset !! i
         = Some (batches per_client + batches (2 * num_imgs)%nat)%nat)
  ∧ (∀ i loader x,
       test_data_local_dict fed_dataset !! i = Some loader →
       x ∈ idxs (dataset loader) → (x < num_clients * per_client)%nat).
Proof.
  intros Hload Hbatch per_client batches.
  destruct (load_mnist_dataset_inr _ _ _ _ _ _ Hload)
    as (Htrain & Htest & Hnonempty & Hclients & _).
  destruct (load_mnist_dataset_clients mnist_targets data_dir num_clients
              batch_size r Htrain Htest Hnonempty Hclients Hbatch)
    as (fed_dataset' & r'' & sorted & used & Hload' & _ & _ & _ & _ & _ & _ & _
        & _ & _ & Hin & Hout).
  rewrite Hload in Hload'. injection Hload' as <- <-. split.
  - intros i Hi. destruct (Hin i Hi) as (H1 & H2 & H3 & H4).
    eexists. split; [exact H1|]. by repeat split.
  - intros i loader x Hloader Hx.
    destruct (decide (i < num_clients)%nat) as [Hi|Hi].
    + destruct (Hin i Hi) as (H1 & _). rewrite H1 in Hloader.
      injection Hloader as <-.
      change (x ∈ seq (i * per_client) per_client) in Hx.
      apply elem_of_seq in Hx. revert Hx. generalize per_client. intros q Hx. nia.
    + destruct (Hout i) as (Hnone & _); [lia|]. by rewrite Hnone in Hloader.
Qed.

End mnist_more.

Section mnist_more_examples.
Import structs femnist.
Local Existing Instance remove_dups_order.
Local Existing Instance reversing_gen.
Local Existing Instance merge_ArgSort.

Example batches_of_default_size :
  Z.to_nat ((Z.of_nat (2 * num_imgs) + 10 - 1) `div` 10) = 60%nat
  ∧ Z.to_nat ((Z.of_nat 50 + 10 - 1) `div` 10) = 5%nat.
Proof. by vm_compute. Qed.

Lemma mnist_too_many_clients_witness :
  (100 < 101)%nat
  ∧ is_ValueError (load_mnist_dataset cyclic_targets "data" 101 10 0%nat).
Proof.
  assert (100 < 101)%nat as Hclients by lia.
  split; [exact Hclients|].
  exact (mnist_too_many_clients cyclic_targets "data" 101 10 0%nat Hclients).
Defined.

Lemma mnist_all_indices_assigned_witness :
  ∃ fed_dataset r',
    load_mnist_dataset cyclic_targets "data" 100 10 0%nat = inr (fed_dataset, r')
    ∧ ∀ x, (x < num_shards * num_imgs)%nat →
        ∃ i loader,
          train_data_local_dict fed_dataset !! i = Some loader
          ∧ x ∈ idxs (dataset loader).
Proof.
  destruct (load_mnist_dataset_partitions cyclic_targets "data" 100 10 0%nat
              cyclic_targets_train cyclic_targets_test
              cyclic_targets_test_nonempty (le_n 100) positive_batch_size)
    as (fed_dataset & r' & _ & _ & Hload & _).
  exists fed_dataset, r'. split; [exact Hload|].
  exact (mnist_all_indices_assigned cyclic_targets "data" 10 0%nat fed_dataset r'
           Hload).
Defined.

Lemma mnist_split_items_in_range_witness :
  ∃ fed_dataset r',
    load_mnist_dataset cyclic_targets "data" 100 10 0%nat = inr (fed_dataset, r')
    ∧ ∀ i loader item,
        train_data_local_dict fed_dataset !! i = Some loader
        ∨ test_data_local_dict fed_dataset !! i = Some loader →
        (item < DatasetSplit_len (dataset loader))%nat →
        ∃ idx target,
          idxs (dataset loader) !! item = Some idx
          ∧ targets (split_dataset (dataset loader)) !! idx = Some target
          ∧ DatasetSplit_getitem (MNIST_getitem (λ _ index, index))
              (dataset loader) item
            = inr (idx, target).
Proof.
  destruct (load_mnist_dataset_partitions cyclic_targets "data" 100 10 0%nat
              cyclic_targets_train cyclic_targets_test
              cyclic_targets_test_nonempty (le_n 100) positive_batch_size)
    as (fed_dataset & r' & _ & _ & Hload & _).
  exists fed_dataset, r'. split; [exact Hload|].
  exact (mnist_split_items_in_range cyclic_targets (λ _ index, index) "data" 100
           10 0%nat fed_dataset r' Hload).
Defined.

Lemma mnist_test_splits_and_counts_witness :
  0 < 10
  ∧ ∃ fed_dataset r',
      load_mnist_dataset cyclic_targets "data" 100 10 0%nat = inr (fed_dataset, r')
      ∧ ∀ i loader x,
          test_data_local_dict fed_dataset !! i = Some loader →
          x ∈ idxs (dataset loader) →
          (x < 100 * (length (cyclic_targets "data" false) `div` num_shards))%nat.
Proof.
  assert (0 < 10) as Hbatch by lia.
  split; [exact Hbatch|].
  destruct (load_mnist_dataset_partitions cyclic_targets "data" 100 10 0%nat
              cyclic_targets_train cyclic_targets_test
              cyclic_targets_test_nonempty (le_n 100) positive_batch_size)
    as (fed_dataset & r' & _ & _ & Hload & _).
  exists fed_dataset, r'. split; [exact Hload|].
  exact (proj2 (mnist_test_splits_and_counts cyclic_targets "data" 100 10 0%nat
                  fed_dataset r' Hload Hbatch)).
Defined.

End mnist_more_examples.

(** ** More of [load_femnist_dataset] *)

Section femnist_more.
Import structs femnist.
Context {R : Type} `{!RandomGen R} {P T : Type}.
Variable load_data : bool → string → HDF5ClientData P * HDF5ClientData P.
Variable unsqueeze : P → T.

Local Abbreviation add_femnist_client := (femnist.add_femnist_client unsqueeze).
Local Abbreviation load_femnist_dataset :=
  (femnist.load_femnist_dataset (R := R) load_data unsqueeze).

(** The loop over [selected_client_ids]: what the five dictionaries
    hold for a client, selected or not. *)
Lemma add_femnist_clients_lookup emnist_train emnist_test batch_size selected :
  ∀ (d d' : femnist_dicts) client_id,
    for_each (add_femnist_client emnist_train emnist_test batch_size) selected d
    = inr d' →
    (client_id ∈ selected →
       f_train_data_local_dict d' !! client_id
       = Some (mkDataLoader
                 (mkFEMNISTDataset (h5_label emnist_train client_id)
                    (unsqueeze (h5_pixels emnist_train client_id)))
                 batch_size false false)
       ∧ f_test_data_local_dict d' !! client_id
         = Some (mkDataLoader
                   (mkFEMNISTDataset (h5_label emnist_test client_id)
                      (unsqueeze (h5_pixels emnist_test client_id)))
                   batch_size false false)
       ∧ f_data_local_train_num_dict d' !! client_id
         = Some (length (h5_label emnist_train client_id))
       ∧ f_data_local_test_num_dict d' !! client_id
         = Some (length (h5_label emnist_test client_id))
       ∧ f_data_local_num_dict d' !! client_id
         = Some (length (h5_label emnist_train client_id)))
    ∧ (client_id ∉ selected →
         f_train_data_local_dict d' !! client_id
         = f_train_data_local_dict d !! client_id
         ∧ f_test_data_local_dict d' !! client_id
           = f_test_data_local_dict d !! client_id
         ∧ f_data_local_train_num_dict d' !! client_id
           = f_data_local_train_num_dict d !! client_id
         ∧ f_data_local_test_num_dict d' !! client_id
           = f_data_local_test_num_dict d !! client_id
         ∧ f_data_local_num_dict d' !! client_id
           = f_data_local_num_dict d !! client_id).
Proof.
  induction selected as [|first selected IH]; intros d d' client_id.
  - intros [= <-]. split; [by intros ?%elem_of_nil|done].
  - cbn [for_each].
    destruct (add_femnist_client emnist_train emnist_test batch_size first d)
      as [e|d1] eqn:Hadd; [done|].
    intros Hloop. destruct (IH d1 d' client_id Hloop) as [IHin IHout].
    apply add_femnist_client_inr in Hadd as [_ ->].
    split.
    + intros Hin. destruct (decide (client_id ∈ selected)) as [Hsel|Hsel];
        [by apply IHin|].
      apply elem_of_cons in Hin as [->|Hin]; [|done].
      destruct (IHout Hsel) as (-> & -> & -> & -> & ->).
      cbn. by rewrite !lookup_insert_eq.
    + intros Hout. apply not_elem_of_cons in Hout as [Hne Hout].
      destruct (IHout Hout) as (-> & -> & -> & -> & ->).
      cbn. by rewrite !lookup_insert_ne by done.
Qed.

(** X14.  With the default [sample_threshold = -1] the clients are
    drawn from all client ids, whatever their number of samples: for a
    positive batch size, [load_femnist_dataset] raises [ValueError]
    exactly when there are fewer than [num_clients] client ids, and
    otherwise loads [num_clients] of them, none drawn twice. *)
Theorem femnist_default_selection data_dir num_clients batch_size only_digits
    random_seed :
  0 < batch_size →
  let emnist_train := (load_data only_digits data_dir).1 in
  let loaded :=
    load_femnist_dataset data_dir num_clients batch_size only_digits (-1)
      random_seed in
  (is_ValueError loaded ↔ (length (client_ids emnist_train) < num_clients)%nat)
  ∧ ((num_clients ≤ length (client_ids emnist_train))%nat →
     ∃ fed_dataset selected rest,
       loaded = inr fed_dataset
       ∧ dom (train_data_local_dict fed_dataset) = list_to_set selected
       ∧ length selected = num_clients
       ∧ selected ++ rest ≡ₚ client_ids emnist_train).
Proof.
  intros Hbatch emnist_train loaded. subst loaded emnist_train.
  unfold femnist.load_femnist_dataset, select_clients.
  destruct (load_data only_digits data_dir) as [train test]. cbn [fst].
  destruct (decide (length (client_ids train) < num_clients)%nat) as [Hfew|Hmany].
  - pose proof (choice_too_large (client_ids train) num_clients
                  (rand_seed random_seed) Hfew) as Herr.
    destruct (numpy.choice _ _ _) as [[e|?] ?]; [|done]. cbn [fst] in Herr.
    split; [by destruct e|]. intros; lia.
  - destruct (choice_fits (client_ids train) num_clients (rand_seed random_seed))
      as (selected & rest & r' & -> & Hlen & Hperm); [lia|].
    destruct (decide (-1 ≠ -1)) as [Hne|_]; [by destruct Hne|].
    destruct (add_femnist_clients_ok unsqueeze train test batch_size selected
                Hbatch (mkFemnistDicts ∅ ∅ ∅ ∅ ∅)) as [d Hloop].
    rewrite Hloop. split; [split; [done|lia]|]. intros _.
    eexists _, selected, rest. split; [done|]. cbn [train_data_local_dict].
    rewrite (add_femnist_clients_dom unsqueeze _ _ _ _ _ _ Hloop).
    cbn [f_train_data_local_dict].
    rewrite dom_empty_L. by rewrite (right_id_L ∅ (∪)).
Qed.

(** X15.  What [load_femnist_dataset] records for a client it loaded:
    loaders that do not shuffle, over the training and the test labels
    of that client; the numbers of training and of test samples; and
    in [data_local_num_dict] the number of training samples again, so
    this dictionary equals [data_local_train_num_dict] and leaves the
    test samples out.  With a threshold, every loaded client has more
    training samples than [sample_threshold]. *)
Theorem femnist_client_entries data_dir num_clients batch_size only_digits
    sample_threshold random_seed fed_dataset :
  load_femnist_dataset data_dir num_clients batch_size only_digits
    sample_threshold random_seed
  = inr fed_dataset →
  let emnist_train := (load_data only_digits data_dir).1 in
  let emnist_test := (load_data only_digits data_dir).2 in
  data_local_num_dict fed_dataset = data_local_train_num_dict fed_dataset
  ∧ ∀ client_id train_loader,
      train_data_local_dict fed_dataset !! client_id = Some train_loader →
      labels (dataset train_loader) = h5_label emnist_train client_id
      ∧ shuffle train_loader = false
      ∧ structs.batch_size train_loader = batch_size
      ∧ data_local_train_num_dict fed_dataset !! client_id
        = Some (length (h5_label emnist_train client_id))
      ∧ data_local_test_num_dict fed_dataset !! client_id
        = Some (length (h5_label emnist_test client_id))
      ∧ (∃ test_loader,
           test_data_local_dict fed_dataset !! client_id = Some test_loader
           ∧ labels (dataset test_loader) = h5_label emnist_test client_id
           ∧ shuffle test_loader = false)
      ∧ (sample_threshold ≠ -1 →
         sample_threshold < Z.of_nat (length (h5_label emnist_train client_id))).
Proof.
  unfold femnist.load_femnist_dataset.
  destruct (load_data only_digits data_dir) as [train test]. cbn [fst snd].
  pose proof (select_clients_spec train num_clients sample_threshold
                (rand_seed random_seed)) as Hspec.
  destruct (select_clients train num_clients sample_threshold _)
    as [e|[selected r']]; [done|].
  destruct (for_each _ selected _) as [e|d] eqn:Hloop; [done|].
  intros [= <-]. cbn [data_local_num_dict data_local_train_num_dict
    data_local_test_num_dict train_data_local_dict test_data_local_dict].
  pose proof (λ client_id,
                add_femnist_clients_lookup train test batch_size selected
                  (mkFemnistDicts ∅ ∅ ∅ ∅ ∅) d client_id Hloop) as Hlookup.
  split.
  - apply map_eq. intros client_id.
    destruct (Hlookup client_id) as [Hin Hout].
    destruct (decide (client_id ∈ selected)) as [Hsel|Hsel].
    + destruct (Hin Hsel) as (_ & _ & -> & _ & ->). done.
    + destruct (Hout Hsel) as (_ & _ & -> & _ & ->). done.
  - intros client_id train_loader Hloader.
    destruct (Hlookup client_id) as [Hin Hout].
    destruct (decide (client_id ∈ selected)) as [Hsel|Hsel].
    + destruct (Hin Hsel) as (H1 & H2 & H3 & H4 & _).
      rewrite H1 in Hloader. injection Hloader as <-.
      split; [done|]. split; [done|]. split; [done|]. split; [done|].
      split; [done|]. split; [by eexists|].
      intros Hthreshold.
      destruct (Hspec Hthreshold)
        as [[_ Herr]|[_ (selected' & rest & r'' & [= <- <-] & _ & Hperm)]];
        [done|].
      assert (client_id ∈ clients_exceeding_threshold train sample_threshold)
        as Heligible by (rewrite <- Hperm; apply elem_of_app; by left).
      unfold clients_exceeding_threshold in Heligible.
      by apply list_elem_of_filter in Heligible as [? _].
    + destruct (Hout Hsel) as (H1 & _). rewrite H1 in Hloader.
      cbn in Hloader. by rewrite lookup_empty in Hloader.
Qed.

Lemma sum_list_lower_bound (bound : Z) (l : list nat) :
  Forall (λ n, bound ≤ Z.of_nat n) l →
  Z.of_nat (length l) * bound ≤ Z.of_nat (sum_list l).
Proof.
  induction 1 as [|n l Hn _ IH]; [done|]. cbn [length sum_list sum_list_with].
  unfold id at 1. lia.
Qed.

(** X16.  When client ids are pairwise different and a threshold is
    given, the loaded dataset holds more than
    [num_clients * sample_threshold] training samples:
    [train_data_num] is at least [num_clients * (sample_threshold + 1)]. *)
Theorem femnist_train_data_num_bound data_dir num_clients batch_size only_digits
    sample_threshold random_seed fed_dataset :
  sample_threshold ≠ -1 →
  NoDup (client_ids (load_data only_digits data_dir).1) →
  load_femnist_dataset data_dir num_clients batch_size only_digits
    sample_threshold random_seed
  = inr fed_dataset →
  ∃ total,
    train_data_num fed_dataset = Some total
    ∧ Z.of_nat num_clients * (sample_threshold + 1) ≤ Z.of_nat total.
Proof.
  intros Hthreshold Hnd. unfold femnist.load_femnist_dataset.
  destruct (load_data only_digits data_dir) as [train test]. cbn [fst] in Hnd.
  destruct (select_clients_spec train num_clients sample_threshold
              (rand_seed random_seed) Hthreshold)
    as [[_ Herr]|[_ (selected & rest & r' & Hsel & Hlen & Hperm)]].
  { by destruct (select_clients _ _ _ _) as [[| |]|[? ?]]. }
  rewrite Hsel.
  destruct (for_each _ selected _) as [e|d] eqn:Hloop; [done|].
  intros [= <-]. cbn [train_data_num]. eexists. split; [done|].
  pose proof (λ client_id,
                add_femnist_clients_lookup train test batch_size selected
                  (mkFemnistDicts ∅ ∅ ∅ ∅ ∅) d client_id Hloop) as Hlookup.
  assert (NoDup selected) as Hsel_nd.
  { apply (NoDup_app selected rest). rewrite Hperm. by apply NoDup_filter. }
  assert (dom (f_data_local_train_num_dict d) = list_to_set selected) as Hdom.
  { apply set_eq. intros client_id. rewrite elem_of_dom, elem_of_list_to_set.
    destruct (Hlookup client_id) as [Hin Hout]. split.
    - intros Hsome. destruct (decide (client_id ∈ selected)) as [|Hno]; [done|].
      destruct (Hout Hno) as (_ & _ & H3 & _). rewrite H3 in Hsome.
      cbn in Hsome. rewrite lookup_empty in Hsome. by destruct Hsome.
    - intros Hyes. destruct (Hin Hyes) as (_ & _ & -> & _). done. }
  unfold sum_values.
  replace num_clients
    with (length (snd <$> map_to_list (f_data_local_train_num_dict d))).
  2:{ rewrite length_fmap, length_map_to_list, <- size_dom, Hdom.
      by rewrite size_list_to_set. }
  apply sum_list_lower_bound, Forall_fmap, Forall_forall.
  intros [client_id count] Hentry%elem_of_map_to_list. cbn [snd].
  assert (client_id ∈ selected) as Hin.
  { apply (elem_of_list_to_set (C := gset string)). rewrite <- Hdom.
    by apply elem_of_dom. }
  destruct (Hlookup client_id) as [Hyes _].
  destruct (Hyes Hin) as (_ & _ & H3 & _). rewrite H3 in Hentry.
  injection Hentry as <-.
  assert (client_id ∈ clients_exceeding_threshold train sample_threshold)
    as Heligible by (rewrite <- Hperm; apply elem_of_app; by left).
  unfold clients_exceeding_threshold in Heligible.
  apply list_elem_of_filter in Heligible as [? _]. unfold compose. cbn [snd]. lia.
Qed.

End femnist_more.

Section femnist_more_examples.
Import structs femnist.

Example load_writers_default_threshold :
  match load_writers 3 (-1) with
  | inr fed_dataset =>
      data_local_num_dict fed_dataset
      = {[ "f0000_14" := 300%nat; "f0001_41" := 100%nat; "f0002_07" := 260%nat ]}
      ∧ data_local_test_num_dict fed_dataset
        = {[ "f0000_14" := 30%nat; "f0001_41" := 30%nat; "f0002_07" := 30%nat ]}
  | inl _ => False
  end.
Proof. split; by vm_compute. Qed.

Lemma femnist_default_selection_witness :
  0 < 10
  ∧ (is_ValueError (load_writers 4 (-1))
     ↔ (length (client_ids three_writers.1) < 4)%nat).
Proof.
  assert (0 < 10) as Hbatch by lia.
  split; [exact Hbatch|].
  exact (proj1 (femnist_default_selection (R := nat) (RandomGen0 := reversing_gen)
                  (λ _ _, three_writers) (λ pixels : unit, pixels)
                  "data" 4%nat 10 false 0 Hbatch)).
Defined.

Lemma femnist_client_entries_witness :
  ∃ fed_dataset,
    load_writers 2 250 = inr fed_dataset
    ∧ data_local_num_dict fed_dataset = data_local_train_num_dict fed_dataset.
Proof.
  destruct (load_writers 2 250) as [e|fed_dataset] eqn:Hload;
    [by vm_compute in Hload|].
  exists fed_dataset. split; [done|].
  exact (proj1 (femnist_client_entries (R := nat) (RandomGen0 := reversing_gen)
                  (λ _ _, three_writers) (λ pixels : unit, pixels)
                  "data" 2%nat 10 false 250 0 fed_dataset Hload)).
Defined.

Lemma femnist_train_data_num_bound_witness :
  250 ≠ -1
  ∧ NoDup (client_ids three_writers.1)
  ∧ ∃ fed_dataset total,
      load_writers 2 250 = inr fed_dataset
      ∧ train_data_num fed_dataset = Some total
      ∧ 2 * (250 + 1) ≤ Z.of_nat total.
Proof.
  assert (250 ≠ -1) as Hthreshold by discriminate.
  assert (NoDup (client_ids three_writers.1)) as Hnd
    by (by apply (bool_decide_unpack _)).
  split; [exact Hthreshold|]. split; [exact Hnd|].
  destruct (load_writers 2 250) as [e|fed_dataset] eqn:Hload;
    [by vm_compute in Hload|].
  exists fed_dataset.
  destruct (femnist_train_data_num_bound (R := nat) (RandomGen0 := reversing_gen)
              (λ _ _, three_writers) (λ pixels : unit, pixels)
              "data" 2%nat 10 false 250 0 fed_dataset Hthreshold Hnd Hload)
    as (total & Htotal & Hbound).
  by exists total.
Defined.

End femnist_more_examples.

(** ** More of the experiment drivers *)

Section driver_more.
Import experiments.
Context `{FrameworkTypes} `{!Framework}.

Lemma count_events_nil (kind : event → bool) : count_events kind [] = 0%nat.
Proof. done. Qed.

Lemma count_events_cons (kind : event → bool) e trace :
  count_events kind (e :: trace)
  = ((if kind e then 1 else 0) + count_events kind trace)%nat.
Proof.
  unfold count_events. rewrite filter_cons.
  destruct (kind e); by destruct (decide _).
Qed.

Lemma count_events_app (kind : event → bool) trace1 trace2 :
  count_events kind (trace1 ++ trace2)
  = (count_events kind trace1 + count_events kind trace2)%nat.
Proof. unfold count_events. by rewrite filter_app, length_app. Qed.

Lemma filter_run_fedavg_other e (trace : list event) :
  is_run_fedavg e = false →
  filter (λ e, is_run_fedavg e = true) (e :: trace)
  = filter (λ e, is_run_fedavg e = true) trace.
Proof. intros He. rewrite filter_cons. by rewrite decide_False by (by rewrite He). Qed.

Section fedavg_more.
Variables (lr : float) (name : string) (total_fedavg_rounds local_epochs : Z)
          (batch_size : Z) (optimizer_args : OptimizerArgs)
          (train_args : TrainArgs) (model_args : ModelArgs) (dataset : string)
          (fed_dataset : Dataset) (initialize_clients_fn : ClientInit).

Lemma fedavg_loop_calls client_fraction logged :
  filter (λ e, is_run_fedavg e = true)
    (fedavg.client_fraction_loop lr name total_fedavg_rounds local_epochs
       batch_size optimizer_args train_args model_args dataset fed_dataset
       initialize_clients_fn client_fraction logged)
  = fedavg.fedavg_call lr name total_fedavg_rounds local_epochs batch_size
      optimizer_args train_args model_args dataset fed_dataset
      initialize_clients_fn
    <$> client_fraction.
Proof.
  revert logged. induction client_fraction as [|cf client_fraction IH];
    intros logged; [done|].
  cbn [fedavg.client_fraction_loop]. rewrite !filter_app, IH.
  by destruct logged.
Qed.

End fedavg_more.

Lemma fedavg_load_dataset_init dataset num_clients batch_size mean std
    fed_dataset initialize_clients_fn :
  fedavg.load_dataset dataset num_clients batch_size mean std
  = inr (fed_dataset, initialize_clients_fn) →
  initialize_clients_fn
  = if decide (dataset = "ham10k") then initialize_ham10k_clients
    else DEFAULT_CLIENT_INIT_FN.
Proof.
  unfold fedavg.load_dataset.
  destruct (decide (dataset = "femnist")) as [->|Hfemnist].
  { destruct (load_femnist_dataset _ _ _ _); [done|]. by intros [= _ <-]. }
  destruct (decide (dataset = "mnist")) as [->|Hmnist].
  { destruct (load_mnist_dataset _ _ _); [done|]. by intros [= _ <-]. }
  destruct (decide (dataset = "ham10k")) as [->|Hham]; [|done].
  destruct (load_ham10k_federated _ _ _ _); [done|]. by intros [= _ <-].
Qed.

(** X17.  A run of [run_fedavg_experiment] on a dataset that loads
    calls [run_fedavg] once for every client fraction, in the order of
    [client_fraction] and for no other reason: with the context of that
    fraction, [total_fedavg_rounds] rounds, the loaded dataset, states
    saved and restored, and the logging callback bound to the logger of
    that fraction.  Clients are initialised with
    [initialize_ham10k_clients] for the dataset [ham10k] and with
    [DEFAULT_CLIENT_INIT_FN] otherwise. *)
Theorem fedavg_runs_once_per_fraction seed lr name total_fedavg_rounds
    client_fraction local_epochs batch_size num_clients optimizer_args train_args
    model_args dataset mean std fed_dataset initialize_clients_fn :
  fedavg.load_dataset dataset num_clients batch_size mean std
  = inr (fed_dataset, initialize_clients_fn) →
  filter (λ e, is_run_fedavg e = true)
    (fedavg.run_fedavg_experiment seed lr name total_fedavg_rounds client_fraction
       local_epochs batch_size num_clients optimizer_args train_args model_args
       dataset mean std).1
  = fedavg.fedavg_call lr name total_fedavg_rounds local_epochs batch_size
      optimizer_args train_args model_args dataset fed_dataset
      initialize_clients_fn
    <$> client_fraction
  ∧ initialize_clients_fn
    = if decide (dataset = "ham10k") then initialize_ham10k_clients
      else DEFAULT_CLIENT_INIT_FN.
Proof.
  intros Hload. split; [|by eapply fedavg_load_dataset_init].
  unfold fedavg.run_fedavg_experiment. rewrite Hload. cbn [fst].
  rewrite filter_run_fedavg_other by done. apply fedavg_loop_calls.
Qed.

Section hierarchical_more.
Variables (name : string) (total_fedavg_rounds : Z)
          (cluster_initialization_rounds : list Z)
          (local_epochs batch_size : Z) (train_args : TrainArgs)
          (dataset : string) (partitioner : Partitioner)
          (linkage criterion_name metric : string)
          (max_values : list float) (fed_dataset : Dataset).

Local Abbreviation cluster_round :=
  (hierarchical_clustering_fedavg.cluster_round total_fedavg_rounds train_args
     partitioner linkage criterion_name metric fed_dataset).
Local Abbreviation cluster_loop :=
  (hierarchical_clustering_fedavg.cluster_loop total_fedavg_rounds train_args
     partitioner linkage criterion_name metric fed_dataset).
Local Abbreviation experiment :=
  (hierarchical_clustering_fedavg.experiment name total_fedavg_rounds
     cluster_initialization_rounds local_epochs batch_size train_args dataset
     partitioner linkage criterion_name metric max_values fed_dataset).
Local Abbreviation lr_loop :=
  (hierarchical_clustering_fedavg.lr_loop name total_fedavg_rounds
     cluster_initialization_rounds local_epochs batch_size train_args dataset
     partitioner linkage criterion_name metric max_values fed_dataset).
Local Abbreviation client_fraction_loop :=
  (hierarchical_clustering_fedavg.client_fraction_loop name total_fedavg_rounds
     cluster_initialization_rounds local_epochs batch_size train_args dataset
     partitioner linkage criterion_name metric max_values fed_dataset).

Lemma cluster_loop_counts server clients cf model_args configurations :
  ∀ fedavg_context,
    count_events is_run_fedavg
      (cluster_loop server clients cf model_args configurations fedavg_context)
    = 0%nat
    ∧ count_events is_run_fedavg_hierarchical
        (cluster_loop server clients cf model_args configurations fedavg_context)
      = length configurations
    ∧ count_events is_create_tensorboard_logger
        (cluster_loop server clients cf model_args configurations fedavg_context)
      = length configurations.
Proof.
  induction configurations as [|[init_rounds max_value] configurations IH];
    intros fedavg_context; [done|].
  cbn [hierarchical_clustering_fedavg.cluster_loop
         hierarchical_clustering_fedavg.cluster_round].
  match goal with
  | |- context [cluster_loop _ _ _ _ _ ?context] =>
      destruct (IH context) as (IH1 & IH2 & IH3)
  end.
  rewrite !count_events_app, !count_events_cons, !count_events_nil, IH1, IH2, IH3.
  cbn [is_run_fedavg is_run_fedavg_hierarchical is_create_tensorboard_logger
       length]. lia.
Qed.

Lemma experiment_counts cf lr_i logged :
  let configurations :=
    (length cluster_initialization_rounds * length max_values)%nat in
  count_events is_run_fedavg (experiment cf lr_i logged) = 1%nat
  ∧ count_events is_run_fedavg_hierarchical (experiment cf lr_i logged)
    = configurations
  ∧ count_events is_create_tensorboard_logger (experiment cf lr_i logged)
    = (1 + configurations)%nat.
Proof.
  intros configurations. unfold hierarchical_clustering_fedavg.experiment.
  destruct (fedavg_result _ _ _) as [server clients].
  match goal with
  | |- context [cluster_loop server clients cf ?model_args ?cs ?context] =>
      destruct (cluster_loop_counts server clients cf model_args cs context)
        as (H1 & H2 & H3)
  end.
  assert (length (hierarchical_clustering_fedavg.generate_configuration
                    cluster_initialization_rounds max_values)
          = configurations) as Hlength
    by (by rewrite generate_configuration_list_prod, length_prod).
  rewrite Hlength in H2, H3.
  rewrite !count_events_app, H1, H2, H3.
  unfold hierarchical_clustering_fedavg.log_dataset_distribution.
  destruct logged; rewrite !count_events_cons, !count_events_nil;
    cbn [is_run_fedavg is_run_fedavg_hierarchical is_create_tensorboard_logger];
    clearbody configurations; repeat split; lia.
Qed.

Lemma lr_loop_counts (kind : event → bool) (per_experiment : nat) cf lr :
  (∀ lr_i logged, count_events kind (experiment cf lr_i logged) = per_experiment) →
  ∀ logged,
    count_events kind (lr_loop cf lr logged).1 = (length lr * per_experiment)%nat.
Proof.
  intros Hexperiment. induction lr as [|lr_i lr IH]; intros logged; [done|].
  cbn [hierarchical_clustering_fedavg.lr_loop]. specialize (IH true).
  destruct (lr_loop cf lr true) as [rest logged']. cbn [fst] in *.
  rewrite count_events_app, Hexperiment, IH. cbn [length]. lia.
Qed.

Lemma client_fraction_loop_counts (kind : event → bool) (per_experiment : nat)
    client_fraction lr :
  (∀ cf lr_i logged,
     count_events kind (experiment cf lr_i logged) = per_experiment) →
  ∀ logged,
    count_events kind (client_fraction_loop client_fraction lr logged)
    = (length client_fraction * (length lr * per_experiment))%nat.
Proof.
  intros Hexperiment.
  induction client_fraction as [|cf client_fraction IH]; intros logged; [done|].
  cbn [hierarchical_clustering_fedavg.client_fraction_loop].
  pose proof (lr_loop_counts kind per_experiment cf lr (Hexperiment cf) logged)
    as Hlr.
  destruct (lr_loop cf lr logged) as [events logged']. cbn [fst] in Hlr.
  rewrite count_events_app, Hlr, IH. cbn [length]. lia.
Qed.

Local Abbreviation well_formed client_fraction :=
  (hierarchical_clustering_fedavg.cluster_stage_well_formed total_fedavg_rounds
     cluster_initialization_rounds max_values client_fraction train_args
     fed_dataset).

Lemma cluster_loop_well_formed client_fraction server clients cf model_args
    configurations :
  cf ∈ client_fraction →
  (∀ init_rounds max_value,
     (init_rounds, max_value) ∈ configurations →
     init_rounds ∈ cluster_initialization_rounds ∧ max_value ∈ max_values) →
  ∀ fedavg_context,
    ctx_client_fraction fedavg_context = cf →
    Forall (well_formed client_fraction)
      (cluster_loop server clients cf model_args configurations fedavg_context).
Proof.
  intros Hcf. induction configurations as [|[init_rounds max_value] configurations IH];
    intros Hconfigurations fedavg_context Hctx; [constructor|].
  destruct (Hconfigurations init_rounds max_value) as [Hinit Hmax];
    [apply list_elem_of_here|].
  cbn [hierarchical_clustering_fedavg.cluster_loop
         hierarchical_clustering_fedavg.cluster_round app].
  apply Forall_cons. split; [exact Hinit|].
  apply Forall_cons. split; [exact I|].
  apply Forall_cons. split; [exact I|].
  apply Forall_cons. split.
  - cbn. split; [done|]. split; [lia|]. split; [done|]. split; [done|].
    eexists cf, _, _, _, _. by repeat split.
  - apply IH; [|done].
    intros ? ? Hin. apply Hconfigurations. by apply list_elem_of_further.
Qed.

Lemma experiment_well_formed client_fraction cf lr_i logged :
  cf ∈ client_fraction →
  Forall (well_formed client_fraction) (experiment cf lr_i logged).
Proof.
  intros Hcf. unfold hierarchical_clustering_fedavg.experiment.
  destruct (fedavg_result _ _ _) as [server clients].
  apply Forall_app. split; [by repeat constructor|].
  apply Forall_app. split; [destruct logged; by repeat constructor|].
  apply Forall_app. split; [by repeat constructor|].
  apply cluster_loop_well_formed; [done| |done].
  intros init_rounds max_value Hin.
  rewrite generate_configuration_list_prod in Hin.
  apply list_elem_of_In, in_prod_iff in Hin as [Hinit Hmax].
  by rewrite <- !list_elem_of_In in *.
Qed.

Lemma lr_loop_well_formed client_fraction cf lr :
  cf ∈ client_fraction →
  ∀ logged, Forall (well_formed client_fraction) (lr_loop cf lr logged).1.
Proof.
  intros Hcf. induction lr as [|lr_i lr IH]; intros logged; [constructor|].
  cbn [hierarchical_clustering_fedavg.lr_loop]. specialize (IH true).
  destruct (lr_loop cf lr true) as [rest logged']. cbn [fst] in *.
  apply Forall_app. split; [by apply experiment_well_formed|done].
Qed.

Lemma client_fraction_loop_well_formed client_fraction fractions lr :
  (∀ cf, cf ∈ fractions → cf ∈ client_fraction) →
  ∀ logged,
    Forall (well_formed client_fraction) (client_fraction_loop fractions lr logged).
Proof.
  induction fractions as [|cf fractions IH]; intros Hsub logged; [constructor|].
  cbn [hierarchical_clustering_fedavg.client_fraction_loop].
  pose proof (lr_loop_well_formed client_fraction cf lr
                (Hsub cf (list_elem_of_here _ _)) logged) as Hlr.
  destruct (lr_loop cf lr logged) as [events logged']. cbn [fst] in Hlr.
  apply Forall_app. split; [done|]. apply IH.
  intros cf' Hin. by apply Hsub, list_elem_of_further.
Qed.

End hierarchical_more.

(** X18.  A run of [run_hierarchical_clustering] on a dataset that
    loads trains the plain model once for every pair of a client
    fraction and a learning rate, and starts the hierarchical stage
    once for every such pair and every configuration, a configuration
    being a pair of an initialization round and a threshold; it creates
    one logger for every plain and every hierarchical experiment. *)
Theorem hierarchical_run_counts
    seed lr name total_fedavg_rounds cluster_initialization_rounds
    client_fraction local_epochs batch_size num_clients sample_threshold
    num_label_limit train_args model_args dataset partitioner_class
    linkage_mech criterion dis_metric max_value_criterion fed_dataset :
  hierarchical_clustering_fedavg.load_dataset dataset num_clients batch_size
    sample_threshold num_label_limit
  = inr fed_dataset →
  let trace :=
    (hierarchical_clustering_fedavg.run_hierarchical_clustering seed lr name
       total_fedavg_rounds cluster_initialization_rounds client_fraction
       local_epochs batch_size num_clients sample_threshold num_label_limit
       train_args model_args dataset partitioner_class linkage_mech criterion
       dis_metric max_value_criterion).1 in
  let experiments := (length client_fraction * length lr)%nat in
  let configurations :=
    (length cluster_initialization_rounds
     * length (hierarchical_clustering_fedavg.as_list max_value_criterion))%nat in
  count_events is_run_fedavg trace = experiments
  ∧ count_events is_run_fedavg_hierarchical trace
    = (experiments * configurations)%nat
  ∧ count_events is_create_tensorboard_logger trace
    = (experiments * (1 + configurations))%nat.
Proof.
  intros Hload trace experiments configurations. subst trace.
  unfold hierarchical_clustering_fedavg.run_hierarchical_clustering.
  rewrite Hload. cbn [fst]. rewrite !count_events_cons.
  cbn [is_run_fedavg is_run_fedavg_hierarchical is_create_tensorboard_logger].
  match goal with
  | |- context [hierarchical_clustering_fedavg.client_fraction_loop ?a ?b ?c ?d
                  ?e ?f ?g ?h ?i ?j ?k ?l ?m _ _ _] =>
      pose proof (experiment_counts a b c d e f g h i j k l m) as Hexperiment;
      pose proof (client_fraction_loop_counts a b c d e f g h i j k l m) as Hloop
  end.
  cbv zeta in Hexperiment. fold configurations in Hexperiment.
  rewrite (Hloop is_run_fedavg 1%nat), (Hloop is_run_fedavg_hierarchical configurations),
    (Hloop is_create_tensorboard_logger (1 + configurations)%nat);
    try (intros cf lr_i logged; by destruct (Hexperiment cf lr_i logged) as (? & ? & ?)).
  subst experiments. lia.
Qed.

(** X19.  In a run of [run_hierarchical_clustering] on a dataset that
    loads, every call of [run_fedavg_hierarchical] splits the rounds at
    a configured initialization round ([num_rounds_init] is one of
    [cluster_initialization_rounds] and
    [num_rounds_init + num_rounds_cluster = total_fedavg_rounds]), uses
    a configured threshold and a client fraction of the run, plots no
    dendrogram, and hands the aggregator a context that carries the
    logger of this cluster experiment, to which the logging callbacks
    are bound; every checkpoint that is loaded is one of a configured
    initialization round. *)
Theorem hierarchical_stages_well_formed
    seed lr name total_fedavg_rounds cluster_initialization_rounds
    client_fraction local_epochs batch_size num_clients sample_threshold
    num_label_limit train_args model_args dataset partitioner_class
    linkage_mech criterion dis_metric max_value_criterion fed_dataset :
  hierarchical_clustering_fedavg.load_dataset dataset num_clients batch_size
    sample_threshold num_label_limit
  = inr fed_dataset →
  Forall
    (hierarchical_clustering_fedavg.cluster_stage_well_formed total_fedavg_rounds
       cluster_initialization_rounds
       (hierarchical_clustering_fedavg.as_list max_value_criterion)
       client_fraction train_args fed_dataset)
    (hierarchical_clustering_fedavg.run_hierarchical_clustering seed lr name
       total_fedavg_rounds cluster_initialization_rounds client_fraction
       local_epochs batch_size num_clients sample_threshold num_label_limit
       train_args model_args dataset partitioner_class linkage_mech criterion
       dis_metric max_value_criterion).1.
Proof.
  intros Hload.
  unfold hierarchical_clustering_fedavg.run_hierarchical_clustering.
  rewrite Hload. cbn [fst]. apply Forall_cons. split; [exact I|].
  by apply client_fraction_loop_well_formed.
Qed.

Section cluster_distribution_more.
Variable generate_client_label_heatmap : string → Clients → Z → Image.

Local Abbreviation log_cluster_distribution :=
  (hierarchical_clustering_fedavg.log_cluster_distribution
     generate_client_label_heatmap).

Lemma log_cluster_distribution_elem experiment_logger cluster_clients_dic
    num_classes e :
  e ∈ log_cluster_distribution experiment_logger cluster_clients_dic num_classes →
  ∃ cluster_id image,
    cluster_id ∈ cluster_clients_dic.*1
    ∧ e = add_image experiment_logger
            ("label distribution/cluster_" +:+ cluster_id) image.
Proof.
  induction cluster_clients_dic as [|[cluster_id clients] dic IH];
    cbn [hierarchical_clustering_fedavg.log_cluster_distribution].
  - by intros ?%elem_of_nil.
  - rewrite fmap_cons. intros [->|Hin]%elem_of_cons.
    + eexists cluster_id, _. split; [apply list_elem_of_here|done].
    + destruct (IH Hin) as (cluster_id' & image & Hid & ->).
      eexists cluster_id', image. split; [by apply list_elem_of_further|done].
Qed.

(** X20.  [log_cluster_distribution] logs one image for every cluster,
    under a tag of its own when the cluster ids differ, and never under
    the tag [label distribution] of the full dataset. *)
Theorem cluster_distribution_tags experiment_logger cluster_clients_dic
    num_classes :
  let trace :=
    log_cluster_distribution experiment_logger cluster_clients_dic num_classes in
  length trace = length cluster_clients_dic
  ∧ no_dataset_distribution trace
  ∧ (NoDup cluster_clients_dic.*1 → NoDup trace).
Proof.
  intros trace. subst trace. split; [|split].
  - induction cluster_clients_dic as [|[cluster_id clients] dic IH]; [done|].
    cbn [hierarchical_clustering_fedavg.log_cluster_distribution length].
    by rewrite IH.
  - apply Forall_forall. intros e Hin.
    apply log_cluster_distribution_elem in Hin as (cluster_id & image & _ & ->).
    cbn [is_dataset_distribution]. by apply bool_decide_eq_false.
  - induction cluster_clients_dic as [|[cluster_id clients] dic IH];
      [constructor|].
    rewrite fmap_cons. intros [Hnotin Hnd]%NoDup_cons.
    cbn [hierarchical_clustering_fedavg.log_cluster_distribution].
    apply NoDup_cons. split; [|by apply IH].
    intros Hin.
    apply log_cluster_distribution_elem in Hin as (cluster_id' & image & Hid & Heq).
    apply Hnotin. cbn in Heq. by simplify_eq.
Qed.

End cluster_distribution_more.

End driver_more.

Section driver_more_examples.
Import experiments.

Example cluster_distribution_two_clusters :
  @hierarchical_clustering_fedavg.log_cluster_distribution toy.types
    (λ tag _ _, "heatmap of " +:+ tag) "logger"
    [("0", ["client 0"]); ("1", ["client 1"; "client 2"])] 62
  = [@add_image toy.types "logger" "label distribution/cluster_0"
       "heatmap of cluster 0";
     @add_image toy.types "logger" "label distribution/cluster_1"
       "heatmap of cluster 1"].
Proof. reflexivity. Qed.

Lemma fedavg_runs_once_per_fraction_witness :
  filter (λ e, @is_run_fedavg toy.types e = true) (toy.fedavg_run "ham10k").1
  = @fedavg.fedavg_call toy.types toy.framework "0.1" "femnist" 50 3 10
      "SGD 0.1" 3 "CNN" "ham10k" "ham10k" "ham10k"
    <$> ["0.1"; "0.2"].
Proof.
  exact (proj1 (@fedavg_runs_once_per_fraction toy.types toy.framework
                  123123123 "0.1" "femnist" 50 ["0.1"; "0.2"] 3 10 367%nat
                  "SGD 0.1" 3 "CNN" "ham10k" () () "ham10k" "ham10k" eq_refl)).
Defined.

Lemma hierarchical_run_counts_witness :
  @count_events toy.types is_run_fedavg (toy.hierarchical_run "femnist").1 = 4%nat
  ∧ @count_events toy.types is_run_fedavg_hierarchical
      (toy.hierarchical_run "femnist").1
    = 16%nat
  ∧ @count_events toy.types is_create_tensorboard_logger
      (toy.hierarchical_run "femnist").1
    = 20%nat.
Proof.
  exact (@hierarchical_run_counts toy.types toy.framework
           123123123 ["0.068"; "0.1"] "hpsearch" 75 [5; 10] ["0.1"; "0.2"]
           3 10 367%nat 250 15 3 "CNN" "femnist" "AlternativePartitioner"
           "ward" "distance" "euclidean"
           (hierarchical_clustering_fedavg.iterable ["3.5"; "4.0"])
           "femnist_scratched" eq_refl).
Defined.

Lemma hierarchical_stages_well_formed_witness :
  Forall
    (@hierarchical_clustering_fedavg.cluster_stage_well_formed toy.types
       toy.framework 75 [5; 10] ["3.5"; "4.0"] ["0.1"; "0.2"] 3
       "femnist_scratched")
    (toy.hierarchical_run "femnist").1.
Proof.
  exact (@hierarchical_stages_well_formed toy.types toy.framework
           123123123 ["0.068"; "0.1"] "hpsearch" 75 [5; 10] ["0.1"; "0.2"]
           3 10 367%nat 250 15 3 "CNN" "femnist" "AlternativePartitioner"
           "ward" "distance" "euclidean"
           (hierarchical_clustering_fedavg.iterable ["3.5"; "4.0"])
           "femnist_scratched" eq_refl).
Defined.

End driver_more_examples.
